(** * Agent-supervision core: event bus, base agent, orchestrator

  A shallow embedding of
  - [backend/app/services/agents/event_bus.py]   (module [EventBus]),
  - [backend/app/services/agents/base_agent.py]  (module [BaseAgent]),
  - [backend/app/services/agents/orchestrator.py] (module [Orchestrator]),
  - the job queue of [document_retrieval_agent.py],
    [email_retrieval_agent.py] and [classification_agent.py]
    (module [RetrievalAgent]),
  - the polling cycle of [request_monitor_agent.py]
    (module [RequestMonitorAgent]),
  followed by the properties of the specification that concern them and
  by further properties of the code.

  Conventions of the embedding.
  - A Python [int] is a [Z].  A Python [float] is a binary64 [float] of
    the kernel, with its rounded arithmetic: the delays of the retry
    procedure are computed as the source computes them.  The run interval
    alone is a rational [Q]: the only operation on it is the subtraction of
    a slice of at most one second, which is exact for a [float] as well.
  - Every coroutine is run to its next observable result by a function on an
    explicit state record; what the surroundings decide (whether a hook or
    the unit of work raises, the value of a random draw, a cancellation) is
    an argument of that function.
  - Calls that leave the component (publishing on the bus, sleeping,
    invoking the unit of work) are appended to a trace carried by the
    record, oldest entry first.
  - Wall-clock time stamps, log lines and uuids carry no behaviour and are
    left out, or supplied by the caller where a record needs them. *)

From Stdlib Require Import Floats ZArith QArith Qminmax Qpower Qround Lia Lqa
  List Bool String.
From stdpp Require Import base decidable option list gmap strings.
Import ListNotations.

Local Open Scope string_scope.
Local Open Scope list_scope.
Local Open Scope Z_scope.

Set Warnings "-inexact-float".

(* ===================================================================== *)
(** * Python built-ins used by the modules *)
(* ===================================================================== *)

Module Py.

(** [l[start:]] for a Python list: a negative [start] counts from the end
    and both ends are clamped to the list. *)
Definition slice_from {A : Type} (start : Z) (l : list A) : list A :=
  let len := Z.of_nat (length l) in
  let i := if start <? 0 then Z.max (start + len) 0 else Z.min start len in
  drop (Z.to_nat i) l.

(** [range(n)]: empty when [n <= 0]. *)
Definition range (n : Z) : list nat := seq 0 (Z.to_nat n).

(** Truthiness of a [str]: only the empty string is falsy. *)
Definition truthy_str (s : string) : bool :=
  match s with EmptyString => false | _ => true end.

(** [l[:stop]]: a negative [stop] counts from the end. *)
Definition slice_to {A : Type} (stop : Z) (l : list A) : list A :=
  let len := Z.of_nat (length l) in
  let j := if stop <? 0 then Z.max (stop + len) 0 else Z.min stop len in
  take (Z.to_nat j) l.

(** Truthiness of an [int]: only [0] is falsy. *)
Definition truthy_int (n : Z) : bool := negb (n =? 0).

(** [min(a, b)] on two [float]s: the second argument is taken only when
    it compares less than the first. *)
Definition min_float (a b : float) : float :=
  if (b <? a)%float then b else a.

End Py.

(* ===================================================================== *)
(** * event_bus.py *)
(* ===================================================================== *)

Module EventBus.

(** [class EventType(str, Enum)] *)
Inductive EventType : Set :=
| REQUEST_CREATED | REQUEST_UPDATED | REQUEST_COMPLETED | REQUEST_CANCELLED
| DOCUMENT_RETRIEVAL_STARTED | DOCUMENT_RETRIEVAL_PROGRESS
| DOCUMENTS_RETRIEVED | DOCUMENT_RETRIEVAL_FAILED
| EMAIL_RETRIEVAL_STARTED | EMAIL_RETRIEVAL_PROGRESS
| EMAILS_RETRIEVED | EMAIL_RETRIEVAL_FAILED
| CLASSIFICATION_STARTED | CLASSIFICATION_PROGRESS
| CLASSIFICATION_COMPLETE | CLASSIFICATION_FAILED
| DEADLINE_APPROACHING | DEADLINE_CRITICAL | DEADLINE_OVERDUE
| WORKFLOW_TASK_STARTED | WORKFLOW_TASK_COMPLETED
| WORKFLOW_TASK_FAILED | WORKFLOW_COMPLETED
| AGENT_STARTED | AGENT_STOPPED | AGENT_ERROR | AGENT_HEARTBEAT
| ERROR | WARNING | NOTIFICATION | SYSTEM_SHUTDOWN.

#[global] Instance EventType_eq_dec : EqDecision EventType.
Proof. solve_decision. Defined.

(** Truthiness of a member: its [value] is a non-empty string. *)
Definition truthy_type (t : EventType) : bool := true.

(** [@dataclass class Event].  [event_id] and [timestamp] come from
    [uuid.uuid4] and [datetime.utcnow]; the caller of [publish] supplies
    them. *)
Record Event : Type := mkEvent {
  event_type : EventType;
  data : list (string * string);
  source : string;
  event_id : string;
  timestamp : Z;
  correlation_id : option string;
  metadata : list (string * string)
}.

(** [@dataclass class Subscription].  The callback is identified by its
    subscriber: an invocation is an entry of the trace [delivered] below;
    what the callback raises is caught and logged by the bus. *)
Record Subscription : Type := mkSubscription {
  subscriber_id : string;
  event_types : list EventType;
  is_async : bool;
  filter_func : option (Event -> bool)
}.

(** [asyncio.Queue(maxsize)]: a FIFO; [maxsize <= 0] means unbounded. *)
Record Queue : Type := mkQueue {
  maxsize : Z;
  items : list Event
}.

Definition qsize (q : Queue) : Z := Z.of_nat (length (items q)).

(** [Queue.full()] *)
Definition full (q : Queue) : bool :=
  if maxsize q <=? 0 then false else maxsize q <=? qsize q.

(** [Queue.put_nowait(item)]: [None] stands for raising
    [asyncio.QueueFull]. *)
Definition put_nowait (item : Event) (q : Queue) : option Queue :=
  if full q then None
  else Some {| maxsize := maxsize q; items := items q ++ [item] |}.

(** [await Queue.put(item)]: while the queue is full the caller is
    suspended until a consumer frees a slot; it never raises
    [asyncio.QueueFull].  [None] stands for the suspended caller. *)
Definition put (item : Event) (q : Queue) : option Queue :=
  if full q then None else put_nowait item q.

(** [class EventBus].  [delivered] is the trace of callback invocations
    (subscriber, event id), oldest first. *)
Record Bus : Type := mkBus {
  _subscriptions : list Subscription;
  _event_queue : Queue;
  _running : bool;
  _event_history : list Event;
  _max_history_size : Z;
  delivered : list (string * string)
}.

(** [EventBus.__init__(max_queue_size = 10000)] *)
Definition default_max_queue_size : Z := 10000.

Definition __init__ (max_queue_size : Z) : Bus :=
  {| _subscriptions := [];
     _event_queue := {| maxsize := max_queue_size; items := [] |};
     _running := false;
     _event_history := [];
     _max_history_size := 1000;
     delivered := [] |}.

Definition with_queue (q : Queue) (b : Bus) : Bus :=
  {| _subscriptions := _subscriptions b; _event_queue := q;
     _running := _running b; _event_history := _event_history b;
     _max_history_size := _max_history_size b; delivered := delivered b |}.

Definition with_subscriptions (s : list Subscription) (b : Bus) : Bus :=
  {| _subscriptions := s; _event_queue := _event_queue b;
     _running := _running b; _event_history := _event_history b;
     _max_history_size := _max_history_size b; delivered := delivered b |}.

(** [self._subscriptions[subscriber_id] = subscription] on an
    insertion-ordered dict: an existing key keeps its place. *)
Fixpoint dict_set (s : Subscription) (l : list Subscription)
  : list Subscription :=
  match l with
  | [] => [s]
  | x :: rest =>
      if decide (subscriber_id x = subscriber_id s) then s :: rest
      else x :: dict_set s rest
  end.

Definition subscribe (s : Subscription) (b : Bus) : string * Bus :=
  (subscriber_id s, with_subscriptions (dict_set s (_subscriptions b)) b).

Definition unsubscribe (id : string) (b : Bus) : bool * Bus :=
  if existsb (fun x => bool_decide (subscriber_id x = id)) (_subscriptions b)
  then (true,
        with_subscriptions
          (List.filter (fun x => negb (bool_decide (subscriber_id x = id)))
                       (_subscriptions b)) b)
  else (false, b).

(** What a call on the bus does to its caller. *)
Inductive Outcome (A : Type) : Type :=
| Returns (value : A) (bus : Bus)
| RaisesRuntimeError (message : string)
| Suspended.
Arguments Returns {A} value bus.
Arguments RaisesRuntimeError {A} message.
Arguments Suspended {A}.

(** [metadata or {}] *)
Definition or_empty (m : option (list (string * string)))
  : list (string * string) :=
  match m with Some d => d | None => [] end.

(** [async def publish]: the event is handed to [await queue.put].  The
    handler for [asyncio.QueueFull] that follows the call is kept in the
    source but [put] has no path that raises it. *)
Definition publish (b : Bus) (ty : EventType) (payload : list (string * string))
    (src : string) (corr : option string)
    (meta : option (list (string * string))) (fresh_id : string) (now : Z)
  : Outcome Event :=
  let event := {| event_type := ty; data := payload; source := src;
                  event_id := fresh_id; timestamp := now;
                  correlation_id := corr; metadata := or_empty meta |} in
  match put event (_event_queue b) with
  | Some q => Returns event (with_queue q b)
  | None => Suspended
  end.

(** [def publish_sync]: the same with [queue.put_nowait]. *)
Definition publish_sync (b : Bus) (ty : EventType)
    (payload : list (string * string))
    (src : string) (corr : option string)
    (meta : option (list (string * string))) (fresh_id : string) (now : Z)
  : Outcome Event :=
  let event := {| event_type := ty; data := payload; source := src;
                  event_id := fresh_id; timestamp := now;
                  correlation_id := corr; metadata := or_empty meta |} in
  match put_nowait event (_event_queue b) with
  | Some q => Returns event (with_queue q b)
  | None => RaisesRuntimeError "Event queue is full"
  end.

(** The subscriptions [_process_event] notifies for [event]. *)
Definition matches (event : Event) (s : Subscription) : bool :=
  bool_decide (event_type event ∈ event_types s)
  && match filter_func s with
     | Some f => f event
     | None => true
     end.

(** [async def _process_event]: record the event in the bounded history,
    then invoke every matching callback; a callback that raises is logged
    and does not stop the others. *)
Definition _process_event (event : Event) (b : Bus) : Bus :=
  let history := _event_history b ++ [event] in
  let history :=
    if _max_history_size b <? Z.of_nat (length history)
    then Py.slice_from (- _max_history_size b) history
    else history in
  {| _subscriptions := _subscriptions b;
     _event_queue := _event_queue b;
     _running := _running b;
     _event_history := history;
     _max_history_size := _max_history_size b;
     delivered :=
       delivered b ++
       map (fun s => (subscriber_id s, event_id event))
           (List.filter (matches event) (_subscriptions b)) |}.

(** One turn of [_event_processor]: take the oldest queued event and
    process it. *)
Definition process_next (b : Bus) : Bus :=
  match items (_event_queue b) with
  | [] => b
  | event :: rest =>
      _process_event event
        (with_queue {| maxsize := maxsize (_event_queue b); items := rest |} b)
  end.

(** [def get_event_history(event_type, source, correlation_id, limit)] *)
Definition get_event_history (b : Bus) (ty : option EventType)
    (src : option string) (corr : option string) (limit : Z) : list Event :=
  let events := _event_history b in
  let events :=
    match ty with
    | Some t =>
        if truthy_type t
        then List.filter (fun e => bool_decide (event_type e = t)) events
        else events
    | None => events
    end in
  let events :=
    match src with
    | Some s =>
        if Py.truthy_str s
        then List.filter (fun e => bool_decide (source e = s)) events
        else events
    | None => events
    end in
  let events :=
    match corr with
    | Some c =>
        if Py.truthy_str c
        then List.filter (fun e => bool_decide (correlation_id e = Some c)) events
        else events
    | None => events
    end in
  Py.slice_from (- limit) events.

(** ** The rest of the bus *)

Definition with_running (r : bool) (b : Bus) : Bus :=
  {| _subscriptions := _subscriptions b; _event_queue := _event_queue b;
     _running := r; _event_history := _event_history b;
     _max_history_size := _max_history_size b; delivered := delivered b |}.

(** [async def start]: a second call returns at once. *)
Definition start (b : Bus) : Bus :=
  if _running b then b else with_running true b.

(** The [while not self._event_queue.empty()] loop of [stop]: one
    [get_nowait] and one [_process_event] per queued event. *)
Definition drain_queue (b : Bus) : Bus :=
  Nat.iter (length (items (_event_queue b))) process_next b.

(** [async def stop(drain = True)]: the processor task is cancelled after
    [_running] is cleared. *)
Definition stop (drain : bool) (b : Bus) : Bus :=
  if negb (_running b) then b
  else
    let b := if drain then drain_queue b else b in
    with_running false b.

(** [def get_queue_size] and [def get_subscriber_count] *)
Definition get_queue_size (b : Bus) : Z := qsize (_event_queue b).

Definition get_subscriber_count (b : Bus) : Z :=
  Z.of_nat (length (_subscriptions b)).

(** The dispatcher processing a sequence of events, oldest first. *)
Definition process_all (events : list Event) (b : Bus) : Bus :=
  foldl (fun b e => _process_event e b) b events.

(** The keys of the dict [_subscriptions], and the events (by id) whose
    callback invocation for one subscriber is recorded in [delivered]. *)
Definition subscribers (b : Bus) : list string :=
  map subscriber_id (_subscriptions b).

Definition deliveries_to (id : string) (b : Bus) : list string :=
  map snd (List.filter (fun d => bool_decide (fst d = id)) (delivered b)).

(** The last [n] elements of a list. *)
Definition last_n {A : Type} (n : nat) (l : list A) : list A :=
  drop (length l - n) l.

(** ** Auxiliary definitions for the properties below *)

(** The events that pass the filters of [get_event_history]: a filter
    that is [None] or the empty string is not applied. *)
Definition selected (ty : option EventType) (src corr : option string)
    (e : Event) : bool :=
  match ty with
  | Some t => bool_decide (event_type e = t)
  | None => true
  end
  && match src with
     | Some s => if Py.truthy_str s then bool_decide (source e = s) else true
     | None => true
     end
  && match corr with
     | Some c => if Py.truthy_str c
                 then bool_decide (correlation_id e = Some c) else true
     | None => true
     end.

(** A bus of the default capacity whose queue holds 10,000 events. *)
Definition queued_event : Event :=
  {| event_type := NOTIFICATION; data := []; source := "request_monitor";
     event_id := "e"; timestamp := 0; correlation_id := None;
     metadata := [] |}.

Definition saturated_bus : Bus :=
  with_queue {| maxsize := default_max_queue_size;
                items := replicate (Z.to_nat default_max_queue_size)
                                   queued_event |}
             (__init__ default_max_queue_size).

(** Three events processed by a fresh bus. *)
Definition ev (id : string) : Event :=
  {| event_type := REQUEST_CREATED; data := []; source := "request_monitor";
     event_id := id; timestamp := 0; correlation_id := None;
     metadata := [] |}.

Definition bus_with_history : Bus :=
  _process_event (ev "c")
    (_process_event (ev "b")
       (_process_event (ev "a") (__init__ default_max_queue_size))).

End EventBus.

(* ===================================================================== *)
(** * base_agent.py *)
(* ===================================================================== *)

Module BaseAgent.
Import EventBus.

(** [class AgentState(str, Enum)] *)
Inductive AgentState : Set :=
| IDLE | STARTING | RUNNING | PAUSED | STOPPING | STOPPED | ERROR | RECOVERING.

#[global] Instance AgentState_eq_dec : EqDecision AgentState.
Proof. solve_decision. Defined.

(** [@dataclass class RetryConfig] *)
Record RetryConfig : Type := mkRetryConfig {
  max_retries : Z;
  initial_delay : float;
  max_delay : float;
  exponential_base : float;
  jitter : bool
}.

(** [RetryConfig()] with the defaults of the dataclass. *)
Definition default_RetryConfig : RetryConfig :=
  {| max_retries := 3; initial_delay := 1; max_delay := 300;
     exponential_base := 2; jitter := true |}.

(** [@dataclass class AgentMetrics]; an error record keeps its type and
    message. *)
Record AgentMetrics : Type := mkAgentMetrics {
  total_runs : Z;
  successful_runs : Z;
  failed_runs : Z;
  total_items_processed : Z;
  current_retry_count : Z;
  errors : list (string * string)
}.

(** What the agent does to its surroundings. *)
Inductive Action : Type :=
| Transition (old_state new_state : AgentState)  (* [_set_state] *)
| Emit (ty : EventType)        (* [_emit_event] -> [event_bus.publish] *)
| Invoke (attempt : nat)       (* [await func()] in [_execute_with_retry] *)
| Sleep (seconds : float)      (* [await asyncio.sleep(wait_time)] *)
| WaitInterval.                (* [await self._wait_for_interval()] *)

(** The mutable part of [class BaseAgent].  [run_loop_active] and
    [heartbeat_active] say whether the tasks behind [_run_task] and
    [_heartbeat_task] are still scheduled. *)
Record Agent : Type := mkAgent {
  agent_name : string;
  retry_config : RetryConfig;
  _state : AgentState;
  _metrics : AgentMetrics;
  run_loop_active : bool;
  heartbeat_active : bool;
  _shutdown_event : bool;
  _pause_event : bool;
  trace : list Action
}.

(** [BaseAgent.__init__] *)
Definition __init__ (name : string) (cfg : RetryConfig) : Agent :=
  {| agent_name := name;
     retry_config := cfg;
     _state := IDLE;
     _metrics := {| total_runs := 0; successful_runs := 0; failed_runs := 0;
                    total_items_processed := 0; current_retry_count := 0;
                    errors := [] |};
     run_loop_active := false;
     heartbeat_active := false;
     _shutdown_event := false;
     _pause_event := true;
     trace := [] |}.

(** Field updates. *)
Definition with_state (s : AgentState) (a : Agent) : Agent :=
  {| agent_name := agent_name a; retry_config := retry_config a;
     _state := s; _metrics := _metrics a;
     run_loop_active := run_loop_active a;
     heartbeat_active := heartbeat_active a;
     _shutdown_event := _shutdown_event a; _pause_event := _pause_event a;
     trace := trace a |}.

Definition with_metrics (m : AgentMetrics) (a : Agent) : Agent :=
  {| agent_name := agent_name a; retry_config := retry_config a;
     _state := _state a; _metrics := m;
     run_loop_active := run_loop_active a;
     heartbeat_active := heartbeat_active a;
     _shutdown_event := _shutdown_event a; _pause_event := _pause_event a;
     trace := trace a |}.

Definition with_tasks (run heartbeat : bool) (a : Agent) : Agent :=
  {| agent_name := agent_name a; retry_config := retry_config a;
     _state := _state a; _metrics := _metrics a;
     run_loop_active := run;
     heartbeat_active := heartbeat;
     _shutdown_event := _shutdown_event a; _pause_event := _pause_event a;
     trace := trace a |}.

Definition with_signals (shutdown pause : bool) (a : Agent) : Agent :=
  {| agent_name := agent_name a; retry_config := retry_config a;
     _state := _state a; _metrics := _metrics a;
     run_loop_active := run_loop_active a;
     heartbeat_active := heartbeat_active a;
     _shutdown_event := shutdown; _pause_event := pause;
     trace := trace a |}.

Definition log (x : Action) (a : Agent) : Agent :=
  {| agent_name := agent_name a; retry_config := retry_config a;
     _state := _state a; _metrics := _metrics a;
     run_loop_active := run_loop_active a;
     heartbeat_active := heartbeat_active a;
     _shutdown_event := _shutdown_event a; _pause_event := _pause_event a;
     trace := trace a ++ [x] |}.

Definition set_total_runs (v : Z) (m : AgentMetrics) : AgentMetrics :=
  {| total_runs := v; successful_runs := successful_runs m;
     failed_runs := failed_runs m;
     total_items_processed := total_items_processed m;
     current_retry_count := current_retry_count m; errors := errors m |}.

Definition set_successful_runs (v : Z) (m : AgentMetrics) : AgentMetrics :=
  {| total_runs := total_runs m; successful_runs := v;
     failed_runs := failed_runs m;
     total_items_processed := total_items_processed m;
     current_retry_count := current_retry_count m; errors := errors m |}.

Definition set_failed_runs (v : Z) (m : AgentMetrics) : AgentMetrics :=
  {| total_runs := total_runs m; successful_runs := successful_runs m;
     failed_runs := v;
     total_items_processed := total_items_processed m;
     current_retry_count := current_retry_count m; errors := errors m |}.

Definition set_current_retry_count (v : Z) (m : AgentMetrics) : AgentMetrics :=
  {| total_runs := total_runs m; successful_runs := successful_runs m;
     failed_runs := failed_runs m;
     total_items_processed := total_items_processed m;
     current_retry_count := v; errors := errors m |}.

Definition set_errors (v : list (string * string)) (m : AgentMetrics)
  : AgentMetrics :=
  {| total_runs := total_runs m; successful_runs := successful_runs m;
     failed_runs := failed_runs m;
     total_items_processed := total_items_processed m;
     current_retry_count := current_retry_count m; errors := v |}.

(** [async def _emit_event]: publishes with [source = agent_name]; a
    failure of the bus is logged and swallowed. *)
Definition _emit_event (ty : EventType) (a : Agent) : Agent :=
  log (Emit ty) a.

(** [async def _set_state] *)
Definition _set_state (new_state : AgentState) (a : Agent) : Agent :=
  let old_state := _state a in
  let a := log (Transition old_state new_state) (with_state new_state a) in
  match new_state with
  | ERROR => _emit_event AGENT_ERROR a
  | _ => a
  end.

(** [def _add_error]: the list of errors keeps its last 100 entries. *)
Definition _add_error (error_type message : string) (a : Agent) : Agent :=
  let es := errors (_metrics a) ++ [(error_type, message)] in
  let es := if 100 <? Z.of_nat (length es) then Py.slice_from (-100) es
            else es in
  with_metrics (set_errors es (_metrics a)) a.

(** The result of awaiting a coroutine of the agent: a value, an
    [Exception] (its message), or [asyncio.CancelledError]. *)
Inductive Result : Type :=
| Return (value : bool)
| Raise (message : string)
| RaiseCancelled.

(** The result of a subclass hook ([_on_start], [_on_stop]). *)
Inductive HookResult : Type :=
| HookOk
| HookRaises (message : string).

(** [async def start] *)
Definition start (on_start : HookResult) (a : Agent) : bool * Agent :=
  if bool_decide (_state a ∈ [IDLE; STOPPED; ERROR]) then
    let a := _set_state STARTING a in
    let a := with_signals false true a in
    match on_start with
    | HookOk =>
        let a := with_tasks true true a in
        let a := _set_state RUNNING a in
        let a := _emit_event AGENT_STARTED a in
        (true, a)
    | HookRaises e =>
        let a := _set_state ERROR a in
        let a := _add_error "start_failed" e a in
        (false, a)
    end
  else (false, a).

(** [async def stop]: both loops are signalled, the heartbeat task is
    cancelled and the run task awaited (cancelled after [timeout]), so
    neither is scheduled when [_on_stop] is called. *)
Definition stop (on_stop : HookResult) (a : Agent) : bool * Agent :=
  if decide (_state a = STOPPED) then (true, a)
  else
    let a := _set_state STOPPING a in
    let a := with_signals true true a in
    let a := with_tasks false false a in
    match on_stop with
    | HookOk =>
        let a := _set_state STOPPED a in
        let a := _emit_event AGENT_STOPPED a in
        (true, a)
    | HookRaises e =>
        let a := _set_state ERROR a in
        (false, a)
    end.

(** [async def pause] *)
Definition pause (a : Agent) : Agent :=
  if decide (_state a = RUNNING)
  then _set_state PAUSED (with_signals (_shutdown_event a) false a)
  else a.

(** [async def resume] *)
Definition resume (a : Agent) : Agent :=
  if decide (_state a = PAUSED)
  then _set_state RUNNING (with_signals (_shutdown_event a) true a)
  else a.

(** What one call of [_execute_with_retry] meets: the result of the
    [attempt]-th call of the unit of work, the value of [random.random()]
    drawn after the [attempt]-th failure, and whether the task is
    cancelled during the sleep that follows it. *)
Record RetryEnv : Type := mkRetryEnv {
  func : nat -> Result;
  random : nat -> float;
  sleep_cancelled : nat -> bool
}.

(** [raise last_exception]; raising [None] is a [TypeError]. *)
Definition raise_last (last_exception : option string) : Result :=
  match last_exception with
  | Some e => Raise e
  | None => Raise "exceptions must derive from BaseException"
  end.

(** The [for attempt in ...] loop of [_execute_with_retry], with its
    loop-carried variables [delay] and [last_exception]. *)
Fixpoint retry_loop (cfg : RetryConfig) (env : RetryEnv) (attempts : list nat)
    (delay : float) (last_exception : option string) (a : Agent)
  : Result * Agent :=
  match attempts with
  | [] => (raise_last last_exception, a)
  | attempt :: rest =>
      let a := if (0 <? attempt)%nat then _set_state RECOVERING a else a in
      let a := log (Invoke attempt) a in
      match func env attempt with
      | Return result =>
          let a := if (0 <? attempt)%nat then _set_state RUNNING a else a in
          (Return result, a)
      | RaiseCancelled => (RaiseCancelled, a)
      | Raise e =>
          let a := with_metrics
                     (set_current_retry_count (Z.of_nat attempt + 1)
                                              (_metrics a)) a in
          if Z.of_nat attempt <? max_retries cfg then
            let delay :=
              if jitter cfg
              then (delay * (0.5 + random env attempt))%float
              else delay in
            let wait_time := Py.min_float delay (max_delay cfg) in
            let a := log (Sleep wait_time) a in
            if sleep_cancelled env attempt then (RaiseCancelled, a)
            else retry_loop cfg env rest
                            (delay * exponential_base cfg)%float (Some e) a
          else
            let a := _set_state ERROR a in
            retry_loop cfg env rest delay (Some e) a
      end
  end.

(** [async def _execute_with_retry(func)] *)
Definition _execute_with_retry (env : RetryEnv) (a : Agent) : Result * Agent :=
  let cfg := retry_config a in
  retry_loop cfg env (Py.range (max_retries cfg + 1))
             (initial_delay cfg) None a.

(** What one pass of the [while] loop of [_run_loop] meets. *)
Record IterEnv : Type := mkIterEnv {
  work : RetryEnv;
  interval_cancelled : bool
}.

(** How a pass of the loop ends: it goes round again, the loop is left
    ([break], or the [while] condition fails), or the task stays suspended
    in [await self._pause_event.wait()]. *)
Inductive LoopStatus : Set := GoOn | Left | Waiting.

(** [await self._wait_for_interval()], then round the loop;
    [asyncio.CancelledError] leaves the loop. *)
Definition wait_then_go_on (env : IterEnv) (a : Agent) : LoopStatus * Agent :=
  let a := log WaitInterval a in
  if interval_cancelled env then (Left, with_tasks false (heartbeat_active a) a)
  else (GoOn, a).

(** [self._metrics.total_runs += 1] *)
Definition count_run (a : Agent) : Agent :=
  let m := _metrics a in
  with_metrics (set_total_runs (total_runs m + 1) m) a.

(** One pass of the [while not self._shutdown_event.is_set()] loop of
    [_run_loop]. *)
Definition run_iteration (env : IterEnv) (a : Agent) : LoopStatus * Agent :=
  if _shutdown_event a then (Left, with_tasks false (heartbeat_active a) a)
  else if negb (_pause_event a) then (Waiting, a)
  else if _shutdown_event a then (Left, with_tasks false (heartbeat_active a) a)
  else
    let a := count_run a in
    match _execute_with_retry (work env) a with
    | (Return result, a) =>
        let m := _metrics a in
        let a :=
          if result
          then with_metrics
                 (set_current_retry_count 0
                    (set_successful_runs (successful_runs m + 1) m)) a
          else with_metrics (set_failed_runs (failed_runs m + 1) m) a in
        wait_then_go_on env a
    | (Raise e, a) =>
        let m := _metrics a in
        let a := with_metrics (set_failed_runs (failed_runs m + 1) m) a in
        let a := _add_error "run_error" e a in
        wait_then_go_on env a
    | (RaiseCancelled, a) => (Left, with_tasks false (heartbeat_active a) a)
    end.

(** [async def _run_loop], one element of [envs] per pass. *)
Fixpoint _run_loop (envs : list IterEnv) (a : Agent) : LoopStatus * Agent :=
  match envs with
  | [] => (GoOn, a)
  | env :: rest =>
      match run_iteration env a with
      | (GoOn, a) => _run_loop rest a
      | stopped => stopped
      end
  end.

(** The calls of the unit of work, the sleeps of the retry procedure and
    the state transitions recorded in a trace. *)
Definition invocations (t : list Action) : list nat :=
  omap (fun x => match x with Invoke k => Some k | _ => None end) t.

Definition sleeps (t : list Action) : list float :=
  omap (fun x => match x with Sleep d => Some d | _ => None end) t.

Definition transitions (t : list Action) : list (AgentState * AgentState) :=
  omap (fun x => match x with Transition o n => Some (o, n) | _ => None end) t.

Definition emitted (t : list Action) : list EventType :=
  omap (fun x => match x with Emit ty => Some ty | _ => None end) t.

(** ** The rest of the agent *)

(** The [while interval_remaining > 0 and not shutdown] loop of
    [_wait_for_interval], with [check_interval = 1.0]: the list of the
    [sleep_time]s slept.  [shutdown i] says whether the shutdown event is
    set when the condition is tested for the [i]-th time; [None] stands for
    a loop that has not ended when [fuel] passes have been made. *)
Fixpoint wait_loop (fuel : nat) (shutdown : nat -> bool) (i : nat)
    (interval_remaining : Q) : option (list Q) :=
  if negb (Qle_bool interval_remaining 0) && negb (shutdown i) then
    match fuel with
    | O => None
    | S fuel =>
        let sleep_time := Qmin 1 interval_remaining in
        option_map (cons sleep_time)
          (wait_loop fuel shutdown (S i) (interval_remaining - sleep_time)%Q)
    end
  else Some [].

(** [async def _wait_for_interval], for [self.run_interval]: as many
    passes as the interval has seconds are enough. *)
Definition _wait_for_interval (run_interval : Q) (shutdown : nat -> bool)
  : option (list Q) :=
  wait_loop (Z.to_nat (Qceiling run_interval)) shutdown 0 run_interval.

(** The sum of a list of delays. *)
Definition total (l : list Q) : Q := fold_right Qplus 0%Q l.

(** [self._subscribed_events] and [self._event_handlers]: the kinds the
    agent has asked for and the dict from a kind to its handler (a handler
    is identified by its name). *)
Record Handlers : Type := mkHandlers {
  _subscribed_events : list EventType;
  _event_handlers : list (EventType * string)
}.

Definition no_handlers : Handlers :=
  {| _subscribed_events := []; _event_handlers := [] |}.

(** [d[key] = value] on an insertion-ordered dict. *)
Fixpoint handler_set (ty : EventType) (h : string)
    (d : list (EventType * string)) : list (EventType * string) :=
  match d with
  | [] => [(ty, h)]
  | (ty', h') :: rest =>
      if decide (ty' = ty) then (ty, h) :: rest
      else (ty', h') :: handler_set ty h rest
  end.

(** [d.get(key)] *)
Fixpoint handler_get (ty : EventType) (d : list (EventType * string))
  : option string :=
  match d with
  | [] => None
  | (ty', h) :: rest => if decide (ty' = ty) then Some h else handler_get ty rest
  end.

(** [def register_event_handler(event_type, handler)] *)
Definition register_event_handler (ty : EventType) (h : string)
    (hs : Handlers) : Handlers :=
  {| _subscribed_events := _subscribed_events hs ++ [ty];
     _event_handlers := handler_set ty h (_event_handlers hs) |}.

(** [async def _subscribe_to_events]: nothing is subscribed for an agent
    without handlers. *)
Definition _subscribe_to_events (name : string) (hs : Handlers) (b : Bus)
  : Bus :=
  match _subscribed_events hs, _event_handlers hs with
  | _ :: _, _ :: _ =>
      snd (subscribe {| subscriber_id := name;
                        event_types := _subscribed_events hs;
                        is_async := true;
                        filter_func := None |} b)
  | _, _ => b
  end.

(** [async def _unsubscribe_from_events] *)
Definition _unsubscribe_from_events (name : string) (b : Bus) : Bus :=
  snd (unsubscribe name b).

(** [async def _handle_event]: the handler called for the event, if the
    agent has one for its kind. *)
Definition _handle_event (hs : Handlers) (event : Event) : option string :=
  handler_get (event_type event) (_event_handlers hs).

(** The handlers of an agent after the registrations of its
    constructor. *)
Definition registered (rs : list (EventType * string)) : Handlers :=
  foldl (fun hs r => register_event_handler (fst r) (snd r) hs) no_handlers rs.

(** [recent_errors] of [get_status]: [errors[-5:] if errors else []]. *)
Definition recent_errors (a : Agent) : list (string * string) :=
  match errors (_metrics a) with
  | [] => []
  | _ :: _ => Py.slice_from (-5) (errors (_metrics a))
  end.

(** ** The agent as a transition system *)






(** ** Auxiliary definitions for the properties below *)





(** [successful_runs + failed_runs = total_runs] *)
Definition runs_balanced (m : AgentMetrics) : Prop :=
  successful_runs m + failed_runs m = total_runs m.

(** The jitter applied to the running delay after the failure of attempt
    [k]; the value of [delay] when attempt [k] starts, all earlier attempts
    having failed; and the [wait_time] slept after the failure of attempt
    [k]. *)
Definition jittered (cfg : RetryConfig) (env : RetryEnv) (k : nat)
    (delay : float) : float :=
  if jitter cfg then (delay * (0.5 + random env k))%float else delay.

Fixpoint delay_at (cfg : RetryConfig) (env : RetryEnv) (k : nat) : float :=
  match k with
  | O => initial_delay cfg
  | S j => (jittered cfg env j (delay_at cfg env j) * exponential_base cfg)%float
  end.

Definition wait_at (cfg : RetryConfig) (env : RetryEnv) (k : nat) : float :=
  Py.min_float (jittered cfg env k (delay_at cfg env k)) (max_delay cfg).


Fixpoint power (base : float) (k : nat) : float :=
  match k with
  | O => 1%float
  | S j => (power base j * base)%float
  end.

Definition spec_backoff (cfg : RetryConfig) (k : nat) : float :=
  Py.min_float (max_delay cfg)
               (initial_delay cfg * power (exponential_base cfg) k)%float.

(** The delays slept, and the attempts made, by one call of
    [_execute_with_retry]: what the call adds to the trace. *)
Definition slept (env : RetryEnv) (a : Agent) : list float :=
  drop (length (sleeps (trace a)))
       (sleeps (trace (snd (_execute_with_retry env a)))).

Definition attempted (env : RetryEnv) (a : Agent) : list nat :=
  drop (length (invocations (trace a)))
       (invocations (trace (snd (_execute_with_retry env a)))).

(** A unit of work that raises on every call. *)
Definition always_failing (err : nat -> string) : RetryEnv :=
  {| func := fun k => Raise (err k);
     random := fun _ => 0%float;
     sleep_cancelled := fun _ => false |}.

(** A configuration with one retry, a pass of the loop whose unit of work
    always raises, and one whose unit of work raises once and then
    succeeds. *)
Definition one_retry : RetryConfig :=
  {| max_retries := 1; initial_delay := 1; max_delay := 300;
     exponential_base := 2; jitter := false |}.

Definition failing_pass : IterEnv :=
  {| work := always_failing (fun _ => "boom"); interval_cancelled := false |}.

Definition recovering_pass : IterEnv :=
  {| work := {| func := fun k => match k with
                                 | O => Raise "boom"
                                 | S _ => Return true
                                 end;
                random := fun _ => 0%float;
                sleep_cancelled := fun _ => false |};
     interval_cancelled := false |}.

End BaseAgent.

(* ===================================================================== *)
(** * orchestrator.py *)
(* ===================================================================== *)

Module Orchestrator.
Import EventBus.

(** [class OrchestratorState(str, Enum)] *)
Inductive OrchestratorState : Set :=
| INITIALIZING | RUNNING | PAUSED | STOPPING | STOPPED | ERROR.

#[global] Instance OrchestratorState_eq_dec : EqDecision OrchestratorState.
Proof. solve_decision. Defined.

(** What the orchestrator does to its agents and to the bus. *)
Inductive Action : Type :=
| StartAgent (agent_name : string) (result : bool)  (* [agent.start()] *)
| StopAgent (agent_name : string) (result : bool)   (* [agent.stop()] *)
| Cooldown                                          (* [asyncio.sleep(2.0)] *)
| Publish (ty : EventType) (src : string).          (* [_event_bus.publish] *)

(** The mutable part of [class AgentOrchestrator].  [_agents] is an
    insertion-ordered dict; [bus_started] says whether the global bus
    has been started by [init_event_bus]. *)
Record Orch : Type := mkOrch {
  auto_restart_agents : bool;
  max_restart_attempts : Z;
  _state : OrchestratorState;
  _agents : list (string * BaseAgent.Agent);
  _agent_restart_counts : gmap string Z;
  _health_check_task : bool;
  _shutdown_event : bool;
  _registered_handlers : list string;
  bus_started : bool;
  trace : list Action
}.

(** [AgentOrchestrator.__init__] *)
Definition __init__ (auto_restart : bool) (max_restart : Z) : Orch :=
  {| auto_restart_agents := auto_restart;
     max_restart_attempts := max_restart;
     _state := STOPPED;
     _agents := [];
     _agent_restart_counts := ∅;
     _health_check_task := false;
     _shutdown_event := false;
     _registered_handlers := [];
     bus_started := false;
     trace := [] |}.

Definition with_state (s : OrchestratorState) (o : Orch) : Orch :=
  {| auto_restart_agents := auto_restart_agents o;
     max_restart_attempts := max_restart_attempts o;
     _state := s; _agents := _agents o;
     _agent_restart_counts := _agent_restart_counts o;
     _health_check_task := _health_check_task o;
     _shutdown_event := _shutdown_event o;
     _registered_handlers := _registered_handlers o;
     bus_started := bus_started o; trace := trace o |}.

Definition with_agents (ags : list (string * BaseAgent.Agent)) (o : Orch)
  : Orch :=
  {| auto_restart_agents := auto_restart_agents o;
     max_restart_attempts := max_restart_attempts o;
     _state := _state o; _agents := ags;
     _agent_restart_counts := _agent_restart_counts o;
     _health_check_task := _health_check_task o;
     _shutdown_event := _shutdown_event o;
     _registered_handlers := _registered_handlers o;
     bus_started := bus_started o; trace := trace o |}.

Definition with_restart_counts (c : gmap string Z) (o : Orch) : Orch :=
  {| auto_restart_agents := auto_restart_agents o;
     max_restart_attempts := max_restart_attempts o;
     _state := _state o; _agents := _agents o;
     _agent_restart_counts := c;
     _health_check_task := _health_check_task o;
     _shutdown_event := _shutdown_event o;
     _registered_handlers := _registered_handlers o;
     bus_started := bus_started o; trace := trace o |}.

Definition with_health_check (t shutdown : bool) (o : Orch) : Orch :=
  {| auto_restart_agents := auto_restart_agents o;
     max_restart_attempts := max_restart_attempts o;
     _state := _state o; _agents := _agents o;
     _agent_restart_counts := _agent_restart_counts o;
     _health_check_task := t;
     _shutdown_event := shutdown;
     _registered_handlers := _registered_handlers o;
     bus_started := bus_started o; trace := trace o |}.

Definition with_bus (started : bool) (handlers : list string) (o : Orch)
  : Orch :=
  {| auto_restart_agents := auto_restart_agents o;
     max_restart_attempts := max_restart_attempts o;
     _state := _state o; _agents := _agents o;
     _agent_restart_counts := _agent_restart_counts o;
     _health_check_task := _health_check_task o;
     _shutdown_event := _shutdown_event o;
     _registered_handlers := handlers;
     bus_started := started; trace := trace o |}.

Definition log (l : list Action) (o : Orch) : Orch :=
  {| auto_restart_agents := auto_restart_agents o;
     max_restart_attempts := max_restart_attempts o;
     _state := _state o; _agents := _agents o;
     _agent_restart_counts := _agent_restart_counts o;
     _health_check_task := _health_check_task o;
     _shutdown_event := _shutdown_event o;
     _registered_handlers := _registered_handlers o;
     bus_started := bus_started o; trace := trace o ++ l |}.

(** What a call on the orchestrator meets: where [initialize] fails, if it
    does, and what the hooks of each agent do. *)
Inductive InitFailure : Set := BusFails | AgentConstructorFails.

Record Env : Type := mkEnv {
  init_failure : option InitFailure;
  on_start : string -> BaseAgent.HookResult;
  on_stop : string -> BaseAgent.HookResult
}.

(** The five agents of [_create_agents] with the retry configurations
    their constructors pass to [BaseAgent.__init__]. *)
Definition retry_of (retries : Z) (initial maximum : float)
  : BaseAgent.RetryConfig :=
  {| BaseAgent.max_retries := retries;
     BaseAgent.initial_delay := initial;
     BaseAgent.max_delay := maximum;
     BaseAgent.exponential_base := 2;
     BaseAgent.jitter := true |}.

Definition created_agents : list (string * BaseAgent.Agent) :=
  [ ("request_monitor",
     BaseAgent.__init__ "request_monitor" (retry_of 5 2 300));
    ("document_retrieval",
     BaseAgent.__init__ "document_retrieval" (retry_of 3 5 120));
    ("email_retrieval",
     BaseAgent.__init__ "email_retrieval" (retry_of 3 5 120));
    ("classification",
     BaseAgent.__init__ "classification" (retry_of 3 10 300));
    ("deadline_monitor",
     BaseAgent.__init__ "deadline_monitor" (retry_of 3 30 300)) ].

(** [async def _create_agents] *)
Definition _create_agents (o : Orch) : Orch :=
  let o := with_agents created_agents o in
  with_restart_counts
    (foldl (fun c name => <[name := 0]> c) (_agent_restart_counts o)
           (map fst (_agents o))) o.

(** [async def _register_event_handlers] *)
Definition _register_event_handlers (o : Orch) : Orch :=
  with_bus (bus_started o)
    (_registered_handlers o ++
     ["orchestrator_error_handler"; "orchestrator_agent_monitor";
      "orchestrator_workflow_tracker"]) o.

(** [async def initialize] *)
Definition initialize (env : Env) (o : Orch) : bool * Orch :=
  if decide (_state o = STOPPED) then
    let o := with_state INITIALIZING o in
    match init_failure env with
    | Some BusFails => (false, with_state ERROR o)
    | Some AgentConstructorFails =>
        let o := with_bus true (_registered_handlers o) o in
        let o := _register_event_handlers o in
        (false, with_state ERROR o)
    | None =>
        let o := with_bus true (_registered_handlers o) o in
        let o := _register_event_handlers o in
        (true, _create_agents o)
    end
  else (false, o).

(** [await asyncio.gather(...)] over [agent.start()]: the result of every
    agent together with the agents as the calls leave them. *)
Definition start_all (env : Env) (ags : list (string * BaseAgent.Agent))
  : list (string * (bool * BaseAgent.Agent)) :=
  map (fun '(name, agent) =>
         (name, BaseAgent.start (on_start env name) agent)) ags.

(** The same over [agent.stop(timeout / len(self._agents))]. *)
Definition stop_all (env : Env) (ags : list (string * BaseAgent.Agent))
  : list (string * (bool * BaseAgent.Agent)) :=
  map (fun '(name, agent) =>
         (name, BaseAgent.stop (on_stop env name) agent)) ags.

Definition results_of (rs : list (string * (bool * BaseAgent.Agent)))
  : list bool :=
  map (fun r => fst (snd r)) rs.

Definition agents_of (rs : list (string * (bool * BaseAgent.Agent)))
  : list (string * BaseAgent.Agent) :=
  map (fun r => (fst r, snd (snd r))) rs.

(** [async def stop].  [BaseAgent.stop] returns a [bool] and never
    raises, so [all_stopped] stays [True]: a [False] result is only
    logged. *)
Definition stop (env : Env) (o : Orch) : bool * Orch :=
  if decide (_state o = STOPPED) then (true, o)
  else
    let o := with_state STOPPING o in
    let o := with_health_check false true o in
    let rs := stop_all env (_agents o) in
    let o := log (map (fun r => StopAgent (fst r) (fst (snd r))) rs) o in
    let o := with_agents (agents_of rs) o in
    let all_stopped := true in
    let o := with_bus false [] o in
    let o := with_state STOPPED o in
    (all_stopped, o).

(** [async def start] *)
Definition start (env : Env) (o : Orch) : bool * Orch :=
  if decide (_state o = RUNNING) then (true, o)
  else
    let '(ok, o) :=
      if decide (_state o = STOPPED) then initialize env o else (true, o) in
    if negb ok then (false, o)
    else
      let o := with_health_check (_health_check_task o) false o in
      let rs := start_all env (_agents o) in
      let o := log (map (fun r => StartAgent (fst r) (fst (snd r))) rs) o in
      let o := with_agents (agents_of rs) o in
      let all_started := forallb (fun r => r) (results_of rs) in
      if all_started then
        let o := with_state RUNNING o in
        let o := with_health_check true (_shutdown_event o) o in
        (true, o)
      else
        let '(_, o) := stop env o in
        (false, o).

(** [async def _handle_agent_failure(agent_name, agent)]: the agent
    object is the caller's; it is returned as the call leaves it. *)
Definition _handle_agent_failure (env : Env) (agent_name : string)
    (agent : BaseAgent.Agent) (o : Orch) : BaseAgent.Agent * Orch :=
  let restart_count := default 0 (_agent_restart_counts o !! agent_name) in
  if negb (auto_restart_agents o) then (agent, o)
  else if max_restart_attempts o <=? restart_count then
    (agent, log [Publish EventBus.ERROR "orchestrator"] o)
  else
    let '(stopped, agent) := BaseAgent.stop (on_stop env agent_name) agent in
    let o := log [StopAgent agent_name stopped; Cooldown] o in
    let '(success, agent) := BaseAgent.start (on_start env agent_name) agent in
    let o := log [StartAgent agent_name success] o in
    if success then
      (agent, with_restart_counts
                (<[agent_name := restart_count + 1]> (_agent_restart_counts o)) o)
    else
      (agent, with_restart_counts
                (<[agent_name := restart_count + 1]> (_agent_restart_counts o)) o).

(** The [for agent_name, agent in self._agents.items()] loop of
    [_health_check_loop]. *)
Fixpoint check_agents (env : Env) (ags : list (string * BaseAgent.Agent))
    (o : Orch) : list (string * BaseAgent.Agent) * Orch :=
  match ags with
  | [] => ([], o)
  | (agent_name, agent) :: rest =>
      let '(agent, o) :=
        if decide (BaseAgent._state agent = BaseAgent.ERROR) then
          _handle_agent_failure env agent_name agent o
        else if bool_decide (BaseAgent._state agent = BaseAgent.STOPPED)
                && bool_decide (_state o = RUNNING) then
          _handle_agent_failure env agent_name agent o
        else (agent, o) in
      let '(rest, o) := check_agents env rest o in
      ((agent_name, agent) :: rest, o)
  end.

(** One pass of [_health_check_loop] after its sleep. *)
Definition health_check (env : Env) (o : Orch) : Orch :=
  if _shutdown_event o then o
  else
    let '(ags, o) := check_agents env (_agents o) o in
    with_agents ags o.

(** [async def pause]: [agent.pause()] on every agent, in the order of
    the dict. *)
Definition pause (o : Orch) : Orch :=
  if decide (_state o = RUNNING) then
    let o :=
      with_agents
        (map (fun na => (fst na, BaseAgent.pause (snd na))) (_agents o)) o in
    with_state PAUSED o
  else o.

(** [async def resume] *)
Definition resume (o : Orch) : Orch :=
  if decide (_state o = PAUSED) then
    let o :=
      with_agents
        (map (fun na => (fst na, BaseAgent.resume (snd na))) (_agents o)) o in
    with_state RUNNING o
  else o.

(** [def get_agent]: [self._agents.get(agent_name)]. *)
Definition get_agent (agent_name : string) (o : Orch)
  : option BaseAgent.Agent :=
  snd <$> List.find (fun na => bool_decide (fst na = agent_name)) (_agents o).

(** The restarts of [agent_name] recorded in a trace. *)
Definition restart_attempts (agent_name : string) (t : list Action) : nat :=
  length (List.filter
            (fun x => match x with
                      | StartAgent n _ => bool_decide (n = agent_name)
                      | _ => false
                      end) t).

Definition published (t : list Action) : list (EventType * string) :=
  omap (fun x => match x with Publish ty s => Some (ty, s) | _ => None end) t.

(** ** Auxiliary definitions for the properties below *)

(** Successive calls of [_handle_agent_failure] for one agent: every pass
    has its own environment and finds the agent as the time since the
    previous pass has left it. *)
Fixpoint failure_passes (ps : list (Env * BaseAgent.Agent))
    (agent_name : string) (o : Orch) : Orch :=
  match ps with
  | [] => o
  | (env, agent) :: rest =>
      failure_passes rest agent_name
        (snd (_handle_agent_failure env agent_name agent o))
  end.

(** The agents as the successive passes of [failure_passes] leave
    them. *)
Fixpoint passes_agents (ps : list (Env * BaseAgent.Agent))
    (agent_name : string) (o : Orch) : list BaseAgent.Agent :=
  match ps with
  | [] => []
  | (env, agent) :: rest =>
      fst (_handle_agent_failure env agent_name agent o)
      :: passes_agents rest agent_name
           (snd (_handle_agent_failure env agent_name agent o))
  end.

(** The calls of [start] that an agent has accepted: each one makes one
    transition to [STARTING]. *)
Definition worker_starts (agent : BaseAgent.Agent) : nat :=
  length (List.filter
            (fun p => match snd p with
                      | BaseAgent.STARTING => true
                      | _ => false
                      end)
            (BaseAgent.transitions (BaseAgent.trace agent))).


(** The restarts that a sequence of passes has made on the agents it was
    given. *)
Definition restarts_made (ps : list (Env * BaseAgent.Agent))
    (agent_name : string) (o : Orch) : nat :=
  list_sum (zip_with (fun p agent' => worker_starts agent' - worker_starts (snd p))%nat
                     ps (passes_agents ps agent_name o)).

(** [self._agent_restart_counts.get(agent_name, 0)] *)
Definition restart_count (agent_name : string) (o : Orch) : Z :=
  default 0 (_agent_restart_counts o !! agent_name).

(** The orchestrator as [start] finds it once [initialize] has run. *)
Definition initialized (env : Env) (o : Orch) : Orch :=
  if decide (_state o = STOPPED) then snd (initialize env o) else o.

(** An agent that is not running any more. *)
Definition halted (agent : BaseAgent.Agent) : Prop :=
  BaseAgent._state agent <> BaseAgent.RUNNING
  /\ BaseAgent.run_loop_active agent = false
  /\ BaseAgent.heartbeat_active agent = false.

(** The test of the health check: the agent is in [ERROR], or it is
    [STOPPED] while the orchestrator is [RUNNING]. *)
Definition needs_restart (s : OrchestratorState) (agent : BaseAgent.Agent)
  : bool :=
  bool_decide (BaseAgent._state agent = BaseAgent.ERROR)
  || (bool_decide (BaseAgent._state agent = BaseAgent.STOPPED)
      && bool_decide (s = RUNNING)).

(** The states of the agents, in the order of the dict. *)
Definition agent_states (o : Orch) : list BaseAgent.AgentState :=
  map (fun na => BaseAgent._state (snd na)) (_agents o).

(** Environments in which every hook succeeds, and in which the start
    hook of the classification agent raises. *)
Definition all_well : Env :=
  {| init_failure := None;
     on_start := fun _ => BaseAgent.HookOk;
     on_stop := fun _ => BaseAgent.HookOk |}.

Definition classification_fails : Env :=
  {| init_failure := None;
     on_start := fun name =>
       if bool_decide (name = "classification")
       then BaseAgent.HookRaises "no model" else BaseAgent.HookOk;
     on_stop := fun _ => BaseAgent.HookOk |}.

(** An agent whose start hook has raised: it is in [ERROR]. *)
Definition failed_agent : BaseAgent.Agent :=
  snd (BaseAgent.start (BaseAgent.HookRaises "no model")
         (BaseAgent.__init__ "classification" (retry_of 3 10 300))).

(** A running orchestrator with [max_restart_attempts = 1] whose
    classification agent has exhausted its retries. *)
Definition classification_in_error : Orch :=
  let o := snd (start all_well (__init__ true 1)) in
  with_agents
    (map (fun na =>
            if bool_decide (fst na = "classification")
            then (fst na,
                  snd (BaseAgent.run_iteration BaseAgent.failing_pass (snd na)))
            else na)
         (_agents o)) o.

End Orchestrator.

(* ===================================================================== *)
(** * document_retrieval_agent.py, email_retrieval_agent.py,
      classification_agent.py: the job queue *)
(* ===================================================================== *)

Module RetrievalAgent.

(** A job dict of [_pending_jobs].  [request_id] is what the handler read
    with [event.data.get] ([None] when the event has no such entry);
    [content] stands for the other entries, which the queue does not
    read. *)
Record Job : Type := mkJob {
  request_id : option Z;
  content : string
}.

#[global] Instance Job_eq_dec : EqDecision Job.
Proof. solve_decision. Defined.

(** What a cycle does outside the queue. *)
Inductive Action : Type :=
| ResetStats                                   (* [_reset_stats] *)
| ProcessJob (job : Job)                       (* [_process_..._job(job)] *)
| EmitJobFailed (job : Job) (error : string).  (* [_emit_job_failed] *)

(** The result of awaiting [_process_retrieval_job] (in the classification
    agent, [_process_classification_job]): it returns, raises an
    [Exception], or the task is cancelled meanwhile. *)
Inductive JobResult : Type :=
| Done
| Fails (error : string)
| Cancelled.

(** The part of the three agents that holds the queue. *)
Record Agent : Type := mkAgent {
  _pending_jobs : list Job;
  _active_job : option Job;
  trace : list Action
}.

(** The queue after [__init__]. *)
Definition __init__ : Agent :=
  {| _pending_jobs := []; _active_job := None; trace := [] |}.

Definition with_pending (jobs : list Job) (a : Agent) : Agent :=
  {| _pending_jobs := jobs; _active_job := _active_job a; trace := trace a |}.

Definition with_active (job : option Job) (a : Agent) : Agent :=
  {| _pending_jobs := _pending_jobs a; _active_job := job; trace := trace a |}.

Definition log (x : Action) (a : Agent) : Agent :=
  {| _pending_jobs := _pending_jobs a; _active_job := _active_job a;
     trace := trace a ++ [x] |}.

(** [async def run].  A job dict is never empty, so [not self._active_job]
    tests for [None]. *)
Definition run (process : Job -> JobResult) (a : Agent)
  : BaseAgent.Result * Agent :=
  match _pending_jobs a, _active_job a with
  | [], None => (BaseAgent.Return true, a)
  | _, _ =>
      let a :=
        match _active_job a, _pending_jobs a with
        | None, job :: rest =>
            log ResetStats (with_active (Some job) (with_pending rest a))
        | _, _ => a
        end in
      match _active_job a with
      | Some job =>
          let a := log (ProcessJob job) a in
          match process job with
          | Done => (BaseAgent.Return true, with_active None a)
          | Fails e =>
              let a := log (EmitJobFailed job e) a in
              (BaseAgent.Raise e, with_active None a)
          | Cancelled => (BaseAgent.RaiseCancelled, a)
          end
      | None => (BaseAgent.Return true, a)
      end
  end.

(** [async def _handle_retrieval_started] (in the classification agent,
    [_handle_documents_retrieved] and [_handle_emails_retrieved]): the job
    built from the event is appended. *)
Definition _handle_retrieval_started (job : Job) (a : Agent) : Agent :=
  with_pending (_pending_jobs a ++ [job]) a.

(** [async def _handle_request_cancelled]; [request_id] is
    [event.data.get] of the event.  The active job is only logged. *)
Definition _handle_request_cancelled (request_id' : option Z) (a : Agent)
  : Agent :=
  with_pending
    (List.filter (fun job => negb (bool_decide (request_id job = request_id')))
                 (_pending_jobs a)) a.

(** [async def _on_stop] *)
Definition _on_stop (a : Agent) : Agent :=
  with_active None (with_pending [] a).

(** [def get_pending_job_count] *)
Definition get_pending_job_count (a : Agent) : Z :=
  Z.of_nat (length (_pending_jobs a)).

(** [str.replace(old, new)] for a pattern of one character, on a [str]
    given as the list of its code points. *)
Definition replace (old new : N) (s : list N) : list N :=
  map (fun c => if (c =? old)%N then new else c) s.

(** The nine characters of [invalid_chars]: less-than, greater-than,
    colon, double quote, slash, backslash, vertical bar, question mark and
    asterisk; and the underscore that replaces them. *)
Definition invalid_chars : list N := [60; 62; 58; 34; 47; 92; 124; 63; 42]%N.

Definition underscore : N := 95%N.

(** [def _sanitize_filename] of the two retrieval agents. *)
Definition _sanitize_filename (filename : list N) : list N :=
  let filename :=
    foldl (fun filename char => replace char underscore filename)
          filename invalid_chars in
  Py.slice_to 255 filename.

(** ** Auxiliary definitions for the properties below *)

(** [n] cycles of [run], whatever each returns or raises. *)
Fixpoint cycles (process : Job -> JobResult) (n : nat) (a : Agent) : Agent :=
  match n with
  | O => a
  | S n => cycles process n (snd (run process a))
  end.

(** The jobs handed to the processing coroutine, oldest first. *)
Definition processed (t : list Action) : list Job :=
  omap (fun x => match x with ProcessJob j => Some j | _ => None end) t.

Definition is_invalid (c : N) : bool :=
  existsb (fun i => (c =? i)%N) invalid_chars.

End RetrievalAgent.

(* ===================================================================== *)
(** * request_monitor_agent.py *)
(* ===================================================================== *)

Module RequestMonitorAgent.
Import EventBus.

(** A request dict of [_pending_requests]: [id] is [request.get("id")],
    [sharepoint_sites] the entry of that name ([[]] when missing), and
    [custodians] holds, for every custodian, its [email] entry. *)
Record Request : Type := mkRequest {
  id : option Z;
  sharepoint_sites : list string;
  custodians : list (option string)
}.

(** An event emitted by the agent, with the request it is about. *)
Inductive Action : Type :=
| Emit (ty : EventType) (request_id : option Z).

Record Agent : Type := mkAgent {
  batch_size : Z;
  _processed_request_ids : gset (option Z);
  _pending_requests : list Request;
  total_items_processed : Z;
  trace : list Action
}.

(** [RequestMonitorAgent.__init__] *)
Definition __init__ (batch : Z) : Agent :=
  {| batch_size := batch; _processed_request_ids := ∅;
     _pending_requests := []; total_items_processed := 0; trace := [] |}.

Definition with_processed (ids : gset (option Z)) (a : Agent) : Agent :=
  {| batch_size := batch_size a; _processed_request_ids := ids;
     _pending_requests := _pending_requests a;
     total_items_processed := total_items_processed a; trace := trace a |}.

Definition with_pending (rs : list Request) (a : Agent) : Agent :=
  {| batch_size := batch_size a;
     _processed_request_ids := _processed_request_ids a;
     _pending_requests := rs;
     total_items_processed := total_items_processed a; trace := trace a |}.

Definition with_total (n : Z) (a : Agent) : Agent :=
  {| batch_size := batch_size a;
     _processed_request_ids := _processed_request_ids a;
     _pending_requests := _pending_requests a;
     total_items_processed := n; trace := trace a |}.

Definition log (x : Action) (a : Agent) : Agent :=
  {| batch_size := batch_size a;
     _processed_request_ids := _processed_request_ids a;
     _pending_requests := _pending_requests a;
     total_items_processed := total_items_processed a;
     trace := trace a ++ [x] |}.

(** [async def _on_start] *)
Definition _on_start (a : Agent) : Agent := with_processed ∅ a.

(** [def add_pending_request] *)
Definition add_pending_request (request : Request) (a : Agent) : Agent :=
  with_pending (_pending_requests a ++ [request]) a.

(** [async def _fetch_pending_requests] *)
Definition _fetch_pending_requests (a : Agent) : list Request :=
  _pending_requests a.

(** The test [request_id and request_id not in
    self._processed_request_ids] of the poll. *)
Definition is_new (a : Agent) (request : Request) : bool :=
  match id request with
  | Some i =>
      Py.truthy_int i
      && negb (bool_decide (Some i ∈ _processed_request_ids a))
  | None => false
  end.

(** [async def _poll_for_new_requests] *)
Definition _poll_for_new_requests (a : Agent) : list Request :=
  let pending := _fetch_pending_requests a in
  let new_requests := List.filter (is_new a) pending in
  Py.slice_to (batch_size a) new_requests.

(** [mailboxes_to_search] of [_create_workflow_context]: the truthy
    [email] entries. *)
Definition mailboxes_to_search (request : Request) : list string :=
  omap (fun email =>
          match email with
          | Some e => if Py.truthy_str e then Some e else None
          | None => None
          end) (custodians request).

(** [async def _dispatch_retrieval_tasks] *)
Definition _dispatch_retrieval_tasks (request : Request) (a : Agent) : Agent :=
  let a := match sharepoint_sites request with
           | _ :: _ => log (Emit DOCUMENT_RETRIEVAL_STARTED (id request)) a
           | [] => a
           end in
  match mailboxes_to_search request with
  | _ :: _ => log (Emit EMAIL_RETRIEVAL_STARTED (id request)) a
  | [] => a
  end.

(** [async def _process_new_request].  [_emit_event] raises nothing, so
    the only call that can raise is [_create_workflow_context], on a
    malformed request: [context_error] says whether and with what it does.
    The result is the exception that leaves the function, if any. *)
Definition _process_new_request (context_error : Request -> option string)
    (request : Request) (a : Agent) : option string * Agent :=
  match context_error request with
  | None =>
      let a := log (Emit REQUEST_CREATED (id request)) a in
      let a := _dispatch_retrieval_tasks request a in
      let a := with_processed ({[ id request ]} ∪ _processed_request_ids a) a in
      let a := with_total (total_items_processed a + 1) a in
      (None, a)
  | Some e => (Some e, log (Emit EventBus.ERROR (id request)) a)
  end.

(** The [for request in new_requests] loop of [run]. *)
Fixpoint process_all (context_error : Request -> option string)
    (new_requests : list Request) (a : Agent) : option string * Agent :=
  match new_requests with
  | [] => (None, a)
  | request :: rest =>
      match _process_new_request context_error request a with
      | (None, a) => process_all context_error rest a
      | (Some e, a) => (Some e, a)
      end
  end.

(** [async def run] *)
Definition run (context_error : Request -> option string) (a : Agent)
  : BaseAgent.Result * Agent :=
  let new_requests := _poll_for_new_requests a in
  match new_requests with
  | [] => (BaseAgent.Return true, a)
  | _ :: _ =>
      match process_all context_error new_requests a with
      | (None, a) => (BaseAgent.Return true, a)
      | (Some e, a) => (BaseAgent.Raise e, a)
      end
  end.

(** [async def _handle_request_completed]; [request_id] is
    [event.data.get] of the event. *)
Definition _handle_request_completed (request_id : option Z) (a : Agent)
  : Agent :=
  if bool_decide (request_id ∈ _processed_request_ids a)
  then with_processed (_processed_request_ids a ∖ {[ request_id ]}) a
  else a.

(** ** Auxiliary definitions for the properties below *)

(** The requests for which a workflow has been started. *)
Definition started (t : list Action) : list (option Z) :=
  omap (fun x => match x with
                 | Emit REQUEST_CREATED i => Some i
                 | _ => None
                 end) t.

End RequestMonitorAgent.

(* ===================================================================== *)
(** * Properties of the event bus *)
(* ===================================================================== *)

Module EventBusFacts.
Import EventBus.

(** ** Slices *)

Lemma slice_from_zero {A : Type} (l : list A) : Py.slice_from (- 0) l = l.
Proof.
  unfold Py.slice_from. change (- 0 <? 0) with false. cbv iota.
  replace (Z.min (- 0) (Z.of_nat (length l))) with 0 by lia.
  reflexivity.
Qed.

Lemma slice_from_last {A : Type} (n : Z) (l : list A) :
  0 < n ->
  Py.slice_from (- n) l = drop (length l - Z.to_nat n) l.
Proof.
  intros Hn. unfold Py.slice_from.
  destruct (Z.ltb_spec (- n) 0) as [_|H]; [|lia].
  f_equal. lia.
Qed.

Lemma slice_from_last_length {A : Type} (n : Z) (l : list A) :
  0 < n ->
  length (Py.slice_from (- n) l) = Nat.min (Z.to_nat n) (length l).
Proof.
  intros Hn. rewrite slice_from_last by done. rewrite length_drop. lia.
Qed.

Lemma slice_from_suffix {A : Type} (start : Z) (l : list A) :
  Py.slice_from start l `suffix_of` l.
Proof. apply suffix_drop. Qed.

(** ** The queue *)

Lemma put_full (e : Event) (q : Queue) : full q = true -> put e q = None.
Proof. unfold put. now intros ->. Qed.

Lemma put_nowait_full (e : Event) (q : Queue) :
  full q = true -> put_nowait e q = None.
Proof. unfold put_nowait. now intros ->. Qed.

Lemma put_not_full (e : Event) (q : Queue) :
  full q = false ->
  put e q = Some {| maxsize := maxsize q; items := items q ++ [e] |}.
Proof. unfold put, put_nowait. now intros ->. Qed.

(** ** [publish] and [publish_sync] *)

Section Publish.
Variables (b : Bus) (ty : EventType) (payload : list (string * string))
          (src : string) (corr : option string)
          (meta : option (list (string * string)))
          (fresh_id : string) (now : Z).

Let event : Event :=
  {| event_type := ty; data := payload; source := src;
     event_id := fresh_id; timestamp := now;
     correlation_id := corr; metadata := or_empty meta |}.

(** On a saturated queue the coroutine waits for a free slot. *)
Lemma publish_full :
  full (_event_queue b) = true ->
  publish b ty payload src corr meta fresh_id now = Suspended.
Proof. intros H. unfold publish. now rewrite put_full. Qed.

(** No state of the bus makes [publish] raise. *)
Lemma publish_never_raises (message : string) :
  publish b ty payload src corr meta fresh_id now
  <> RaisesRuntimeError message.
Proof. unfold publish. now destruct (put _ _). Qed.

(** The synchronous variant raises on a saturated queue. *)
Lemma publish_sync_full :
  full (_event_queue b) = true ->
  publish_sync b ty payload src corr meta fresh_id now
  = RaisesRuntimeError "Event queue is full".
Proof. intros H. unfold publish_sync. now rewrite put_nowait_full. Qed.

(** With a free slot the event is returned at once: it is queued, and
    neither the history nor the trace of callbacks has moved. *)
Lemma publish_not_full :
  full (_event_queue b) = false ->
  exists b',
    publish b ty payload src corr meta fresh_id now = Returns event b'
    /\ items (_event_queue b') = items (_event_queue b) ++ [event]
    /\ delivered b' = delivered b
    /\ _event_history b' = _event_history b
    /\ _subscriptions b' = _subscriptions b.
Proof.
  intros H. unfold publish. fold event. rewrite put_not_full by done.
  eexists. split; [reflexivity|]. now cbn.
Qed.
End Publish.

(** C1.  On a bus of the default capacity (10,000) whose queue is
    saturated, [publish] does not fail with a queue-full error: the call
    stays suspended until a slot is free, and no state of the bus makes it
    raise; it is [publish_sync] that raises "Event queue is full" on that
    same bus. *)
Theorem publish_saturated_waits :
  full (_event_queue saturated_bus) = true
  /\ publish saturated_bus AGENT_ERROR [] "request_monitor" None None "f" 1
     = Suspended
  /\ publish_sync saturated_bus AGENT_ERROR [] "request_monitor" None None
                  "f" 1
     = RaisesRuntimeError "Event queue is full".
Proof.
  assert (H : full (_event_queue saturated_bus) = true) by (vm_compute; reflexivity).
  split; [exact H|]. split.
  - now apply publish_full.
  - now apply publish_sync_full.
Qed.

(** ** The history *)

(** The history never holds more than [_max_history_size] events, and
    the event just processed is its last entry. *)
Lemma _process_event_history_bound (e : Event) (b : Bus) :
  0 < _max_history_size b ->
  (length (_event_history (_process_event e b)) <= Z.to_nat (_max_history_size b))%nat
  /\ _event_history (_process_event e b) `suffix_of` (_event_history b ++ [e])
  /\ last (_event_history (_process_event e b)) = Some e.
Proof.
  intros Hpos. cbn [_process_event _event_history].
  destruct (Z.ltb_spec (_max_history_size b)
              (Z.of_nat (length (_event_history b ++ [e])))) as [Hlt|Hge].
  - rewrite slice_from_last by done. split; [|split].
    + rewrite length_drop. lia.
    + apply suffix_drop.
    + rewrite length_app in *. cbn [length] in *.
      rewrite drop_app_le by lia. apply last_snoc.
  - split; [lia|]. split; [done|]. apply last_snoc.
Qed.

Lemma filter_filter {A : Type} (p q : A -> bool) (l : list A) :
  List.filter q (List.filter p l) = List.filter (fun x => p x && q x) l.
Proof.
  induction l as [|x l IH]; [done|]. cbn.
  destruct (p x); cbn; [destruct (q x)|]; now rewrite IH.
Qed.

Lemma filter_true {A : Type} (l : list A) : List.filter (fun _ => true) l = l.
Proof. induction l as [|x l IH]; [done|]. cbn. now rewrite IH. Qed.

Lemma get_event_history_unfold b ty src corr (limit : Z) :
  get_event_history b ty src corr limit
  = Py.slice_from (- limit)
      (List.filter (selected ty src corr) (_event_history b)).
Proof.
  unfold get_event_history, selected, truthy_type. f_equal.
  destruct ty as [t|], src as [s|], corr as [c|];
    try destruct (Py.truthy_str s); try destruct (Py.truthy_str c);
    rewrite ?filter_filter;
    (first [ apply List.filter_ext
           | rewrite <- (filter_true (_event_history b)) at 1;
             apply List.filter_ext ]);
    intros x; cbn; rewrite ?andb_true_r, ?andb_assoc; reflexivity.
Qed.

(** For a positive [limit] the result is the last [limit] events of the
    history that pass the filters. *)
Lemma get_event_history_positive b ty src corr (limit : Z) :
  0 < limit ->
  let matching := List.filter (selected ty src corr) (_event_history b) in
  get_event_history b ty src corr limit
  = drop (length matching - Z.to_nat limit) matching
  /\ (length (get_event_history b ty src corr limit) <= Z.to_nat limit)%nat.
Proof.
  intros Hpos matching. rewrite get_event_history_unfold. fold matching.
  split.
  - now apply slice_from_last.
  - rewrite slice_from_last_length by done. lia.
Qed.

(** C9.  With [limit = 0] the query does not return at most 0 events: on
    a history of three events it returns all three, where [limit = 2]
    returns the two most recent ones. *)
Theorem get_event_history_limit_zero :
  get_event_history bus_with_history None None None 0
  = [ev "a"; ev "b"; ev "c"]
  /\ get_event_history bus_with_history None None None 2
     = [ev "b"; ev "c"].
Proof. split; reflexivity. Qed.

End EventBusFacts.

(* ===================================================================== *)
(** * Properties of the base agent *)
(* ===================================================================== *)

Module BaseAgentFacts.
Import EventBus BaseAgent.

(** ** Traces *)

Lemma invocations_app (t u : list Action) :
  invocations (t ++ u) = invocations t ++ invocations u.
Proof. apply omap_app. Qed.

Lemma sleeps_app (t u : list Action) : sleeps (t ++ u) = sleeps t ++ sleeps u.
Proof. apply omap_app. Qed.

Lemma transitions_app (t u : list Action) :
  transitions (t ++ u) = transitions t ++ transitions u.
Proof. apply omap_app. Qed.

Lemma emitted_app (t u : list Action) :
  emitted (t ++ u) = emitted t ++ emitted u.
Proof. apply omap_app. Qed.

(** [_set_state] appends the transition, and the [AGENT_ERROR] event when
    the new state is [ERROR]; it touches nothing but the state. *)
Lemma _set_state_trace (s : AgentState) (a : Agent) :
  trace (_set_state s a)
  = trace a ++ Transition (_state a) s
             :: match s with ERROR => [Emit AGENT_ERROR] | _ => [] end.
Proof. destruct s; cbn; now rewrite <- ?app_assoc. Qed.

Lemma _set_state_state (s : AgentState) (a : Agent) : _state (_set_state s a) = s.
Proof. now destruct s. Qed.

Lemma _set_state_metrics (s : AgentState) (a : Agent) :
  _metrics (_set_state s a) = _metrics a.
Proof. now destruct s. Qed.

Lemma _set_state_config (s : AgentState) (a : Agent) :
  retry_config (_set_state s a) = retry_config a.
Proof. now destruct s. Qed.

Lemma _set_state_flags (s : AgentState) (a : Agent) :
  run_loop_active (_set_state s a) = run_loop_active a
  /\ heartbeat_active (_set_state s a) = heartbeat_active a
  /\ _shutdown_event (_set_state s a) = _shutdown_event a
  /\ _pause_event (_set_state s a) = _pause_event a.
Proof. now destruct s. Qed.

(** ** The retry procedure on a unit of work that always fails *)

Section AlwaysFailing.
Variables (cfg : RetryConfig) (env : RetryEnv) (err : nat -> string).
Hypothesis fails : forall k, func env k = Raise (err k).
Hypothesis not_cancelled : forall k, sleep_cancelled env k = false.

Lemma retry_loop_all_fail (m k : nat) (delay : float) (last : option string)
    (a : Agent) :
  Z.of_nat (k + m) = max_retries cfg + 1 ->
  (0 < m)%nat ->
  let ra := retry_loop cfg env (seq k m) delay last a in
  fst ra = Raise (err (k + m - 1)%nat)
  /\ _state (snd ra) = ERROR
  /\ invocations (trace (snd ra)) = invocations (trace a) ++ seq k m
  /\ emitted (trace (snd ra)) = emitted (trace a) ++ [AGENT_ERROR]
  /\ length (sleeps (trace (snd ra))) = (length (sleeps (trace a)) + (m - 1))%nat.
Proof.
  revert k delay last a.
  induction m as [|m IH]; intros k delay last a Hk Hm; [lia|].
  cbn [seq retry_loop]. rewrite fails.
  destruct (Z.ltb_spec (Z.of_nat k) (max_retries cfg)) as [Hlt|Hge].
  - rewrite not_cancelled.
    edestruct (IH (S k)) as (E1 & E2 & E3 & E4 & E5); [lia|lia|].
    rewrite E1, E2, E3, E4, E5. clear E1 E2 E3 E4 E5.
    replace (S k + m - 1)%nat with (k + S m - 1)%nat by lia.
    split; [done|]. split; [done|].
    destruct (0 <? k)%nat; cbn [trace log with_metrics];
      rewrite ?_set_state_trace; cbn;
      rewrite ?invocations_app, ?emitted_app, ?sleeps_app, ?length_app; cbn;
      rewrite <- ?app_assoc, ?app_nil_r; cbn; (split; [done|split; [done|lia]]).
  - assert (m = 0)%nat as -> by lia. cbn [seq retry_loop raise_last fst snd].
    replace (k + 1 - 1)%nat with k by lia.
    split; [done|]. rewrite _set_state_state. split; [done|].
    rewrite _set_state_trace.
    destruct (0 <? k)%nat; cbn [trace log with_metrics];
      rewrite ?_set_state_trace; cbn;
      rewrite ?invocations_app, ?emitted_app, ?sleeps_app, ?length_app; cbn;
      rewrite <- ?app_assoc, ?app_nil_r; cbn; (split; [done|split; [done|lia]]).
Qed.
End AlwaysFailing.


(** ** The delays of the retry procedure *)

(** Whatever the unit of work does, the sleeps of one execution are the
    waits computed after its failed attempts, in order. *)
Lemma retry_loop_sleeps (cfg : RetryConfig) (env : RetryEnv) (m k : nat)
    (last : option string) (a : Agent) :
  m = 0%nat \/ Z.of_nat (k + m) <= max_retries cfg + 1 ->
  exists j : nat,
    (j <= m)%nat
    /\ sleeps (trace (snd (retry_loop cfg env (seq k m) (delay_at cfg env k)
                                      last a)))
       = sleeps (trace a) ++ map (wait_at cfg env) (seq k j).
Proof.
  revert k last a.
  induction m as [|m IH]; intros k last a Hk.
  - exists 0%nat. cbn. now rewrite app_nil_r.
  - destruct Hk as [Hk|Hk]; [lia|]. cbn [seq retry_loop].
    set (a1 := log (Invoke k) (if (0 <? k)%nat then _set_state RECOVERING a else a)).
    assert (Ha1 : sleeps (trace a1) = sleeps (trace a)).
    { subst a1. destruct (0 <? k)%nat; cbn [trace log];
        rewrite ?_set_state_trace, ?sleeps_app; cbn; now rewrite ?app_nil_r. }
    clearbody a1.
    destruct (func env k) as [result|e|].
    + exists 0%nat. split; [lia|]. cbn [snd seq map]. rewrite app_nil_r.
      destruct (0 <? k)%nat; [|done].
      rewrite _set_state_trace, sleeps_app, Ha1. cbn. now rewrite app_nil_r.
    + destruct (Z.ltb_spec (Z.of_nat k) (max_retries cfg)) as [Hlt|Hge].
      * fold (jittered cfg env k (delay_at cfg env k)).
        fold (wait_at cfg env k).
        destruct (sleep_cancelled env k).
        -- exists 1%nat. split; [lia|]. cbn [snd trace log with_metrics seq map].
           now rewrite sleeps_app, Ha1.
        -- change (jittered cfg env k (delay_at cfg env k)
                   * exponential_base cfg)%float
             with (delay_at cfg env (S k)).
           edestruct (IH (S k)) as (j & Hj & E); [lia|].
           exists (S j). split; [lia|]. rewrite E. cbn [trace log with_metrics].
           rewrite sleeps_app, Ha1. cbn [seq map]. now rewrite <- app_assoc.
      * assert (m = 0)%nat as -> by lia. exists 0%nat. split; [lia|].
        cbn [seq retry_loop snd map]. rewrite _set_state_trace, sleeps_app.
        cbn [trace with_metrics]. rewrite Ha1. cbn. now rewrite !app_nil_r.
    + exists 0%nat. split; [lia|]. cbn [snd seq map]. now rewrite app_nil_r.
Qed.



(** ** The order of the floats *)

Lemma SFcompare_irrefl (x : spec_float) : SFcompare x x <> Some Lt.
Proof.
  destruct x as [s|s| |s m e]; cbn [SFcompare]; try discriminate.
  - now destruct s.
  - rewrite Z.compare_refl.
    assert (PosDef.Pos.compare_cont Eq m m = Eq) as ->
      by apply Pos.compare_cont_refl.
    now destruct s.
Qed.

Lemma ltb_irrefl (x : float) : (x <? x)%float = false.
Proof.
  rewrite ltb_spec. unfold SFltb.
  pose proof (SFcompare_irrefl (Prim2SF x)).
  destruct (SFcompare (Prim2SF x) (Prim2SF x)) as [[| |]|]; congruence.
Qed.

(** [min(a, b)] is never above [b]. *)
Lemma min_float_not_above (a b : float) :
  (b <? Py.min_float a b)%float = false.
Proof.
  unfold Py.min_float. destruct (b <? a)%float eqn:E; [|exact E].
  apply ltb_irrefl.
Qed.


(** The sleeps of one call are the waits after its first failed attempts. *)
Lemma slept_waits (env : RetryEnv) (a : Agent) :
  exists j : nat,
    slept env a = map (wait_at (retry_config a) env) (seq 0 j).
Proof.
  unfold slept, _execute_with_retry, Py.range.
  destruct (retry_loop_sleeps (retry_config a) env
              (Z.to_nat (max_retries (retry_config a) + 1)) 0 None a)
    as (j & _ & E).
  { lia. }
  exists j. cbn [delay_at] in E. rewrite E. now rewrite drop_app_length.
Qed.



Lemma attempted_all_fail (env : RetryEnv) (a : Agent) (n : nat) (err : nat -> string) :
  max_retries (retry_config a) = Z.of_nat n ->
  (forall k, func env k = Raise (err k)) ->
  (forall k, sleep_cancelled env k = false) ->
  attempted env a = seq 0 (n + 1).
Proof.
  intros Hn Hf Hc. unfold attempted, _execute_with_retry, Py.range.
  edestruct (retry_loop_all_fail (retry_config a) env err Hf Hc
               (Z.to_nat (max_retries (retry_config a) + 1)) 0)
    as (_ & _ & E & _); [lia|lia|].
  rewrite E, drop_app_length. f_equal. lia.
Qed.

(** A negative [max_retries] is not a number of retries: [range] is then
    empty, the unit of work is never called, the agent is left as it is and
    [raise last_exception] raises a [TypeError]. *)
Lemma _execute_with_retry_negative (env : RetryEnv) (a : Agent) :
  max_retries (retry_config a) < 0 ->
  _execute_with_retry env a
  = (Raise "exceptions must derive from BaseException", a).
Proof.
  intros H. unfold _execute_with_retry, Py.range.
  now replace (Z.to_nat (max_retries (retry_config a) + 1)) with 0%nat by lia.
Qed.

(** C2.  With [max_retries = n], a unit of work that fails on every
    attempt (the task not being cancelled while it waits) is attempted
    exactly [n + 1] times, attempts 0 to n; the call then leaves the agent
    in state [ERROR], has published one [AGENT_ERROR] event, and raises the
    failure of the last attempt. *)
Theorem retry_exhaustion (a : Agent) (env : RetryEnv) (n : nat)
    (err : nat -> string) :
  max_retries (retry_config a) = Z.of_nat n ->
  (forall k, func env k = Raise (err k)) ->
  (forall k, sleep_cancelled env k = false) ->
  attempted env a = seq 0 (n + 1)
  /\ length (attempted env a) = (n + 1)%nat
  /\ _state (snd (_execute_with_retry env a)) = ERROR
  /\ emitted (trace (snd (_execute_with_retry env a)))
     = emitted (trace a) ++ [AGENT_ERROR]
  /\ fst (_execute_with_retry env a) = Raise (err n).
Proof.
  intros Hn Hf Hc.
  pose proof (attempted_all_fail env a n err Hn Hf Hc) as Ha.
  split; [exact Ha|]. split; [now rewrite Ha, length_seq|].
  unfold _execute_with_retry, Py.range.
  edestruct (retry_loop_all_fail (retry_config a) env err Hf Hc
               (Z.to_nat (max_retries (retry_config a) + 1)) 0)
    as (E1 & E2 & _ & E4 & _); [lia|lia|].
  split; [exact E2|]. split; [exact E4|].
  rewrite E1. f_equal. f_equal. lia.
Qed.

Lemma retry_exhaustion_witness :
  let a := __init__ "request_monitor" (Orchestrator.retry_of 5 2 300) in
  let env := always_failing (fun _ => "boom") in
  attempted env a = seq 0 (5 + 1)
  /\ length (attempted env a) = (5 + 1)%nat
  /\ _state (snd (_execute_with_retry env a)) = ERROR
  /\ emitted (trace (snd (_execute_with_retry env a)))
     = emitted (trace a) ++ [AGENT_ERROR]
  /\ fst (_execute_with_retry env a) = Raise "boom".
Proof.
  intros a env.
  apply (retry_exhaustion a env 5 (fun _ => "boom")); reflexivity.
Defined.

(** C3 fails as stated.  With jitter disabled, [initial_delay = 0.1] and
    [exponential_base = 3.0], the delay slept after the third failure is
    the running product [0.1 * 3.0 * 3.0 = 0.9000000000000001], which is
    above [min(max_delay, initial_delay * exponential_base ^ 2)
    = 0.1 * 9.0 = 0.9]. *)
Lemma backoff_product_is_rounded :
  let cfg := {| max_retries := 3; initial_delay := 0.1; max_delay := 300;
                exponential_base := 3; jitter := false |} in
  let a := __init__ "request_monitor" cfg in
  let env := always_failing (fun _ => "boom") in
  exists d : float,
    slept env a !! 2%nat = Some d
    /\ d = 0.9000000000000001%float
    /\ spec_backoff cfg 2 = 0.9%float
    /\ (spec_backoff cfg 2 <? d)%float = true
    /\ d <> spec_backoff cfg 2.
Proof.
  intros cfg a env. eexists. split; [vm_compute; reflexivity|].
  split; [reflexivity|]. split; [reflexivity|]. split; [reflexivity|].
  intros H. apply (f_equal (fun x => (x =? 0.9)%float)) in H.
  vm_compute in H. discriminate.
Qed.



(** ** Jitter *)




(** ** Attempts that fail, then one that ends the call *)

Section FailsThenEnds.
Variables (cfg : RetryConfig) (env : RetryEnv) (err : nat -> string).

(** The loop while every attempt fails: from attempt [k] on, the [m]
    attempts before attempt [k + m] raise and their sleeps complete. *)
Lemma retry_loop_prefix (m k : nat) (rest : list nat) (delay : float)
    (last : option string) (a : Agent) :
  Z.of_nat (k + m) <= max_retries cfg ->
  (forall j, (k <= j < k + m)%nat -> func env j = Raise (err j)) ->
  (forall j, (k <= j < k + m)%nat -> sleep_cancelled env j = false) ->
  exists (delay' : float) (last' : option string) (a' : Agent),
    retry_loop cfg env (seq k m ++ rest) delay last a
    = retry_loop cfg env rest delay' last' a'
    /\ invocations (trace a') = invocations (trace a) ++ seq k m
    /\ length (sleeps (trace a')) = (length (sleeps (trace a)) + m)%nat
    /\ emitted (trace a') = emitted (trace a)
    /\ (m = 0%nat -> a' = a)
    /\ ((0 < m)%nat ->
        _state a' = (if (k + m - 1 =? 0)%nat then _state a else RECOVERING)
        /\ current_retry_count (_metrics a') = Z.of_nat (k + m))
    /\ total_runs (_metrics a') = total_runs (_metrics a)
    /\ successful_runs (_metrics a') = successful_runs (_metrics a)
    /\ failed_runs (_metrics a') = failed_runs (_metrics a)
    /\ run_loop_active a' = run_loop_active a.
Proof.
  revert k delay last a.
  induction m as [|m IH]; intros k delay last a Hk Hf Hc.
  - exists delay, last, a. cbn [seq app]. rewrite !app_nil_r.
    repeat split; try done; lia.
  - cbn [seq app retry_loop]. rewrite Hf, Hc by lia.
    destruct (Z.ltb_spec (Z.of_nat k) (max_retries cfg)); [|lia].
    match goal with
    | |- context [retry_loop cfg env (seq (S k) m ++ rest) ?d ?l ?x] =>
        set (a1 := x); set (d1 := d)
    end.
    assert (F : invocations (trace a1) = invocations (trace a) ++ [k]
                /\ length (sleeps (trace a1)) = S (length (sleeps (trace a)))
                /\ emitted (trace a1) = emitted (trace a)
                /\ _state a1 = (if (k =? 0)%nat then _state a else RECOVERING)
                /\ current_retry_count (_metrics a1) = Z.of_nat k + 1
                /\ total_runs (_metrics a1) = total_runs (_metrics a)
                /\ successful_runs (_metrics a1) = successful_runs (_metrics a)
                /\ failed_runs (_metrics a1) = failed_runs (_metrics a)
                /\ run_loop_active a1 = run_loop_active a).
    { subst a1. destruct k as [|k];
        cbn [Nat.ltb Nat.leb Nat.eqb trace log with_metrics _state _metrics
             current_retry_count set_current_retry_count total_runs
             successful_runs failed_runs run_loop_active];
        rewrite ?_set_state_trace, ?_set_state_state, ?_set_state_metrics,
          ?(proj1 (_set_state_flags _ _));
        rewrite ?invocations_app, ?sleeps_app, ?emitted_app, ?length_app;
        cbn; rewrite ?app_nil_r; repeat split; try done; lia. }
    clearbody a1 d1.
    destruct F as (F1 & F2 & F3 & F4 & F5 & F6 & F7 & F8 & F9).
    destruct (IH (S k) d1 (Some (err k)) a1)
      as (d' & l' & a' & E & Hi & Hs & Hm & Hz & Hr & C1 & C2 & C3 & C4).
    { lia. } { intros j Hj. apply Hf. lia. } { intros j Hj. apply Hc. lia. }
    exists d', l', a'. split; [exact E|].
    split; [rewrite Hi, F1, <- app_assoc; done|].
    split; [lia|]. split; [congruence|]. split; [lia|].
    split; [|repeat split; congruence].
    intros _. destruct m as [|m].
    + rewrite (Hz eq_refl). replace (k + 1 - 1 =? 0)%nat with (k =? 0)%nat
        by (f_equal; lia).
      split; [done|lia].
    + destruct Hr as [R1 R2]; [lia|]. rewrite R1, R2.
      replace (S k + S m - 1 =? 0)%nat with false
        by (symmetry; apply Nat.eqb_neq; lia).
      replace (k + S (S m) - 1 =? 0)%nat with false
        by (symmetry; apply Nat.eqb_neq; lia).
      split; [done|lia].
Qed.

End FailsThenEnds.

(** One call of the retry procedure whose first [k] attempts fail: it
    reaches attempt [k]. *)
Lemma _execute_with_retry_reaches (env : RetryEnv) (a : Agent) (k : nat)
    (err : nat -> string) :
  Z.of_nat k <= max_retries (retry_config a) ->
  (forall j, (j < k)%nat -> func env j = Raise (err j)) ->
  (forall j, (j < k)%nat -> sleep_cancelled env j = false) ->
  exists (rest : list nat) (delay' : float) (last' : option string) (a' : Agent),
    _execute_with_retry env a
    = retry_loop (retry_config a) env (k :: rest) delay' last' a'
    /\ invocations (trace a') = invocations (trace a) ++ seq 0 k
    /\ length (sleeps (trace a')) = (length (sleeps (trace a)) + k)%nat
    /\ emitted (trace a') = emitted (trace a)
    /\ (k = 0%nat -> a' = a)
    /\ ((0 < k)%nat ->
        current_retry_count (_metrics a') = Z.of_nat k)
    /\ total_runs (_metrics a') = total_runs (_metrics a)
    /\ successful_runs (_metrics a') = successful_runs (_metrics a)
    /\ failed_runs (_metrics a') = failed_runs (_metrics a)
    /\ run_loop_active a' = run_loop_active a.
Proof.
  intros Hk Hf Hc. unfold _execute_with_retry, Py.range.
  set (n := Z.to_nat (max_retries (retry_config a) + 1)).
  assert (Hn : seq 0 n = seq 0 k ++ k :: seq (S k) (n - k - 1)).
  { replace n with (k + S (n - k - 1))%nat at 1 by lia.
    now rewrite seq_app. }
  rewrite Hn.
  destruct (retry_loop_prefix (retry_config a) env err k 0
              (k :: seq (S k) (n - k - 1))
              (initial_delay (retry_config a)) None a)
    as (d' & l' & a' & E & Hi & Hs & Hm & Hz & Hr & C1 & C2 & C3 & C4).
  { cbn. lia. } { intros j Hj. apply Hf. lia. } { intros j Hj. apply Hc. lia. }
  exists (seq (S k) (n - k - 1)), d', l', a'.
  split; [exact E|]. repeat split; try done.
  intros Hpos. now apply Hr.
Qed.

(** A call whose unit of work returns after [k] failed attempts returns
    that value. *)
Lemma _execute_with_retry_returns (env : RetryEnv) (a : Agent) (k : nat)
    (r : bool) (err : nat -> string) :
  Z.of_nat k <= max_retries (retry_config a) ->
  (forall j, (j < k)%nat -> func env j = Raise (err j)) ->
  (forall j, (j < k)%nat -> sleep_cancelled env j = false) ->
  func env k = Return r ->
  fst (_execute_with_retry env a) = Return r.
Proof.
  intros Hk Hf Hc Hr.
  destruct (_execute_with_retry_reaches env a k err Hk Hf Hc)
    as (rest & d' & l' & a1 & E & _).
  rewrite E. cbn [retry_loop]. now rewrite Hr.
Qed.

(** A call whose unit of work raises on every attempt raises the last
    exception. *)
Lemma _execute_with_retry_raises (env : RetryEnv) (a : Agent) (n : nat)
    (err : nat -> string) :
  max_retries (retry_config a) = Z.of_nat n ->
  (forall k, func env k = Raise (err k)) ->
  (forall k, sleep_cancelled env k = false) ->
  fst (_execute_with_retry env a) = Raise (err n).
Proof.
  intros Hn Hf Hc. unfold _execute_with_retry, Py.range.
  edestruct (retry_loop_all_fail (retry_config a) env err Hf Hc
               (Z.to_nat (max_retries (retry_config a) + 1)) 0)
    as (E1 & _); [lia|lia|].
  rewrite E1. f_equal. f_equal. lia.
Qed.

(** ** The counters of the run loop *)

(** The retry procedure leaves the run counters alone. *)
Lemma retry_loop_counters (cfg : RetryConfig) (env : RetryEnv)
    (attempts : list nat) (delay : float) (last : option string) (a : Agent) :
  let m := _metrics a in
  let m' := _metrics (snd (retry_loop cfg env attempts delay last a)) in
  total_runs m' = total_runs m
  /\ successful_runs m' = successful_runs m
  /\ failed_runs m' = failed_runs m.
Proof.
  revert delay last a.
  induction attempts as [|k rest IH]; intros delay last a; [done|].
  cbn [retry_loop].
  set (a1 := log (Invoke k) (if (0 <? k)%nat then _set_state RECOVERING a else a)).
  assert (Ha1 : _metrics a1 = _metrics a).
  { subst a1. destruct (0 <? k)%nat; cbn; now rewrite ?_set_state_metrics. }
  clearbody a1. rewrite <- Ha1. clear Ha1.
  destruct (func env k) as [r|e|]; cbn [snd].
  - destruct (0 <? k)%nat; now rewrite ?_set_state_metrics.
  - destruct (Z.of_nat k <? max_retries cfg).
    + destruct (sleep_cancelled env k); [done|].
      edestruct IH as (E1 & E2 & E3). rewrite E1, E2, E3. done.
    + edestruct IH as (E1 & E2 & E3). rewrite E1, E2, E3.
      now rewrite _set_state_metrics.
  - done.
Qed.

Lemma _execute_with_retry_counters (env : RetryEnv) (a : Agent) :
  let m := _metrics a in
  let m' := _metrics (snd (_execute_with_retry env a)) in
  total_runs m' = total_runs m
  /\ successful_runs m' = successful_runs m
  /\ failed_runs m' = failed_runs m.
Proof. apply retry_loop_counters. Qed.

Lemma _add_error_counters (ty msg : string) (a : Agent) :
  let m := _metrics a in
  let m' := _metrics (_add_error ty msg a) in
  total_runs m' = total_runs m
  /\ successful_runs m' = successful_runs m
  /\ failed_runs m' = failed_runs m.
Proof. unfold _add_error. cbn. done. Qed.

(** A completed pass: what it does to the three counters. *)
Lemma run_iteration_counters (env : IterEnv) (a a' : Agent) :
  run_iteration env a = (GoOn, a') ->
  let m := _metrics a in
  let m' := _metrics a' in
  total_runs m' = total_runs m + 1
  /\ match fst (_execute_with_retry (work env) (count_run a)) with
     | Return true =>
         successful_runs m' = successful_runs m + 1
         /\ failed_runs m' = failed_runs m
     | Return false | Raise _ =>
         successful_runs m' = successful_runs m
         /\ failed_runs m' = failed_runs m + 1
     | RaiseCancelled => False
     end.
Proof.
  unfold run_iteration.
  destruct (_shutdown_event a); [discriminate|].
  destruct (_pause_event a); [|discriminate]. cbn [negb].
  pose proof (_execute_with_retry_counters (work env) (count_run a))
    as (E1 & E2 & E3).
  destruct (_execute_with_retry (work env) (count_run a)) as [r a1].
  cbn [fst snd] in *. cbn [count_run _metrics with_metrics set_total_runs
                           total_runs successful_runs failed_runs] in *.
  unfold wait_then_go_on.
  destruct r as [[|]|e|]; destruct (interval_cancelled env);
    try discriminate; intros [= <-]; cbn; lia.
Qed.

(** What a pass that is neither shut down nor paused does to the three
    counters, by the result of the retry procedure. *)
Lemma run_iteration_counts (env : IterEnv) (a : Agent) :
  _shutdown_event a = false ->
  _pause_event a = true ->
  let m := _metrics a in
  let m' := _metrics (snd (run_iteration env a)) in
  total_runs m' = total_runs m + 1
  /\ match fst (_execute_with_retry (work env) (count_run a)) with
     | Return true =>
         successful_runs m' = successful_runs m + 1
         /\ failed_runs m' = failed_runs m
     | Return false | Raise _ =>
         successful_runs m' = successful_runs m
         /\ failed_runs m' = failed_runs m + 1
     | RaiseCancelled =>
         successful_runs m' = successful_runs m
         /\ failed_runs m' = failed_runs m
     end.
Proof.
  intros Hsh Hp. unfold run_iteration. rewrite Hsh, Hp. cbn [negb].
  pose proof (_execute_with_retry_counters (work env) (count_run a))
    as (E1 & E2 & E3).
  destruct (_execute_with_retry (work env) (count_run a)) as [r a1].
  cbn [fst snd] in *. cbn [count_run _metrics with_metrics set_total_runs
                           total_runs successful_runs failed_runs] in *.
  unfold wait_then_go_on.
  destruct r as [[|]|e|]; try destruct (interval_cancelled env); cbn; lia.
Qed.

(** C10.  A pass of the run loop (no shutdown, no pause) adds one to
    [total_runs]; if the unit of work returns, at the first attempt or
    after failed attempts that were retried, the pass adds one to
    [successful_runs] when the value returned is true and one to
    [failed_runs] when it is false; if the unit of work raises on every
    attempt the pass adds one to [failed_runs]; in each case the other
    counter is unchanged.  A pass that completes (the task is not cancelled)
    therefore adds one to exactly one of the two, and a run loop whose
    passes all complete adds the number of its passes to [total_runs] and
    preserves [successful_runs + failed_runs = total_runs]. *)
Theorem run_loop_counters :
  (forall (env : IterEnv) (a : Agent) (k : nat) (r : bool)
          (err : nat -> string),
      _shutdown_event a = false ->
      _pause_event a = true ->
      Z.of_nat k <= max_retries (retry_config a) ->
      (forall j, (j < k)%nat -> func (work env) j = Raise (err j)) ->
      (forall j, (j < k)%nat -> sleep_cancelled (work env) j = false) ->
      func (work env) k = Return r ->
      let a' := snd (run_iteration env a) in
      total_runs (_metrics a') = total_runs (_metrics a) + 1
      /\ successful_runs (_metrics a')
         = successful_runs (_metrics a) + (if r then 1 else 0)
      /\ failed_runs (_metrics a')
         = failed_runs (_metrics a) + (if r then 0 else 1))
  /\
  (forall (env : IterEnv) (a : Agent) (n : nat) (err : nat -> string),
      _shutdown_event a = false ->
      _pause_event a = true ->
      max_retries (retry_config a) = Z.of_nat n ->
      (forall k, func (work env) k = Raise (err k)) ->
      (forall k, sleep_cancelled (work env) k = false) ->
      let a' := snd (run_iteration env a) in
      total_runs (_metrics a') = total_runs (_metrics a) + 1
      /\ successful_runs (_metrics a') = successful_runs (_metrics a)
      /\ failed_runs (_metrics a') = failed_runs (_metrics a) + 1)
  /\
  (forall (env : IterEnv) (a a' : Agent),
      run_iteration env a = (GoOn, a') ->
      total_runs (_metrics a') = total_runs (_metrics a) + 1
      /\ match fst (_execute_with_retry (work env) (count_run a)) with
         | Return true =>
             successful_runs (_metrics a') = successful_runs (_metrics a) + 1
             /\ failed_runs (_metrics a') = failed_runs (_metrics a)
         | Return false | Raise _ =>
             successful_runs (_metrics a') = successful_runs (_metrics a)
             /\ failed_runs (_metrics a') = failed_runs (_metrics a) + 1
         | RaiseCancelled => False
         end)
  /\
  (forall (envs : list IterEnv) (a a' : Agent),
      _run_loop envs a = (GoOn, a') ->
      total_runs (_metrics a')
      = total_runs (_metrics a) + Z.of_nat (length envs)
      /\ (runs_balanced (_metrics a) -> runs_balanced (_metrics a'))).
Proof.
  split; [|split; [|split; [exact run_iteration_counters|]]].
  - intros env a k r err Hsh Hp Hk Hf Hc Hr a'. subst a'.
    destruct (run_iteration_counts env a Hsh Hp) as [T C].
    rewrite (_execute_with_retry_returns (work env) (count_run a) k r err)
      in C by done.
    split; [exact T|]. destruct r; lia.
  - intros env a n err Hsh Hp Hn Hf Hc a'. subst a'.
    destruct (run_iteration_counts env a Hsh Hp) as [T C].
    rewrite (_execute_with_retry_raises (work env) (count_run a) n err)
      in C by done.
    split; [exact T|]. lia.
  - induction envs as [|env envs IH]; intros a a' H.
    + cbn in H. injection H as <-. split; [cbn; lia|done].
    + cbn [_run_loop] in H.
      destruct (run_iteration env a) as [[| |] a1] eqn:E; try discriminate.
      apply run_iteration_counters in E as [E1 E2].
      apply IH in H as [H1 H2]. split.
      * rewrite H1, E1. cbn [length]. lia.
      * intros Hb. apply H2. unfold runs_balanced in *.
        destruct (fst (_execute_with_retry (work env) (count_run a)))
          as [[|]|e|]; lia.
Qed.

Lemma run_loop_counters_witness :
  let a := snd (start HookOk (__init__ "request_monitor" one_retry)) in
  let a1 := snd (run_iteration recovering_pass a) in
  let a2 := snd (run_iteration failing_pass a1) in
  (total_runs (_metrics a1) = total_runs (_metrics a) + 1
   /\ successful_runs (_metrics a1) = successful_runs (_metrics a) + 1
   /\ failed_runs (_metrics a1) = failed_runs (_metrics a) + 0)
  /\ (total_runs (_metrics a2) = total_runs (_metrics a1) + 1
      /\ successful_runs (_metrics a2) = successful_runs (_metrics a1)
      /\ failed_runs (_metrics a2) = failed_runs (_metrics a1) + 1)
  /\ total_runs (_metrics a2) = total_runs (_metrics a) + 2
  /\ (runs_balanced (_metrics a) -> runs_balanced (_metrics a2)).
Proof.
  intros a a1 a2.
  destruct run_loop_counters as (P1 & P2 & _ & P4).
  split.
  { apply (P1 recovering_pass a 1%nat true (fun _ => "boom")).
    - reflexivity.
    - reflexivity.
    - vm_compute. discriminate.
    - intros j Hj. assert (j = 0%nat) as -> by lia. reflexivity.
    - reflexivity.
    - reflexivity. }
  split.
  { apply (P2 failing_pass a1 1%nat (fun _ => "boom")).
    - vm_compute. reflexivity.
    - vm_compute. reflexivity.
    - reflexivity.
    - reflexivity.
    - reflexivity. }
  assert (E : _run_loop [recovering_pass; failing_pass] a = (GoOn, a2))
    by (vm_compute; reflexivity).
  exact (P4 [recovering_pass; failing_pass] a a2 E).
Defined.

(** ** The transitions of an agent *)







Lemma startable_spec (s : AgentState) :
  bool_decide (s ∈ [IDLE; STOPPED; ERROR])
  = match s with IDLE | STOPPED | ERROR => true | _ => false end.
Proof. destruct s; vm_compute; reflexivity. Qed.












(** The calls of the unit of work only grow, and a non-empty list of
    attempts starts with a call for its first element. *)
Lemma retry_loop_invocations (cfg : RetryConfig) (env : RetryEnv)
    (attempts : list nat) (delay : float) (last : option string) (a : Agent) :
  exists l : list nat,
    invocations (trace (snd (retry_loop cfg env attempts delay last a)))
    = invocations (trace a) ++ l
    /\ match attempts with
       | [] => l = []
       | k :: _ => exists rest, l = k :: rest
       end.
Proof.
  revert delay last a.
  induction attempts as [|k rest IH]; intros delay last a.
  - exists []. cbn. now rewrite app_nil_r.
  - cbn [retry_loop].
    set (a1 := log (Invoke k) (if (0 <? k)%nat then _set_state RECOVERING a else a)).
    assert (H1 : invocations (trace a1) = invocations (trace a) ++ [k]).
    { subst a1. destruct (0 <? k)%nat; cbn [trace log];
        rewrite ?_set_state_trace, !invocations_app; cbn;
        now rewrite ?app_nil_r. }
    clearbody a1.
    destruct (func env k) as [r|e|]; cbn [snd].
    + exists [k]. split; [|now exists []].
      destruct (0 <? k)%nat; [|done].
      rewrite _set_state_trace, invocations_app, H1. cbn. now rewrite app_nil_r.
    + destruct (Z.of_nat k <? max_retries cfg).
      * destruct (sleep_cancelled env k); cbn [snd].
        -- exists [k]. split; [|now exists []]. cbn [trace log with_metrics].
           rewrite invocations_app, H1. cbn. now rewrite app_nil_r.
        -- match goal with
           | |- context [retry_loop cfg env rest ?d ?l ?x] =>
               destruct (IH d l x) as (l' & E & _)
           end.
           exists (k :: l'). split; [|now exists l'].
           rewrite E. cbn [trace log with_metrics].
           rewrite invocations_app, H1. cbn.
           now rewrite app_nil_r, <- app_assoc.
      * destruct (IH delay (Some e) (_set_state ERROR (with_metrics
                    (set_current_retry_count (Z.of_nat k + 1) (_metrics a1)) a1)))
          as (l' & E & _).
        exists (k :: l'). split; [|now exists l'].
        rewrite E, _set_state_trace, invocations_app.
        cbn [trace with_metrics]. rewrite H1. cbn.
        now rewrite app_nil_r, <- app_assoc.
    + exists [k]. split; [done|now exists []].
Qed.

(** A pass of the loop that is neither shut down nor paused calls the unit
    of work, whatever the state of the agent. *)
Lemma run_iteration_invokes (env : IterEnv) (a : Agent) :
  _shutdown_event a = false ->
  _pause_event a = true ->
  0 <= max_retries (retry_config a) ->
  exists rest : list nat,
    invocations (trace (snd (run_iteration env a)))
    = invocations (trace a) ++ 0%nat :: rest.
Proof.
  intros Hsh Hp Hn. unfold run_iteration. rewrite Hsh, Hp. cbn [negb].
  destruct (retry_loop_invocations (retry_config (count_run a)) (work env)
              (Py.range (max_retries (retry_config (count_run a)) + 1))
              (initial_delay (retry_config (count_run a))) None (count_run a))
    as (l & E & Hl).
  fold (_execute_with_retry (work env) (count_run a)) in E.
  assert (exists rest, l = 0%nat :: rest) as [rest ->].
  { unfold Py.range in Hl. cbn [count_run retry_config with_metrics] in Hl.
    destruct (Z.to_nat (max_retries (retry_config a) + 1)) eqn:En; [lia|].
    exact Hl. }
  exists rest. change (trace (count_run a)) with (trace a) in E.
  destruct (_execute_with_retry (work env) (count_run a)) as [r a1].
  cbn [snd] in E. rewrite <- E.
  unfold wait_then_go_on.
  destruct r as [[|]|e|]; try destruct (interval_cancelled env); cbn;
    rewrite ?invocations_app; cbn; now rewrite ?app_nil_r.
Qed.






End BaseAgentFacts.

(* ===================================================================== *)
(** * Properties of the orchestrator *)
(* ===================================================================== *)

Module OrchestratorFacts.
Import EventBus Orchestrator.

(** ** The restart procedure *)

Lemma restart_attempts_app (name : string) (t u : list Action) :
  restart_attempts name (t ++ u)
  = (restart_attempts name t + restart_attempts name u)%nat.
Proof. unfold restart_attempts. now rewrite List.filter_app, length_app. Qed.

Lemma published_app (t u : list Action) :
  published (t ++ u) = published t ++ published u.
Proof. apply omap_app. Qed.

(** With auto-restart disabled the procedure returns at once. *)
Lemma _handle_agent_failure_disabled (env : Env) (name : string)
    (agent : BaseAgent.Agent) (o : Orch) :
  auto_restart_agents o = false ->
  _handle_agent_failure env name agent o = (agent, o).
Proof. unfold _handle_agent_failure. now intros ->. Qed.

(** Once the count has reached the bound the procedure only publishes. *)
Lemma _handle_agent_failure_exhausted (env : Env) (name : string)
    (agent : BaseAgent.Agent) (o : Orch) :
  auto_restart_agents o = true ->
  max_restart_attempts o <= restart_count name o ->
  _handle_agent_failure env name agent o
  = (agent, log [Publish EventBus.ERROR "orchestrator"] o).
Proof.
  unfold _handle_agent_failure, restart_count. intros -> H. cbn [negb].
  destruct (Z.leb_spec (max_restart_attempts o)
              (default 0 (_agent_restart_counts o !! name))); [done|lia].
Qed.

(** Below the bound the agent is stopped and started once, and the count
    grows by one whatever [start] returns. *)
Lemma _handle_agent_failure_restarts (env : Env) (name : string)
    (agent : BaseAgent.Agent) (o : Orch) :
  auto_restart_agents o = true ->
  restart_count name o < max_restart_attempts o ->
  let o' := snd (_handle_agent_failure env name agent o) in
  restart_count name o' = restart_count name o + 1
  /\ restart_attempts name (trace o')
     = (restart_attempts name (trace o) + 1)%nat
  /\ published (trace o') = published (trace o)
  /\ auto_restart_agents o' = auto_restart_agents o
  /\ max_restart_attempts o' = max_restart_attempts o.
Proof.
  unfold _handle_agent_failure, restart_count. intros Ha H. rewrite Ha.
  cbn [negb].
  destruct (Z.leb_spec (max_restart_attempts o)
              (default 0 (_agent_restart_counts o !! name))); [lia|].
  destruct (BaseAgent.stop (on_stop env name) agent) as [stopped a1].
  destruct (BaseAgent.start (on_start env name) a1) as [success a2].
  destruct success; cbn [snd _agent_restart_counts with_restart_counts trace
                         log auto_restart_agents max_restart_attempts];
    rewrite lookup_insert_eq; cbn [default];
    rewrite !restart_attempts_app, !published_app; cbn;
    rewrite bool_decide_eq_true_2 by done; cbn;
    rewrite ?app_nil_r; repeat split; try done; lia.
Qed.

Lemma failure_passes_exhausted (ps : list (Env * BaseAgent.Agent))
    (name : string) (o : Orch) :
  auto_restart_agents o = true ->
  max_restart_attempts o <= restart_count name o ->
  let o' := failure_passes ps name o in
  restart_attempts name (trace o') = restart_attempts name (trace o)
  /\ restart_count name o' = restart_count name o
  /\ published (trace o')
     = published (trace o)
       ++ replicate (length ps) (EventBus.ERROR, "orchestrator").
Proof.
  revert o. induction ps as [|[env agent] ps IH]; intros o Ha Hc.
  - cbn. now rewrite app_nil_r.
  - cbn [failure_passes length replicate].
    rewrite _handle_agent_failure_exhausted by done. cbn [snd].
    destruct (IH (log [Publish EventBus.ERROR "orchestrator"] o))
      as (E1 & E2 & E3); [done|done|].
    rewrite E1, E2, E3. cbn [trace log].
    rewrite restart_attempts_app, published_app. cbn.
    split; [lia|]. split; [done|]. now rewrite <- app_assoc.
Qed.

(** What a restart does to the worker: [stop], then [start], which is
    accepted because [stop] leaves the agent in [STOPPED] or [ERROR]. *)
Lemma stop_then_start_worker (h h' : BaseAgent.HookResult)
    (agent : BaseAgent.Agent) :
  let agent' := snd (BaseAgent.start h' (snd (BaseAgent.stop h agent))) in
  worker_starts agent' = (worker_starts agent + 1)%nat
  /\ BaseAgent._state agent'
     = match h' with
       | BaseAgent.HookOk => BaseAgent.RUNNING
       | BaseAgent.HookRaises _ => BaseAgent.ERROR
       end
  /\ fst (BaseAgent.start h' (snd (BaseAgent.stop h agent)))
     = match h' with
       | BaseAgent.HookOk => true
       | BaseAgent.HookRaises _ => false
       end.
Proof.
  unfold BaseAgent.start, BaseAgent.stop, worker_starts.
  destruct agent as [nm cfg s m ra ha sh pa tr].
  destruct s, h, h';
    cbn [BaseAgent._state];
    repeat (destruct (decide _) as [D|D];
            [try discriminate D|try (exfalso; apply D; reflexivity)]);
    cbn [snd fst BaseAgent._state BaseAgent._set_state BaseAgent.log
         BaseAgent.with_state BaseAgent.with_signals BaseAgent.with_tasks
         BaseAgent._emit_event BaseAgent.with_metrics BaseAgent._add_error
         BaseAgent.trace];
    rewrite BaseAgentFacts.startable_spec;
    cbn [snd fst BaseAgent._state BaseAgent._set_state BaseAgent.log
         BaseAgent.with_state BaseAgent.with_signals BaseAgent.with_tasks
         BaseAgent._emit_event BaseAgent.with_metrics BaseAgent._add_error
         BaseAgent.trace];
    rewrite ?BaseAgentFacts.transitions_app;
    rewrite ?List.filter_app, ?length_app; cbn;
    (split; [lia|split; reflexivity]).
Qed.

Lemma _handle_agent_failure_worker (env : Env) (name : string)
    (agent : BaseAgent.Agent) (o : Orch) :
  auto_restart_agents o = true ->
  restart_count name o < max_restart_attempts o ->
  let stopped := BaseAgent.stop (on_stop env name) agent in
  let started := BaseAgent.start (on_start env name) (snd stopped) in
  fst (_handle_agent_failure env name agent o) = snd started
  /\ trace (snd (_handle_agent_failure env name agent o))
     = trace o ++ [StopAgent name (fst stopped); Cooldown;
                   StartAgent name (fst started)].
Proof.
  unfold _handle_agent_failure, restart_count. intros Ha H. rewrite Ha.
  cbn [negb].
  destruct (Z.leb_spec (max_restart_attempts o)
              (default 0 (_agent_restart_counts o !! name))); [lia|].
  destruct (BaseAgent.stop (on_stop env name) agent) as [stopped a1].
  cbn [fst snd].
  destruct (BaseAgent.start (on_start env name) a1) as [success a2].
  destruct success; cbn [fst snd trace with_restart_counts log];
    now rewrite <- app_assoc.
Qed.

Lemma passes_agents_exhausted (ps : list (Env * BaseAgent.Agent))
    (name : string) (o : Orch) :
  auto_restart_agents o = true ->
  max_restart_attempts o <= restart_count name o ->
  passes_agents ps name o = map snd ps.
Proof.
  revert o. induction ps as [|[env agent] ps IH]; intros o Ha Hc; [done|].
  cbn [passes_agents map snd].
  rewrite _handle_agent_failure_exhausted by done. cbn [fst snd].
  f_equal. now apply IH.
Qed.

Lemma restarts_made_exhausted (ps : list (Env * BaseAgent.Agent))
    (name : string) (o : Orch) :
  auto_restart_agents o = true ->
  max_restart_attempts o <= restart_count name o ->
  restarts_made ps name o = 0%nat.
Proof.
  intros Ha Hc. unfold restarts_made.
  rewrite passes_agents_exhausted by done.
  induction ps as [|[env agent] ps IH]; [done|].
  simpl in *. lia.
Qed.

(** C7.  With auto-restart enabled: a pass of the restart procedure that
    finds the restart count below [max_restart_attempts] calls [stop] and
    then [start] on the worker, once each (the worker it returns is the one
    these two calls leave, [RUNNING] if the start hook returned and [ERROR]
    if it raised, with one accepted [start] more), records both calls with
    their results, and adds one to the count whatever the outcome; a pass
    that finds the count at the bound leaves the worker and the count alone
    and publishes a system [ERROR] event, and so does every later pass; and
    with [max_restart_attempts = 1] and a count of 0 any non-empty sequence
    of passes restarts the worker exactly once, in its first pass. *)
Theorem restart_bound :
  (forall (env : Env) (name : string) (agent : BaseAgent.Agent) (o : Orch),
      auto_restart_agents o = true ->
      restart_count name o < max_restart_attempts o ->
      let o' := snd (_handle_agent_failure env name agent o) in
      let agent' := fst (_handle_agent_failure env name agent o) in
      let stopped := BaseAgent.stop (on_stop env name) agent in
      let started := BaseAgent.start (on_start env name) (snd stopped) in
      restart_count name o' = restart_count name o + 1
      /\ restart_attempts name (trace o')
         = (restart_attempts name (trace o) + 1)%nat
      /\ agent' = snd started
      /\ worker_starts agent' = (worker_starts agent + 1)%nat
      /\ BaseAgent._state agent'
         = match on_start env name with
           | BaseAgent.HookOk => BaseAgent.RUNNING
           | BaseAgent.HookRaises _ => BaseAgent.ERROR
           end
      /\ trace o'
         = trace o ++ [StopAgent name (fst stopped); Cooldown;
                       StartAgent name (fst started)])
  /\
  (forall (env : Env) (name : string) (agent : BaseAgent.Agent) (o : Orch),
      auto_restart_agents o = true ->
      max_restart_attempts o <= restart_count name o ->
      _handle_agent_failure env name agent o
      = (agent, log [Publish EventBus.ERROR "orchestrator"] o))
  /\
  (forall (ps : list (Env * BaseAgent.Agent)) (name : string) (o : Orch),
      auto_restart_agents o = true ->
      max_restart_attempts o <= restart_count name o ->
      let o' := failure_passes ps name o in
      restart_attempts name (trace o') = restart_attempts name (trace o)
      /\ passes_agents ps name o = map snd ps
      /\ restarts_made ps name o = 0%nat
      /\ published (trace o')
         = published (trace o)
           ++ replicate (length ps) (EventBus.ERROR, "orchestrator"))
  /\
  (forall (env : Env) (agent : BaseAgent.Agent)
          (ps : list (Env * BaseAgent.Agent)) (name : string) (o : Orch),
      auto_restart_agents o = true ->
      max_restart_attempts o = 1 ->
      restart_count name o = 0 ->
      let o' := failure_passes ((env, agent) :: ps) name o in
      restart_attempts name (trace o')
      = (restart_attempts name (trace o) + 1)%nat
      /\ passes_agents ((env, agent) :: ps) name o
         = snd (BaseAgent.start (on_start env name)
                  (snd (BaseAgent.stop (on_stop env name) agent)))
           :: map snd ps
      /\ restarts_made ((env, agent) :: ps) name o = 1%nat
      /\ published (trace o')
         = published (trace o)
           ++ replicate (length ps) (EventBus.ERROR, "orchestrator")).
Proof.
  split; [|split; [|split]].
  - intros env name agent o Ha Hc.
    destruct (_handle_agent_failure_restarts env name agent o Ha Hc)
      as (E1 & E2 & _).
    destruct (_handle_agent_failure_worker env name agent o Ha Hc)
      as (W1 & W2).
    destruct (stop_then_start_worker (on_stop env name) (on_start env name)
                agent) as (S1 & S2 & _).
    cbn zeta. rewrite W1. now repeat split.
  - exact _handle_agent_failure_exhausted.
  - intros ps name o Ha Hc.
    destruct (failure_passes_exhausted ps name o Ha Hc) as (E1 & _ & E3).
    split; [exact E1|].
    split; [now apply passes_agents_exhausted|].
    split; [now apply restarts_made_exhausted|exact E3].
  - intros env agent ps name o Ha Hm Hc.
    cbn [failure_passes length].
    destruct (_handle_agent_failure_restarts env name agent o Ha)
      as (E1 & E2 & E3 & E4 & E5); [lia|].
    destruct (_handle_agent_failure_worker env name agent o Ha) as (W1 & _);
      [lia|].
    destruct (stop_then_start_worker (on_stop env name) (on_start env name)
                agent) as (S1 & _).
    assert (Hx : max_restart_attempts
                   (snd (_handle_agent_failure env name agent o))
                 <= restart_count name
                      (snd (_handle_agent_failure env name agent o)))
      by (rewrite E5, E1; lia).
    destruct (failure_passes_exhausted ps name
                (snd (_handle_agent_failure env name agent o)))
      as (F1 & _ & F3); [now rewrite E4|exact Hx|].
    rewrite F1, F3, E2, E3. split; [done|].
    assert (P : passes_agents ((env, agent) :: ps) name o
                = snd (BaseAgent.start (on_start env name)
                         (snd (BaseAgent.stop (on_stop env name) agent)))
                  :: map snd ps).
    { cbn [passes_agents]. rewrite W1. f_equal.
      apply passes_agents_exhausted; [now rewrite E4|exact Hx]. }
    split; [exact P|]. split; [|done].
    assert (R : restarts_made ps name
                  (snd (_handle_agent_failure env name agent o)) = 0%nat)
      by (apply restarts_made_exhausted; [now rewrite E4|exact Hx]).
    unfold restarts_made in R |- *.
    rewrite passes_agents_exhausted in R by (try exact Hx; now rewrite E4).
    rewrite P. simpl in *. lia.
Qed.

Lemma restart_bound_witness :
  let o := snd (start all_well (__init__ true 1)) in
  let name := "classification" in
  let ps := [(classification_fails, failed_agent); (all_well, failed_agent)] in
  (restart_count name (snd (_handle_agent_failure classification_fails name
                                                  failed_agent o))
   = restart_count name o + 1
   /\ worker_starts (fst (_handle_agent_failure classification_fails name
                                                failed_agent o))
      = (worker_starts failed_agent + 1)%nat)
  /\ (restart_attempts name
        (trace (failure_passes ((all_well, failed_agent) :: ps) name o))
      = (restart_attempts name (trace o) + 1)%nat
      /\ restarts_made ((all_well, failed_agent) :: ps) name o = 1%nat
      /\ published
           (trace (failure_passes ((all_well, failed_agent) :: ps) name o))
         = published (trace o)
           ++ replicate (length ps) (EventBus.ERROR, "orchestrator")).
Proof.
  intros o name ps.
  assert (H1 : auto_restart_agents o = true) by (vm_compute; reflexivity).
  assert (H2 : restart_count name o < max_restart_attempts o)
    by (vm_compute; reflexivity).
  assert (H3 : max_restart_attempts o = 1) by (vm_compute; reflexivity).
  assert (H4 : restart_count name o = 0) by (vm_compute; reflexivity).
  split.
  - destruct (proj1 restart_bound classification_fails name failed_agent o
                H1 H2) as (R1 & _ & _ & R2 & _).
    exact (conj R1 R2).
  - destruct (proj2 (proj2 (proj2 restart_bound)) all_well failed_agent ps
                name o H1 H3 H4) as (R1 & _ & R2 & R3).
    exact (conj R1 (conj R2 R3)).
Defined.

(** Three health checks of an orchestrator with [max_restart_attempts = 1]
    whose classification agent is in [ERROR] and fails every restart: the
    first check makes the one restart attempt, the two that follow publish
    a system [ERROR] event each. *)
Example health_checks_restart_once :
  let o := classification_in_error in
  let o' := health_check classification_fails
              (health_check classification_fails
                 (health_check classification_fails o)) in
  _state o = RUNNING
  /\ restart_attempts "classification" (trace o')
     = (restart_attempts "classification" (trace o) + 1)%nat
  /\ restart_count "classification" o' = 1
  /\ published (trace o')
     = [(EventBus.ERROR, "orchestrator"); (EventBus.ERROR, "orchestrator")].
Proof. vm_compute. repeat split. Qed.

(** C8 fails as stated.  With auto-restart disabled the restart procedure,
    called for an agent in [ERROR], returns the agent and the orchestrator
    as they were: nothing has been published, in particular no system
    [ERROR] event. *)
Lemma disabled_restart_publishes_nothing :
  let o := snd (start all_well (__init__ false 3)) in
  BaseAgent._state failed_agent = BaseAgent.ERROR
  /\ auto_restart_agents o = false
  /\ published (trace (snd (_handle_agent_failure all_well "classification"
                                                  failed_agent o))) = [].
Proof. vm_compute. repeat split. Qed.

(** C8, amended.  With auto-restart disabled the restart procedure stops
    and starts nothing, publishes nothing and leaves the restart count as it
    is: the agent and the orchestrator are returned unchanged (only a
    warning is logged). *)
Theorem restart_disabled (env : Env) (name : string)
    (agent : BaseAgent.Agent) (o : Orch) :
  auto_restart_agents o = false ->
  let r := _handle_agent_failure env name agent o in
  r = (agent, o)
  /\ restart_attempts name (trace (snd r)) = restart_attempts name (trace o)
  /\ published (trace (snd r)) = published (trace o)
  /\ restart_count name (snd r) = restart_count name o.
Proof.
  intros Ha r. subst r. now rewrite _handle_agent_failure_disabled.
Qed.

Lemma restart_disabled_witness :
  let o := snd (start all_well (__init__ false 3)) in
  let r := _handle_agent_failure classification_fails "classification"
                                 failed_agent o in
  r = (failed_agent, o)
  /\ restart_attempts "classification" (trace (snd r))
     = restart_attempts "classification" (trace o)
  /\ published (trace (snd r)) = published (trace o)
  /\ restart_count "classification" (snd r)
     = restart_count "classification" o.
Proof.
  intros o.
  apply (restart_disabled classification_fails "classification" failed_agent o).
  vm_compute; reflexivity.
Defined.

(** ** Starting together, and rolling back *)

(** [start] never leaves an agent in [STOPPED]. *)
Lemma agent_start_not_stopped (h : BaseAgent.HookResult) (a : BaseAgent.Agent) :
  BaseAgent._state (snd (BaseAgent.start h a)) <> BaseAgent.STOPPED.
Proof.
  unfold BaseAgent.start. rewrite BaseAgentFacts.startable_spec.
  destruct a as [nm cfg s m ra ha sh pa tr]. cbn [BaseAgent._state].
  destruct s, h; cbn; discriminate.
Qed.

(** [stop] on an agent that is not [STOPPED] ends both tasks and leaves it
    in [STOPPED], or in [ERROR] when the shutdown hook raises. *)
Lemma agent_stop_halts (h : BaseAgent.HookResult) (a : BaseAgent.Agent) :
  BaseAgent._state a <> BaseAgent.STOPPED ->
  let a' := snd (BaseAgent.stop h a) in
  halted a'
  /\ BaseAgent._shutdown_event a' = true
  /\ BaseAgent._state a'
     = match h with
       | BaseAgent.HookOk => BaseAgent.STOPPED
       | BaseAgent.HookRaises _ => BaseAgent.ERROR
       end.
Proof.
  intros Hs. unfold BaseAgent.stop, halted.
  destruct (decide (BaseAgent._state a = BaseAgent.STOPPED)); [done|].
  destruct h; cbn; repeat split; discriminate.
Qed.

Lemma agents_of_names (rs : list (string * (bool * BaseAgent.Agent))) :
  map fst (agents_of rs) = map fst rs.
Proof. unfold agents_of. rewrite map_map. now apply map_ext. Qed.

Lemma start_all_names (env : Env) (ags : list (string * BaseAgent.Agent)) :
  map fst (agents_of (start_all env ags)) = map fst ags.
Proof.
  rewrite agents_of_names. unfold start_all. rewrite map_map.
  apply map_ext. now intros [name agent].
Qed.

Lemma stop_all_names (env : Env) (ags : list (string * BaseAgent.Agent)) :
  map fst (agents_of (stop_all env ags)) = map fst ags.
Proof.
  rewrite agents_of_names. unfold stop_all. rewrite map_map.
  apply map_ext. now intros [name agent].
Qed.

(** One failed start makes [all_started] false. *)
Lemma all_started_false (env : Env) (ags : list (string * BaseAgent.Agent)) :
  (exists name agent,
      In (name, agent) ags
      /\ fst (BaseAgent.start (on_start env name) agent) = false) ->
  forallb (fun r => r) (results_of (start_all env ags)) = false.
Proof.
  intros (name & agent & Hin & Hf).
  induction ags as [|[n a] ags IH]; [done|].
  change (forallb (fun r => r) (results_of (start_all env ((n, a) :: ags))))
    with (fst (BaseAgent.start (on_start env n) a)
          && forallb (fun r => r) (results_of (start_all env ags))).
  destruct Hin as [[= -> ->]|Hin].
  - now rewrite Hf.
  - rewrite IH by done. apply andb_false_r.
Qed.

(** The agents after [start_all] and [stop_all]: every one has gone
    through [stop]. *)
Lemma rolled_back (env : Env) (ags : list (string * BaseAgent.Agent)) :
  Forall (fun na =>
            halted (snd na)
            /\ BaseAgent._state (snd na)
               = match on_stop env (fst na) with
                 | BaseAgent.HookOk => BaseAgent.STOPPED
                 | BaseAgent.HookRaises _ => BaseAgent.ERROR
                 end)
         (agents_of (stop_all env (agents_of (start_all env ags)))).
Proof.
  induction ags as [|[n a] ags IH]; [constructor|].
  change (agents_of (stop_all env (agents_of (start_all env ((n, a) :: ags)))))
    with ((n, snd (BaseAgent.stop (on_stop env n)
                     (snd (BaseAgent.start (on_start env n) a))))
          :: agents_of (stop_all env (agents_of (start_all env ags)))).
  constructor; [|exact IH]. cbn [fst snd].
  destruct (agent_stop_halts (on_stop env n)
              (snd (BaseAgent.start (on_start env n) a))) as (H1 & _ & H2).
  { apply agent_start_not_stopped. }
  now split.
Qed.

(** C6.  When [start] is called on an orchestrator that is not already
    running, initialisation (if it is needed) succeeds, and the start of at
    least one agent fails, then [start] returns failure, the orchestrator is
    [STOPPED], [stop] has been called on every agent, no agent is running
    (state other than [RUNNING], run loop and heartbeat ended), and every
    agent whose shutdown hook does not raise is in [STOPPED] (the others
    are in [ERROR]). *)
Theorem start_rolls_back (env : Env) (o : Orch) :
  _state o <> RUNNING ->
  (_state o = STOPPED -> init_failure env = None) ->
  (exists name agent,
      In (name, agent) (_agents (initialized env o))
      /\ fst (BaseAgent.start (on_start env name) agent) = false) ->
  let o' := snd (start env o) in
  fst (start env o) = false
  /\ _state o' = STOPPED
  /\ map fst (_agents o') = map fst (_agents (initialized env o))
  /\ Forall (fun na =>
               halted (snd na)
               /\ BaseAgent._state (snd na)
                  = match on_stop env (fst na) with
                    | BaseAgent.HookOk => BaseAgent.STOPPED
                    | BaseAgent.HookRaises _ => BaseAgent.ERROR
                    end)
            (_agents o')
  /\ forall name, In name (map fst (_agents o')) ->
       exists result, In (StopAgent name result) (trace o').
Proof.
  intros Hr Hi Hfail. unfold initialized in Hfail |- *. unfold start.
  destruct (decide (_state o = RUNNING)); [done|].
  assert (exists o1, (if decide (_state o = STOPPED)
                      then initialize env o else (true, o)) = (true, o1)
                     /\ (if decide (_state o = STOPPED)
                         then snd (initialize env o) else o) = o1
                     /\ _state o1 <> STOPPED) as (o1 & E1 & E2 & E3).
  { destruct (decide (_state o = STOPPED)) as [Hs|Hs].
    - unfold initialize. destruct (decide (_state o = STOPPED)); [|done].
      rewrite (Hi Hs). eexists. split; [reflexivity|]. split; [reflexivity|].
      cbn. discriminate.
    - exists o. now repeat split. }
  rewrite E1, E2 in *. cbn [negb].
  cbn [_agents with_health_check log with_agents].
  rewrite (all_started_false env (_agents o1) Hfail).
  unfold stop.
  cbn [_state with_health_check log with_agents _agents].
  destruct (decide (_state o1 = STOPPED)); [done|].
  cbn [fst snd _state _agents trace with_state with_health_check log
       with_agents with_bus].
  split; [done|]. split; [done|].
  split; [now rewrite stop_all_names, start_all_names|].
  split; [apply rolled_back|].
  intros name Hin. rewrite stop_all_names in Hin.
  apply in_map_iff in Hin as ([nm ag] & <- & Hin). cbn [fst].
  exists (fst (BaseAgent.stop (on_stop env nm) ag)).
  apply in_or_app. right. apply in_map_iff.
  exists (nm, BaseAgent.stop (on_stop env nm) ag). split; [done|].
  unfold stop_all. apply in_map_iff. now exists (nm, ag).
Qed.

Lemma start_rolls_back_witness :
  let env := classification_fails in
  let o := __init__ true 3 in
  let o' := snd (start env o) in
  fst (start env o) = false
  /\ _state o' = STOPPED
  /\ map fst (_agents o') = map fst (_agents (initialized env o))
  /\ Forall (fun na =>
               halted (snd na)
               /\ BaseAgent._state (snd na)
                  = match on_stop env (fst na) with
                    | BaseAgent.HookOk => BaseAgent.STOPPED
                    | BaseAgent.HookRaises _ => BaseAgent.ERROR
                    end)
            (_agents o')
  /\ forall name, In name (map fst (_agents o')) ->
       exists result, In (StopAgent name result) (trace o').
Proof.
  intros env o.
  apply (start_rolls_back env o).
  - discriminate.
  - reflexivity.
  - exists "classification",
      (BaseAgent.__init__ "classification" (retry_of 3 10 300)).
    split; [|reflexivity].
    right. right. right. left. reflexivity.
Defined.

End OrchestratorFacts.

(* ===================================================================== *)
(** * Further properties of the event bus *)
(* ===================================================================== *)

Module EventBusExtra.
Import EventBus EventBusFacts.

(** ** Subscriptions *)

Lemma dict_set_ids (s : Subscription) (l : list Subscription) :
  map subscriber_id (dict_set s l)
  = if existsb (fun x => bool_decide (subscriber_id x = subscriber_id s)) l
    then map subscriber_id l
    else map subscriber_id l ++ [subscriber_id s].
Proof.
  induction l as [|x l IH]; [done|]. cbn [dict_set existsb map].
  destruct (decide (subscriber_id x = subscriber_id s)) as [E|N].
  - rewrite bool_decide_eq_true_2 by done. cbn. now rewrite E.
  - rewrite bool_decide_eq_false_2 by done. cbn. rewrite IH.
    now destruct (existsb _ l).
Qed.

Lemma existsb_id_In (id : string) (l : list Subscription) :
  existsb (fun x => bool_decide (subscriber_id x = id)) l = true
  <-> In id (map subscriber_id l).
Proof.
  rewrite existsb_exists, in_map_iff. split.
  - intros (x & Hin & E). apply bool_decide_eq_true in E. now exists x.
  - intros (x & E & Hin). exists x. split; [done|].
    now apply bool_decide_eq_true.
Qed.

Lemma dict_set_In (s x : Subscription) (l : list Subscription) :
  List.NoDup (map subscriber_id l) ->
  In x (dict_set s l)
  <-> x = s \/ (In x l /\ subscriber_id x <> subscriber_id s).
Proof.
  induction l as [|y l IH]; intros Hnd.
  - cbn. split; [intros [->|[]]; now left|intros [->|[[] _]]; now left].
  - cbn [dict_set]. inversion Hnd as [|? ? Hy Hnd']; subst.
    destruct (decide (subscriber_id y = subscriber_id s)) as [E|N].
    + cbn [In]. split.
      * intros [->|Hin]; [now left|]. right. split; [now right|].
        intros E'. apply Hy. rewrite E, <- E'. now apply in_map.
      * intros [->|[[->|Hin] Hne]]; [now left|done|now right].
    + cbn [In]. rewrite (IH Hnd'). split.
      * intros [->|[->|[Hin Hne]]]; [right; split; [now left|done]|now left|].
        right. split; [now right|done].
      * intros [->|[[->|Hin] Hne]]; [right; now left|now left|].
        right. right. now split.
Qed.

(** X1.  [subscribe] returns the subscriber id and keeps one subscription
    per id: when the ids of the bus are distinct they stay distinct, the
    new subscription is registered, a previous subscription with the same
    id is gone, every other subscription is kept, and the number of
    subscribers grows by one exactly when the id was not subscribed.  The
    queue, the history and the deliveries made so far are untouched. *)
Theorem subscribe_replaces (s : Subscription) (b : Bus) :
  List.NoDup (subscribers b) ->
  let b' := snd (subscribe s b) in
  fst (subscribe s b) = subscriber_id s
  /\ List.NoDup (subscribers b')
  /\ (forall x, In x (_subscriptions b')
                <-> x = s \/ (In x (_subscriptions b)
                              /\ subscriber_id x <> subscriber_id s))
  /\ (In (subscriber_id s) (subscribers b) ->
      get_subscriber_count b' = get_subscriber_count b)
  /\ (~ In (subscriber_id s) (subscribers b) ->
      get_subscriber_count b' = get_subscriber_count b + 1)
  /\ _event_queue b' = _event_queue b
  /\ _event_history b' = _event_history b
  /\ delivered b' = delivered b.
Proof.
  intros Hnd. unfold subscribe, subscribers, get_subscriber_count in *.
  cbn [fst snd _subscriptions with_subscriptions _event_queue _event_history
       delivered].
  split; [done|].
  pose proof (dict_set_ids s (_subscriptions b)) as Hids.
  pose proof (existsb_id_In (subscriber_id s) (_subscriptions b)) as Hex.
  split; [|split; [|split; [|split; [|done]]]].
  - rewrite Hids. destruct (existsb _ _) eqn:E; [done|].
    apply List.NoDup_app; [done|repeat constructor; cbn; tauto|].
    intros id Hin [<-|[]]. apply Hex in Hin. congruence.
  - intros x. now apply dict_set_In.
  - intros Hin. apply Hex in Hin.
    rewrite <- (length_map subscriber_id (dict_set _ _)), Hids, Hin.
    now rewrite length_map.
  - intros Hin.
    rewrite <- (length_map subscriber_id (dict_set _ _)), Hids.
    destruct (existsb _ _) eqn:E; [exfalso; now apply Hin, Hex|].
    rewrite length_app, length_map. cbn. lia.
Qed.

Lemma subscribe_replaces_witness :
  let s := {| subscriber_id := "orchestrator_agent_monitor";
              event_types := [AGENT_HEARTBEAT]; is_async := true;
              filter_func := None |} in
  let s' := {| subscriber_id := "orchestrator_agent_monitor";
               event_types := [AGENT_ERROR]; is_async := true;
               filter_func := None |} in
  let b := snd (subscribe s (__init__ default_max_queue_size)) in
  _subscriptions (snd (subscribe s' b)) = [s']
  /\ get_subscriber_count (snd (subscribe s' b)) = get_subscriber_count b.
Proof.
  intros s s' b.
  destruct (subscribe_replaces s' b) as (_ & _ & _ & Hc & _).
  { repeat constructor. cbn. tauto. }
  split; [reflexivity|]. apply Hc. now left.
Defined.

(** What [unsubscribe] does. *)
Lemma unsubscribe_facts (id : string) (b : Bus) :
  let r := unsubscribe id b in
  (fst r = true <-> In id (subscribers b))
  /\ ~ In id (subscribers (snd r))
  /\ _subscriptions (snd r)
     = List.filter (fun x => negb (bool_decide (subscriber_id x = id)))
                   (_subscriptions b)
  /\ (fst r = false -> snd r = b)
  /\ _event_queue (snd r) = _event_queue b
  /\ _event_history (snd r) = _event_history b
  /\ delivered (snd r) = delivered b.
Proof.
  unfold unsubscribe, subscribers.
  pose proof (existsb_id_In id (_subscriptions b)) as Hex.
  assert (Hf : forall l : list Subscription,
             ~ In id (map subscriber_id
                        (List.filter
                           (fun x => negb (bool_decide (subscriber_id x = id))) l))).
  { intros l Hin. apply in_map_iff in Hin as (x & E & Hin).
    apply filter_In in Hin as [_ Hn]. apply negb_true_iff in Hn.
    now apply bool_decide_eq_false in Hn. }
  destruct (existsb _ _) eqn:E; cbn [fst snd _subscriptions with_subscriptions
                                     _event_queue _event_history delivered].
  - split; [tauto|]. split; [apply Hf|]. now repeat split.
  - assert (Hn : ~ In id (map subscriber_id (_subscriptions b))).
    { intros Hin. apply Hex in Hin. congruence. }
    split; [split; [discriminate|tauto]|]. split; [done|].
    split; [|done].
    symmetry. apply forallb_filter_id. apply forallb_forall. intros x Hin.
    apply negb_true_iff, bool_decide_eq_false. intros <-.
    apply Hn. now apply in_map.
Qed.

(** X2.  [unsubscribe] returns [True] exactly when the id was subscribed;
    afterwards no subscription carries that id and every other one is kept
    in place; for an id that was not subscribed the bus is unchanged. *)
Theorem unsubscribe_removes (id : string) (b : Bus) :
  let r := unsubscribe id b in
  (fst r = true <-> In id (subscribers b))
  /\ ~ In id (subscribers (snd r))
  /\ _subscriptions (snd r)
     = List.filter (fun x => negb (bool_decide (subscriber_id x = id)))
                   (_subscriptions b)
  /\ (fst r = false -> snd r = b)
  /\ _event_queue (snd r) = _event_queue b
  /\ _event_history (snd r) = _event_history b
  /\ delivered (snd r) = delivered b.
Proof. apply unsubscribe_facts. Qed.

Lemma process_all_snoc (events : list Event) (e : Event) (b : Bus) :
  process_all (events ++ [e]) b = _process_event e (process_all events b).
Proof. unfold process_all. now rewrite foldl_app. Qed.

Lemma process_all_subscriptions (events : list Event) (b : Bus) :
  _subscriptions (process_all events b) = _subscriptions b.
Proof.
  revert b. induction events as [|e es IH]; intros b; [done|].
  change (process_all (e :: es) b) with (process_all es (_process_event e b)).
  now rewrite IH.
Qed.

Lemma deliveries_to_process (id : string) (e : Event) (b : Bus) :
  deliveries_to id (_process_event e b)
  = deliveries_to id b
    ++ map (fun _ => event_id e)
           (List.filter (fun s => bool_decide (subscriber_id s = id))
                        (List.filter (matches e) (_subscriptions b))).
Proof.
  unfold deliveries_to. cbn [_process_event delivered].
  rewrite List.filter_app, map_app. f_equal.
  induction (List.filter (matches e) (_subscriptions b)) as [|s l IH]; [done|].
  cbn. destruct (bool_decide (subscriber_id s = id)); cbn; now rewrite IH.
Qed.

Lemma filter_none {A : Type} (p : A -> bool) (l : list A) :
  (forall x, In x l -> p x = false) -> List.filter p l = [].
Proof.
  induction l as [|x l IH]; intros H; [done|]. cbn.
  rewrite (H x) by now left. apply IH. intros y Hy. apply H. now right.
Qed.

(** X3.  Once a subscriber has been removed, no event processed
    afterwards is delivered to it, however many follow. *)
Theorem no_delivery_after_unsubscribe (id : string) (b : Bus)
    (events : list Event) :
  deliveries_to id (process_all events (snd (unsubscribe id b)))
  = deliveries_to id b.
Proof.
  destruct (unsubscribe_facts id b) as (_ & Hn & _ & _ & _ & _ & Hd).
  set (b0 := snd (unsubscribe id b)) in *.
  assert (E0 : deliveries_to id b0 = deliveries_to id b).
  { unfold deliveries_to. now rewrite Hd. }
  rewrite <- E0. clear E0 Hd.
  induction events as [|e es IH] using rev_ind; [done|].
  rewrite process_all_snoc, deliveries_to_process, IH.
  rewrite process_all_subscriptions.
  rewrite (filter_none (fun s => bool_decide (subscriber_id s = id)));
    [now rewrite app_nil_r|].
  intros s Hs. apply filter_In in Hs as [Hs _].
  apply bool_decide_eq_false. intros <-. apply Hn.
  unfold subscribers. now apply in_map.
Qed.

Lemma filter_comm {A : Type} (p q : A -> bool) (l : list A) :
  List.filter p (List.filter q l) = List.filter q (List.filter p l).
Proof.
  rewrite !filter_filter. apply List.filter_ext. intros x. apply andb_comm.
Qed.

Lemma filter_unique_id (s : Subscription) (l : list Subscription) :
  List.NoDup (map subscriber_id l) ->
  In s l ->
  List.filter (fun x => bool_decide (subscriber_id x = subscriber_id s)) l = [s].
Proof.
  induction l as [|x l IH]; intros Hnd Hin; [done|].
  inversion Hnd as [|? ? Hx Hnd']; subst. cbn [List.filter].
  destruct Hin as [->|Hin].
  - rewrite bool_decide_eq_true_2 by done. f_equal.
    apply filter_none. intros y Hy. apply bool_decide_eq_false. intros E.
    apply Hx. rewrite <- E. now apply in_map.
  - rewrite bool_decide_eq_false_2; [now apply IH|].
    intros E. apply Hx. rewrite E. now apply in_map.
Qed.

(** X4.  Each subscriber receives exactly the processed events that match
    its kinds and its predicate, once each and in the order in which they
    are processed; so a subscriber that matches all of [N] events receives
    all [N], and one that matches none receives nothing. *)
Theorem each_subscriber_receives_its_events (s : Subscription) (b : Bus)
    (events : list Event) :
  List.NoDup (subscribers b) ->
  In s (_subscriptions b) ->
  deliveries_to (subscriber_id s) (process_all events b)
  = deliveries_to (subscriber_id s) b
    ++ map event_id (List.filter (fun e => matches e s) events).
Proof.
  intros Hnd Hin.
  induction events as [|e es IH] using rev_ind; [cbn; now rewrite app_nil_r|].
  rewrite process_all_snoc, deliveries_to_process, IH.
  rewrite process_all_subscriptions, filter_comm.
  rewrite filter_unique_id by done.
  rewrite List.filter_app, map_app, <- app_assoc. f_equal. f_equal.
  cbn. now destruct (matches e s).
Qed.

Lemma each_subscriber_receives_its_events_witness :
  let s := {| subscriber_id := "deadline_monitor";
              event_types := [REQUEST_CREATED; REQUEST_UPDATED];
              is_async := true; filter_func := None |} in
  let b := snd (subscribe s (__init__ default_max_queue_size)) in
  deliveries_to "deadline_monitor"
    (process_all [ev "a"; queued_event; ev "b"] b)
  = ["a"; "b"].
Proof.
  intros s b.
  apply (each_subscriber_receives_its_events s b [ev "a"; queued_event; ev "b"]).
  - repeat constructor. cbn. tauto.
  - now left.
Defined.

(** ** Starting and stopping the dispatcher *)

Lemma _process_event_with_queue (e : Event) (q : Queue) (b : Bus) :
  _process_event e (with_queue q b) = with_queue q (_process_event e b).
Proof. reflexivity. Qed.

Lemma process_all_with_queue (events : list Event) (q : Queue) (b : Bus) :
  process_all events (with_queue q b) = with_queue q (process_all events b).
Proof.
  revert b. induction events as [|e es IH]; intros b; [done|].
  change (process_all (e :: es) (with_queue q b))
    with (process_all es (_process_event e (with_queue q b))).
  now rewrite _process_event_with_queue, IH.
Qed.

Lemma iter_process_next (l : list Event) (m : Z) (b : Bus) :
  Nat.iter (length l) process_next (with_queue {| maxsize := m; items := l |} b)
  = with_queue {| maxsize := m; items := [] |} (process_all l b).
Proof.
  revert b. induction l as [|e l IH]; intros b; [done|].
  cbn [length]. rewrite Nat.iter_succ_r.
  change (process_next (with_queue {| maxsize := m; items := e :: l |} b))
    with (with_queue {| maxsize := m; items := l |} (_process_event e b)).
  now rewrite IH.
Qed.

Lemma drain_queue_spec (b : Bus) :
  drain_queue b
  = with_queue {| maxsize := maxsize (_event_queue b); items := [] |}
               (process_all (items (_event_queue b)) b).
Proof.
  unfold drain_queue.
  rewrite <- (iter_process_next (items (_event_queue b))
                (maxsize (_event_queue b)) b).
  f_equal. now destruct b as [? [? ?] ? ? ? ?].
Qed.

(** X5.  [stop(drain=True)] on a running bus processes every queued
    event, oldest first, and leaves the queue empty; [stop(drain=False)]
    leaves the queued events in the queue, unprocessed; either way the bus
    is no longer running, and a second [stop] changes nothing. *)
Theorem stop_drains_or_keeps (b : Bus) :
  _running b = true ->
  (_running (stop true b) = false
   /\ items (_event_queue (stop true b)) = []
   /\ _event_history (stop true b)
      = _event_history (process_all (items (_event_queue b)) b)
   /\ delivered (stop true b)
      = delivered (process_all (items (_event_queue b)) b))
  /\ (_running (stop false b) = false
      /\ _event_queue (stop false b) = _event_queue b
      /\ _event_history (stop false b) = _event_history b
      /\ delivered (stop false b) = delivered b)
  /\ (forall d d' : bool, stop d' (stop d b) = stop d b).
Proof.
  intros Hr. unfold stop. rewrite Hr. cbn [negb].
  rewrite drain_queue_spec. split; [now cbn|]. split; [now cbn|].
  intros d d'. now destruct d.
Qed.

Lemma stop_drains_or_keeps_witness :
  let b := start (with_queue {| maxsize := 10; items := [ev "a"; ev "b"] |}
                             (__init__ 10)) in
  (_running (stop true b) = false
   /\ items (_event_queue (stop true b)) = []
   /\ _event_history (stop true b)
      = _event_history (process_all (items (_event_queue b)) b)
   /\ delivered (stop true b)
      = delivered (process_all (items (_event_queue b)) b))
  /\ (_running (stop false b) = false
      /\ _event_queue (stop false b) = _event_queue b
      /\ _event_history (stop false b) = _event_history b
      /\ delivered (stop false b) = delivered b)
  /\ (forall d d' : bool, stop d' (stop d b) = stop d b).
Proof. intros b. apply (stop_drains_or_keeps b). reflexivity. Defined.

(** A bus that is not running ignores [stop], even with events queued
    and [drain] requested: nothing is processed; and [start] on a running
    bus changes nothing. *)
Lemma stop_when_not_running (b : Bus) (drain : bool) :
  _running b = false ->
  stop drain b = b
  /\ start (start b) = start b
  /\ _running (start b) = true
  /\ _event_queue (start b) = _event_queue b.
Proof. intros Hr. unfold stop, start. rewrite Hr. now cbn. Qed.

(** ** The queue *)

(** X6.  Whichever of [publish] and [publish_sync] returns, the
    returned event carries the arguments of the call, it is appended at the
    end of the queue, and a bounded queue (capacity above 0) holds at most
    its capacity afterwards; a bus created with a capacity of 0 or less is
    unbounded: [publish] never waits on it and [publish_sync] never
    raises. *)
Theorem publish_respects_capacity (b : Bus) (ty : EventType)
    (payload : list (string * string)) (src : string) (corr : option string)
    (meta : option (list (string * string))) (fresh_id : string) (now : Z) :
  let event := {| event_type := ty; data := payload; source := src;
                  event_id := fresh_id; timestamp := now;
                  correlation_id := corr; metadata := or_empty meta |} in
  (forall (e : Event) (b' : Bus),
      publish b ty payload src corr meta fresh_id now = Returns e b'
      \/ publish_sync b ty payload src corr meta fresh_id now = Returns e b' ->
      e = event
      /\ items (_event_queue b') = items (_event_queue b) ++ [event]
      /\ get_queue_size b' = get_queue_size b + 1
      /\ maxsize (_event_queue b') = maxsize (_event_queue b)
      /\ (0 < maxsize (_event_queue b) ->
          get_queue_size b' <= maxsize (_event_queue b)))
  /\ (maxsize (_event_queue b) <= 0 ->
      exists b',
        publish b ty payload src corr meta fresh_id now = Returns event b'
        /\ publish_sync b ty payload src corr meta fresh_id now
           = Returns event b').
Proof.
  intros event. split.
  - intros e b' H.
    assert (full (_event_queue b) = false
            /\ e = event
            /\ b' = with_queue {| maxsize := maxsize (_event_queue b);
                                  items := items (_event_queue b) ++ [event] |} b)
      as (Hf & -> & ->).
    { unfold publish, publish_sync, put, put_nowait in H. fold event in H.
      destruct (full (_event_queue b)); destruct H as [H|H];
        try discriminate; now injection H as <- <-. }
    split; [done|]. split; [done|].
    unfold get_queue_size, qsize. cbn [_event_queue with_queue items maxsize].
    rewrite length_app. cbn [length]. split; [lia|]. split; [done|].
    intros Hpos. unfold full, qsize in Hf.
    destruct (Z.leb_spec (maxsize (_event_queue b)) 0); [lia|].
    apply Z.leb_gt in Hf. lia.
  - intros Hm. eexists. unfold publish, publish_sync, put, put_nowait, full.
    fold event. destruct (Z.leb_spec (maxsize (_event_queue b)) 0); [|lia].
    split; reflexivity.
Qed.

Lemma publish_respects_capacity_witness :
  let b := with_queue {| maxsize := 2; items := [ev "a"] |} (__init__ 2) in
  get_queue_size
    (with_queue {| maxsize := 2; items := [ev "a"; ev "b"] |} b)
  <= maxsize (_event_queue b)
  /\ exists b',
       publish (__init__ 0) REQUEST_CREATED [] "request_monitor" None None
               "b" 0
       = Returns (ev "b") b'
       /\ publish_sync (__init__ 0) REQUEST_CREATED [] "request_monitor" None
                       None "b" 0
          = Returns (ev "b") b'.
Proof.
  intros b. split.
  - destruct (publish_respects_capacity b REQUEST_CREATED [] "request_monitor"
                None None "b" 0) as [H _].
    destruct (H (ev "b")
                (with_queue {| maxsize := 2; items := [ev "a"; ev "b"] |} b))
      as (_ & _ & _ & _ & Hc).
    + left. reflexivity.
    + apply Hc. reflexivity.
  - apply (publish_respects_capacity (__init__ 0) REQUEST_CREATED []
             "request_monitor" None None "b" 0).
    discriminate.
Defined.

(** ** The history *)

Lemma last_n_snoc {A : Type} (m : nat) (l : list A) (x : A) :
  (0 < m)%nat -> last_n m (last_n m l ++ [x]) = last_n m (l ++ [x]).
Proof.
  intros Hm. unfold last_n. rewrite !length_app, length_drop. cbn [length].
  destruct (Nat.le_gt_cases (length l) m) as [Hle|Hgt].
  - replace (length l - m)%nat with 0%nat by lia. cbn [drop].
    f_equal. lia.
  - rewrite (drop_app_le l [x]) by lia.
    rewrite drop_app_le by (rewrite length_drop; lia).
    rewrite drop_drop. f_equal. f_equal. lia.
Qed.

Lemma bounded_history_last_n (m : Z) (l : list Event) :
  0 < m ->
  (if m <? Z.of_nat (length l) then Py.slice_from (- m) l else l)
  = last_n (Z.to_nat m) l.
Proof.
  intros Hm. unfold last_n. destruct (Z.ltb_spec m (Z.of_nat (length l))).
  - now apply slice_from_last.
  - now replace (length l - Z.to_nat m)%nat with 0%nat by lia.
Qed.

Lemma process_all_max_history (events : list Event) (b : Bus) :
  _max_history_size (process_all events b) = _max_history_size b.
Proof.
  induction events as [|e es IH] using rev_ind; [done|].
  now rewrite process_all_snoc.
Qed.

(** X7.  Whatever sequence of events is processed, the history
    holds the most recent [_max_history_size] (1,000) of the events it has
    seen, in the order of processing: older entries are the ones dropped,
    and it never grows beyond the bound. *)
Theorem history_keeps_most_recent (events : list Event) (b : Bus) :
  0 < _max_history_size b ->
  (length (_event_history b) <= Z.to_nat (_max_history_size b))%nat ->
  _event_history (process_all events b)
  = last_n (Z.to_nat (_max_history_size b)) (_event_history b ++ events)
  /\ (length (_event_history (process_all events b))
      <= Z.to_nat (_max_history_size b))%nat.
Proof.
  intros Hpos Hlen.
  assert (E : _event_history (process_all events b)
              = last_n (Z.to_nat (_max_history_size b))
                       (_event_history b ++ events)).
  { induction events as [|e es IH] using rev_ind.
    - rewrite app_nil_r. unfold last_n. cbn.
      now replace (length (_event_history b)
                   - Z.to_nat (_max_history_size b))%nat with 0%nat by lia.
    - rewrite process_all_snoc. cbn [_process_event _event_history].
      rewrite process_all_max_history, bounded_history_last_n by done.
      rewrite IH, app_assoc. apply last_n_snoc. lia. }
  split; [exact E|]. rewrite E. unfold last_n. rewrite length_drop. lia.
Qed.

Lemma history_keeps_most_recent_witness :
  let b := __init__ default_max_queue_size in
  _event_history (process_all [ev "a"; ev "b"] b)
  = last_n (Z.to_nat 1000) ([] ++ [ev "a"; ev "b"])
  /\ (length (_event_history (process_all [ev "a"; ev "b"] b))
      <= Z.to_nat 1000)%nat.
Proof.
  intros b. apply (history_keeps_most_recent [ev "a"; ev "b"] b).
  - reflexivity.
  - cbn. lia.
Defined.

(** X8.  For a limit of 1 or more, [get_event_history] returns the
    last [limit] of the events of the history that pass the filters (all of
    them when there are fewer), in the order of the history; every event
    returned passes the filters. *)
Theorem get_event_history_recent (b : Bus) (ty : option EventType)
    (src corr : option string) (limit : Z) :
  0 < limit ->
  let matching := List.filter (selected ty src corr) (_event_history b) in
  let result := get_event_history b ty src corr limit in
  result = last_n (Z.to_nat limit) matching
  /\ length result = Nat.min (Z.to_nat limit) (length matching)
  /\ forall e, In e result ->
               In e (_event_history b) /\ selected ty src corr e = true.
Proof.
  intros Hpos matching result. subst result.
  rewrite get_event_history_unfold. fold matching.
  split; [now apply slice_from_last|].
  split; [now apply slice_from_last_length|].
  intros e Hin. apply filter_In.
  destruct (slice_from_suffix (- limit) matching) as [k Hk].
  fold matching. rewrite Hk. apply in_or_app. now right.
Qed.

Lemma get_event_history_recent_witness :
  get_event_history bus_with_history (Some REQUEST_CREATED)
                    (Some "request_monitor") None 2
  = [ev "b"; ev "c"].
Proof.
  apply (get_event_history_recent bus_with_history (Some REQUEST_CREATED)
           (Some "request_monitor") None 2).
  reflexivity.
Defined.

(** X9.  An empty string given as [source] or [correlation_id] is
    no filter at all: the query returns what it returns without that
    argument, events of every source (or correlation id) included; and a
    negative limit [-n] does not limit the result but drops the [n] oldest
    matching events. *)
Theorem get_event_history_edge_inputs (b : Bus) (ty : option EventType)
    (src corr : option string) (limit : Z) :
  get_event_history b ty (Some "") corr limit
  = get_event_history b ty None corr limit
  /\ get_event_history b ty src (Some "") limit
     = get_event_history b ty src None limit
  /\ (limit < 0 ->
      get_event_history b ty src corr limit
      = drop (Z.to_nat (- limit))
             (List.filter (selected ty src corr) (_event_history b))).
Proof.
  split; [reflexivity|]. split; [reflexivity|].
  intros Hneg. rewrite get_event_history_unfold.
  set (matching := List.filter _ _). unfold Py.slice_from.
  destruct (Z.ltb_spec (- limit) 0); [lia|].
  destruct (Z.le_gt_cases (- limit) (Z.of_nat (length matching))).
  - now rewrite Z.min_l by lia.
  - rewrite Z.min_r by lia. rewrite Nat2Z.id.
    rewrite drop_all. symmetry. apply drop_ge. lia.
Qed.

Lemma get_event_history_edge_inputs_witness :
  get_event_history bus_with_history None None None (-1) = [ev "b"; ev "c"].
Proof.
  apply (get_event_history_edge_inputs bus_with_history None None None (-1)).
  reflexivity.
Defined.

End EventBusExtra.

(* ===================================================================== *)
(** * Further properties of the base agent *)
(* ===================================================================== *)

Module BaseAgentExtra.
Import EventBus BaseAgent BaseAgentFacts.

(** ** The list of errors *)

(** X10.  [_add_error] keeps the last 100 errors: the list after the
    call is the last 100 entries of the old list followed by the new error,
    so it never holds more than 100 and always ends with the error just
    added; the state and the run counters are untouched. *)
Theorem _add_error_keeps_last_100 (ty msg : string) (a : Agent) :
  let a' := _add_error ty msg a in
  errors (_metrics a') = last_n 100 (errors (_metrics a) ++ [(ty, msg)])
  /\ (length (errors (_metrics a')) <= 100)%nat
  /\ last (errors (_metrics a')) = Some (ty, msg)
  /\ _state a' = _state a
  /\ total_runs (_metrics a') = total_runs (_metrics a)
  /\ successful_runs (_metrics a') = successful_runs (_metrics a)
  /\ failed_runs (_metrics a') = failed_runs (_metrics a).
Proof.
  intros a'.
  assert (E : errors (_metrics a')
              = last_n 100 (errors (_metrics a) ++ [(ty, msg)])).
  { subst a'. unfold _add_error, last_n.
    cbn [_metrics with_metrics errors set_errors].
    set (es := errors (_metrics a) ++ [(ty, msg)]).
    destruct (Z.ltb_spec 100 (Z.of_nat (length es))).
    - change (Py.slice_from (-100) es) with (Py.slice_from (Z.opp 100) es).
      now rewrite EventBusFacts.slice_from_last by lia.
    - now replace (length es - 100)%nat with 0%nat by lia. }
  split; [exact E|]. rewrite E. unfold last_n.
  split; [rewrite length_drop; lia|].
  split; [|now subst a'].
  rewrite length_app. cbn [length].
  rewrite drop_app_le by lia. apply last_snoc.
Qed.

(** ** The retry procedure *)

(** X11.  Whatever the configuration, the unit of work and the
    random draws, no delay slept by the retry procedure exceeds
    [max_delay]. *)
Theorem slept_at_most_max_delay (env : RetryEnv) (a : Agent) (d : float) :
  In d (slept env a) -> (max_delay (retry_config a) <? d)%float = false.
Proof.
  intros Hin. destruct (slept_waits env a) as [j E]. rewrite E in Hin.
  apply in_map_iff in Hin as (k & <- & _). apply min_float_not_above.
Qed.

Lemma slept_at_most_max_delay_witness :
  let a := __init__ "email_retrieval" (Orchestrator.retry_of 3 5 120) in
  let env := {| func := fun _ => Raise "timeout";
                random := fun _ => 0.99%float;
                sleep_cancelled := fun _ => false |} in
  In (Py.min_float (5 * (0.5 + 0.99)) 120)%float (slept env a)
  /\ (120 <? Py.min_float (5 * (0.5 + 0.99)) 120)%float = false.
Proof.
  intros a env.
  assert (H : In (Py.min_float (5 * (0.5 + 0.99)) 120)%float (slept env a))
    by (vm_compute; left; reflexivity).
  split; [exact H|].
  exact (slept_at_most_max_delay env a _ H).
Defined.



(** X13.  A cancellation is never retried: when, after [k] failed
    attempts, the unit of work is cancelled in attempt [k], or the task is
    cancelled during the sleep that follows the failure of attempt [k], the
    retry procedure raises [CancelledError] at once; attempt [k] is the last
    one made, no [AGENT_ERROR] is published, and the pass of the run loop
    leaves the loop having counted the run in [total_runs] only. *)
Theorem cancellation_is_not_retried (env : IterEnv) (a : Agent) (k : nat)
    (err : nat -> string) :
  Z.of_nat k <= max_retries (retry_config a) ->
  (forall j, (j < k)%nat -> func (work env) j = Raise (err j)) ->
  (forall j, (j < k)%nat -> sleep_cancelled (work env) j = false) ->
  func (work env) k = RaiseCancelled
  \/ (func (work env) k = Raise (err k)
      /\ Z.of_nat k < max_retries (retry_config a)
      /\ sleep_cancelled (work env) k = true) ->
  (fst (_execute_with_retry (work env) a) = RaiseCancelled
   /\ attempted (work env) a = seq 0 (k + 1)
   /\ emitted (trace (snd (_execute_with_retry (work env) a)))
      = emitted (trace a))
  /\ (_shutdown_event a = false -> _pause_event a = true ->
      let a' := snd (run_iteration env a) in
      fst (run_iteration env a) = Left
      /\ run_loop_active a' = false
      /\ total_runs (_metrics a') = total_runs (_metrics a) + 1
      /\ successful_runs (_metrics a') = successful_runs (_metrics a)
      /\ failed_runs (_metrics a') = failed_runs (_metrics a)).
Proof.
  intros Hk Hf Hc Hcancel.
  assert (G : forall a0 : Agent,
             retry_config a0 = retry_config a ->
             let r := _execute_with_retry (work env) a0 in
             fst r = RaiseCancelled
             /\ invocations (trace (snd r))
                = invocations (trace a0) ++ seq 0 (k + 1)
             /\ emitted (trace (snd r)) = emitted (trace a0)
             /\ total_runs (_metrics (snd r)) = total_runs (_metrics a0)
             /\ successful_runs (_metrics (snd r))
                = successful_runs (_metrics a0)
             /\ failed_runs (_metrics (snd r)) = failed_runs (_metrics a0)).
  { intros a0 Hcfg r. subst r.
    destruct (_execute_with_retry_reaches (work env) a0 k err)
      as (rest & d' & l' & a1 & E & Hi & _ & Hm & _ & _ & C1 & C2 & C3 & _);
      [now rewrite Hcfg|done|done|].
    rewrite E, Hcfg. cbn [retry_loop].
    set (a2 := log (Invoke k)
                   (if (0 <? k)%nat then _set_state RECOVERING a1 else a1)).
    assert (F : invocations (trace a2) = invocations (trace a1) ++ [k]
                /\ emitted (trace a2) = emitted (trace a1)
                /\ _metrics a2 = _metrics a1).
    { subst a2. destruct (0 <? k)%nat; cbn [trace log _metrics];
        rewrite ?_set_state_trace, ?_set_state_metrics,
          ?invocations_app, ?emitted_app; cbn;
        now rewrite ?app_nil_r. }
    clearbody a2. destruct F as (F1 & F2 & F3).
    replace (seq 0 (k + 1)) with (seq 0 k ++ [k]) by now rewrite seq_app.
    rewrite app_assoc, <- Hi, <- F1.
    destruct Hcancel as [Hx|(Hx & Hlt & Hs)]; rewrite Hx.
    - cbn [fst snd]. rewrite F2, F3. repeat split; congruence.
    - apply Z.ltb_lt in Hlt. rewrite Hlt, Hs. cbn [fst snd trace log
        with_metrics _metrics total_runs successful_runs failed_runs
        set_current_retry_count].
      rewrite invocations_app, emitted_app. cbn. rewrite !app_nil_r.
      rewrite F2, F3. repeat split; congruence. }
  split.
  - destruct (G a eq_refl) as (G1 & G2 & G3 & _).
    split; [exact G1|]. split; [|exact G3].
    unfold attempted. now rewrite G2, drop_app_length.
  - intros Hsh Hp. unfold run_iteration. rewrite Hsh, Hp. cbn [negb andb].
    destruct (G (count_run a) eq_refl) as (G1 & _ & _ & G4 & G5 & G6).
    destruct (_execute_with_retry (work env) (count_run a)) as [r a1].
    cbn [fst snd] in *. subst r. cbn [fst snd run_loop_active with_tasks
                                      _metrics].
    rewrite G4, G5, G6. now cbn.
Qed.

Lemma cancellation_is_not_retried_witness :
  let a := snd (start HookOk (__init__ "classification" default_RetryConfig)) in
  let env := {| work := {| func := fun k => match k with
                                           | O => Raise "boom"
                                           | S _ => RaiseCancelled
                                           end;
                           random := fun _ => 0%float;
                           sleep_cancelled := fun _ => false |};
                interval_cancelled := false |} in
  fst (_execute_with_retry (work env) a) = RaiseCancelled
  /\ attempted (work env) a = seq 0 (1 + 1)
  /\ emitted (trace (snd (_execute_with_retry (work env) a)))
     = emitted (trace a).
Proof.
  intros a env.
  apply (cancellation_is_not_retried env a 1 (fun _ => "boom")).
  - vm_compute. discriminate.
  - intros j Hj. assert (j = 0%nat) as -> by lia. reflexivity.
  - reflexivity.
  - left. reflexivity.
Defined.

(** ** The life cycle *)






(** X15.  [pause] acts only on a [RUNNING] agent and [resume] only on
    a [PAUSED] one.  A paused agent is [PAUSED] with the pause signal
    cleared: a pass of its run loop waits, calling nothing and counting
    nothing, and a second [pause] changes nothing; [resume] brings it back
    to [RUNNING] with the counters it had, and the next pass of the loop
    calls the unit of work. *)
Theorem pause_blocks_resume_releases :
  (forall a : Agent, _state a <> RUNNING -> pause a = a)
  /\ (forall a : Agent, _state a <> PAUSED -> resume a = a)
  /\ (forall (env : IterEnv) (a : Agent),
         _state a = RUNNING ->
         _shutdown_event a = false ->
         let p := pause a in
         _state p = PAUSED /\ _pause_event p = false
         /\ run_iteration env p = (Waiting, p)
         /\ pause p = p
         /\ _state (resume p) = RUNNING
         /\ _pause_event (resume p) = true
         /\ _shutdown_event (resume p) = false
         /\ _metrics (resume p) = _metrics a
         /\ run_loop_active (resume p) = run_loop_active a
         /\ transitions (trace (resume p))
            = transitions (trace a) ++ [(RUNNING, PAUSED); (PAUSED, RUNNING)]
         /\ (0 <= max_retries (retry_config a) ->
             exists rest : list nat,
               invocations (trace (snd (run_iteration env (resume p))))
               = invocations (trace a) ++ 0%nat :: rest)).
Proof.
  split; [|split].
  - intros a H. unfold pause. now rewrite decide_False.
  - intros a H. unfold resume. now rewrite decide_False.
  - intros env a Hs Hsh p. subst p.
    set (q := _set_state PAUSED (with_signals (_shutdown_event a) false a)).
    assert (Hp : pause a = q).
    { unfold pause. now rewrite decide_True. }
    rewrite Hp.
    destruct (_set_state_flags PAUSED (with_signals (_shutdown_event a) false a))
      as (F1 & F2 & F3 & F4).
    fold q in F1, F2, F3, F4.
    cbn [run_loop_active heartbeat_active _shutdown_event _pause_event
         with_signals _metrics] in F1, F2, F3, F4.
    assert (Sq : _state q = PAUSED) by apply _set_state_state.
    assert (Mq : _metrics q = _metrics a)
      by (unfold q; now rewrite _set_state_metrics).
    assert (Tq : trace q = trace a ++ [Transition RUNNING PAUSED]).
    { unfold q. rewrite _set_state_trace. cbn [trace with_signals _state].
      now rewrite Hs. }
    set (r := _set_state RUNNING (with_signals (_shutdown_event q) true q)).
    assert (Hr : resume q = r).
    { unfold resume. now rewrite decide_True. }
    rewrite Hr.
    destruct (_set_state_flags RUNNING (with_signals (_shutdown_event q) true q))
      as (G1 & G2 & G3 & G4).
    fold r in G1, G2, G3, G4.
    cbn [run_loop_active heartbeat_active _shutdown_event _pause_event
         with_signals _metrics] in G1, G2, G3, G4.
    assert (Sr : _state r = RUNNING) by apply _set_state_state.
    assert (Mr : _metrics r = _metrics q)
      by (unfold r; now rewrite _set_state_metrics).
    assert (Tr : trace r = trace a ++ [Transition RUNNING PAUSED;
                                       Transition PAUSED RUNNING]).
    { unfold r. rewrite _set_state_trace. cbn [trace with_signals _state].
      rewrite Tq, Sq. now rewrite <- app_assoc. }
    assert (Cr : retry_config r = retry_config a).
    { unfold r, q. now rewrite !_set_state_config. }
    clearbody q r.
    split; [done|]. split; [done|].
    split; [unfold run_iteration; rewrite F3, F4, Hsh; reflexivity|].
    split; [unfold pause; rewrite decide_False; [done|rewrite Sq; discriminate]|].
    split; [done|]. split; [done|]. split; [now rewrite G3, F3|].
    split; [now rewrite Mr|]. split; [now rewrite G1|].
    split; [rewrite Tr, transitions_app; reflexivity|].
    intros Hn. destruct (run_iteration_invokes env r) as [rest E].
    + now rewrite G3, F3.
    + exact G4.
    + now rewrite Cr.
    + exists rest. rewrite E, Tr, invocations_app. cbn. now rewrite app_nil_r.
Qed.

Lemma pause_blocks_resume_releases_witness :
  let a := snd (start HookOk (__init__ "classification" default_RetryConfig)) in
  run_iteration failing_pass (pause a) = (Waiting, pause a)
  /\ _state (resume (pause a)) = RUNNING
  /\ pause (__init__ "classification" default_RetryConfig)
     = __init__ "classification" default_RetryConfig.
Proof.
  intros a.
  destruct pause_blocks_resume_releases as (H1 & _ & H3).
  destruct (H3 failing_pass a eq_refl eq_refl) as (_ & _ & P & _ & R & _).
  split; [exact P|]. split; [exact R|]. apply H1. discriminate.
Defined.



(** ** Waiting for the next run *)

Local Open Scope Q_scope.

Lemma wait_loop_spec (fuel : nat) (shutdown : nat -> bool) (i : nat) (r : Q) :
  r <= inject_Z (Z.of_nat fuel) ->
  exists chunks : list Q,
    wait_loop fuel shutdown i r = Some chunks
    /\ Forall (fun c => 0 < c /\ c <= 1) chunks
    /\ (length chunks <= fuel)%nat
    /\ ((forall j, shutdown j = false) -> 0 <= r -> total chunks == r)
    /\ (forall j, shutdown (i + j)%nat = true -> (length chunks <= j)%nat).
Proof.
  revert i r. induction fuel as [|fuel IH]; intros i r Hr.
  - cbn [wait_loop].
    assert (Qle_bool r 0 = true) as -> by now apply Qle_bool_iff.
    cbn. exists []. split; [done|]. split; [constructor|].
    split; [cbn; lia|]. split; [|intros j _; cbn; lia].
    intros _ H0. cbn. now apply Qle_antisym.
  - cbn [wait_loop].
    destruct (Qle_bool r 0) eqn:Hle; cbn [negb andb].
    { apply Qle_bool_iff in Hle. exists []. split; [done|].
      split; [constructor|]. split; [cbn; lia|].
      split; [|intros j _; cbn; lia].
      intros _ H0. cbn. now apply Qle_antisym. }
    assert (Hpos : 0 < r).
    { apply Qnot_le_lt. intros H. apply Qle_bool_iff in H. congruence. }
    destruct (shutdown i) eqn:Hsh; cbn [negb].
    { exists []. split; [done|]. split; [constructor|]. split; [cbn; lia|].
      split; [|intros j _; cbn; lia].
      intros Hn. now rewrite Hn in Hsh. }
    assert (Hmin : 0 < Qmin 1 r /\ Qmin 1 r <= 1 /\ Qmin 1 r <= r).
    { split; [apply Q.min_glb_lt; [reflexivity|exact Hpos]|].
      split; [apply Q.le_min_l|apply Q.le_min_r]. }
    destruct Hmin as (M1 & M2 & M3).
    assert (Hf : 0 <= inject_Z (Z.of_nat fuel)).
    { change 0 with (inject_Z 0). rewrite <- Zle_Qle. lia. }
    destruct (IH (S i) (r - Qmin 1 r)) as (l & E & F & L & T & Sd).
    { rewrite Nat2Z.inj_succ, <- Z.add_1_r, inject_Z_plus in Hr.
      change (inject_Z 1) with 1 in Hr.
      destruct (Q.min_spec_le 1 r) as [[H1 H2]|[H1 H2]]; rewrite H2; lra. }
    rewrite E. cbn [option_map]. exists (Qmin 1 r :: l).
    split; [done|]. split; [now constructor|]. split; [cbn; lia|]. split.
    + intros Hn _. cbn [total fold_right]. fold (total l).
      rewrite T; [ring|done|]. lra.
    + intros [|j] Hj.
      * rewrite Nat.add_0_r in Hj. congruence.
      * cbn [length]. apply le_n_S. apply Sd.
        now replace (S i + j)%nat with (i + S j)%nat by lia.
Qed.

(** X17.  [_wait_for_interval] always ends.  It sleeps in slices
    of at most one second, never more slices than the interval has
    (started) seconds; with no shutdown the slices add up to the interval
    exactly; and no slice is started once the shutdown signal has been seen
    set: if it is set at the [j]-th test, at most [j] slices have been
    slept. *)
Theorem _wait_for_interval_slices (run_interval : Q) (shutdown : nat -> bool) :
  exists chunks : list Q,
    _wait_for_interval run_interval shutdown = Some chunks
    /\ Forall (fun c => 0 < c /\ c <= 1) chunks
    /\ (length chunks <= Z.to_nat (Qceiling run_interval))%nat
    /\ ((forall j, shutdown j = false) -> 0 <= run_interval ->
        total chunks == run_interval)
    /\ (forall j, shutdown j = true -> (length chunks <= j)%nat).
Proof.
  unfold _wait_for_interval.
  destruct (wait_loop_spec (Z.to_nat (Qceiling run_interval)) shutdown 0
              run_interval) as (l & E & F & L & T & Sd).
  { apply Qle_trans with (inject_Z (Qceiling run_interval));
      [apply Qle_ceiling|].
    rewrite <- Zle_Qle. lia. }
  exists l. repeat split; try done.
Qed.

Lemma _wait_for_interval_slices_witness :
  exists chunks : list Q,
    _wait_for_interval (5 # 2) (fun _ => false) = Some chunks
    /\ total chunks == 5 # 2.
Proof.
  destruct (_wait_for_interval_slices (5 # 2) (fun _ => false))
    as (l & E & _ & _ & T & _).
  exists l. split; [exact E|]. apply T; [reflexivity|discriminate].
Defined.

Local Close Scope Q_scope.

(** ** Handlers and the subscription of an agent *)

Lemma registered_snoc (rs : list (EventType * string)) (r : EventType * string) :
  registered (rs ++ [r])
  = register_event_handler (fst r) (snd r) (registered rs).
Proof. unfold registered. now rewrite foldl_app. Qed.

Lemma handler_get_set (ty ty' : EventType) (h : string)
    (d : list (EventType * string)) :
  handler_get ty (handler_set ty' h d)
  = if decide (ty' = ty) then Some h else handler_get ty d.
Proof.
  induction d as [|[t x] d IH]; cbn [handler_set handler_get].
  - reflexivity.
  - destruct (decide (t = ty')) as [->|N]; cbn [handler_get].
    + now destruct (decide (ty' = ty)).
    + destruct (decide (t = ty)) as [->|N'].
      * now rewrite decide_False by congruence.
      * exact IH.
Qed.

Lemma registered_events (rs : list (EventType * string)) :
  _subscribed_events (registered rs) = map fst rs.
Proof.
  induction rs as [|r rs IH] using rev_ind; [done|].
  rewrite registered_snoc, map_app. cbn. now rewrite IH.
Qed.

Lemma registered_get (rs : list (EventType * string)) (ty : EventType) :
  handler_get ty (_event_handlers (registered rs))
  = option_map snd
      (last (List.filter (fun r => bool_decide (fst r = ty)) rs)).
Proof.
  induction rs as [|[t h] rs IH] using rev_ind; [done|].
  rewrite registered_snoc, List.filter_app.
  cbn [register_event_handler _event_handlers fst snd List.filter].
  rewrite handler_get_set, IH.
  destruct (decide (t = ty)) as [->|N].
  - rewrite bool_decide_eq_true_2 by done. now rewrite last_snoc.
  - rewrite bool_decide_eq_false_2 by done. now rewrite app_nil_r.
Qed.

Lemma registered_get_some (rs : list (EventType * string)) (ty : EventType) :
  In ty (map fst rs)
  <-> exists h, handler_get ty (_event_handlers (registered rs)) = Some h.
Proof.
  induction rs as [|[t h] rs IH] using rev_ind.
  - cbn. split; [tauto|]. now intros [h H].
  - rewrite registered_snoc, map_app, in_app_iff.
    cbn [register_event_handler _event_handlers fst snd map In].
    setoid_rewrite handler_get_set.
    destruct (decide (t = ty)) as [->|N].
    + split; [intros _; now exists h|tauto].
    + rewrite IH. tauto.
Qed.

Lemma registered_handlers_nonempty (rs : list (EventType * string)) :
  rs <> [] -> _event_handlers (registered rs) <> [].
Proof.
  destruct rs as [|r rs _] using rev_ind; [done|]. intros _.
  rewrite registered_snoc. cbn [register_event_handler _event_handlers].
  now destruct (_event_handlers (registered rs)) as [|[t x] d];
    cbn; [|destruct (decide _)].
Qed.

Lemma _subscribe_to_events_registered (name : string)
    (rs : list (EventType * string)) (b : Bus) :
  rs <> [] ->
  _subscribe_to_events name (registered rs) b
  = snd (subscribe {| subscriber_id := name;
                      event_types := _subscribed_events (registered rs);
                      is_async := true;
                      filter_func := None |} b).
Proof.
  intros Hne. unfold _subscribe_to_events.
  pose proof (registered_handlers_nonempty rs Hne) as Hh.
  pose proof (registered_events rs) as He.
  destruct (_event_handlers (registered rs)); [done|].
  destruct (_subscribed_events (registered rs)); [|done].
  now destruct rs.
Qed.

Lemma dict_set_fresh (s : Subscription) (l : list Subscription) :
  ~ In (subscriber_id s) (map subscriber_id l) -> dict_set s l = l ++ [s].
Proof.
  induction l as [|x l IH]; intros H; [done|]. cbn [dict_set].
  rewrite decide_False by (intros E; apply H; left; exact E).
  cbn. f_equal. apply IH. intros Hin. apply H. now right.
Qed.

Lemma deliveries_without_subscription (id : string) (events : list Event)
    (b : Bus) :
  ~ In id (subscribers b) ->
  deliveries_to id (process_all events b) = deliveries_to id b.
Proof.
  intros Hn. induction events as [|e es IH] using rev_ind; [done|].
  rewrite EventBusExtra.process_all_snoc, EventBusExtra.deliveries_to_process, IH.
  rewrite EventBusExtra.process_all_subscriptions.
  rewrite (EventBusExtra.filter_none
             (fun s => bool_decide (subscriber_id s = id)));
    [now rewrite app_nil_r|].
  intros s Hs. apply filter_In in Hs as [Hs _].
  apply bool_decide_eq_false. intros <-. apply Hn.
  unfold subscribers. now apply in_map.
Qed.

(** X18.  An agent whose constructor has registered handlers for
    some kinds subscribes, on start, for exactly those kinds and under its
    own name; an agent without handlers subscribes to nothing.  The handler
    found for a kind is the last one registered for it.  An event processed
    by the bus is delivered to the agent exactly when the agent has a
    handler for its kind; and once the agent has unsubscribed (on stop)
    nothing more is delivered to it. *)
Theorem handlers_match_subscription (name : string)
    (rs : list (EventType * string)) (b : Bus) (e : Event) :
  ~ In name (subscribers b) ->
  let hs := registered rs in
  let b' := _subscribe_to_events name hs b in
  _subscribed_events hs = map fst rs
  /\ (forall ty,
         handler_get ty (_event_handlers hs)
         = option_map snd
             (last (List.filter (fun r => bool_decide (fst r = ty)) rs)))
  /\ (rs = [] -> b' = b)
  /\ deliveries_to name (_process_event e b')
     = deliveries_to name b
       ++ match _handle_event hs e with
          | Some _ => [event_id e]
          | None => []
          end
  /\ (forall events,
         deliveries_to name
           (process_all events (_unsubscribe_from_events name b'))
         = deliveries_to name b).
Proof.
  intros Hn hs b'. subst hs.
  split; [apply registered_events|]. split; [apply registered_get|].
  split; [now intros ->|].
  pose proof (EventBusExtra.unsubscribe_facts name b') as
    (_ & U1 & _ & _ & _ & _ & U2).
  assert (D : delivered b' = delivered b).
  { subst b'. unfold _subscribe_to_events.
    now destruct (_subscribed_events (registered rs)), (_event_handlers (registered rs)). }
  split.
  - rewrite EventBusExtra.deliveries_to_process.
    unfold deliveries_to at 1. rewrite D. fold (deliveries_to name b).
    f_equal. unfold _handle_event.
    assert (Hc : rs = [] \/ rs <> [])
      by (destruct rs; [left|right]; done).
    destruct Hc as [->|Hne].
    + cbn. rewrite EventBusExtra.filter_none; [done|].
      intros s Hs. apply filter_In in Hs as [Hs _].
      apply bool_decide_eq_false. intros <-. apply Hn.
      unfold subscribers. now apply in_map.
    + pose proof (registered_events rs) as He.
      subst b'. rewrite (_subscribe_to_events_registered name rs b Hne).
      cbn [snd subscribe _subscriptions with_subscriptions].
      rewrite dict_set_fresh by exact Hn.
      rewrite !List.filter_app. cbn [List.filter].
      rewrite EventBusExtra.filter_none.
      2:{ intros s Hs. apply filter_In in Hs as [Hs _].
          apply bool_decide_eq_false. intros <-. apply Hn.
          unfold subscribers. now apply in_map. }
      unfold matches. cbn [event_types filter_func]. rewrite andb_true_r, He.
      destruct (bool_decide_reflect (event_type e ∈ map fst rs)) as [Hin|Hin].
      * cbn [List.filter subscriber_id app].
        rewrite bool_decide_eq_true_2 by done. cbn.
        apply list_elem_of_In, registered_get_some in Hin as [h Hin].
        now rewrite Hin.
      * cbn. destruct (handler_get _ _) eqn:Eg; [|done].
        exfalso. apply Hin, list_elem_of_In, registered_get_some. eauto.
  - intros events. unfold _unsubscribe_from_events.
    rewrite deliveries_without_subscription by exact U1.
    unfold deliveries_to. now rewrite U2, D.
Qed.

Lemma handlers_match_subscription_witness :
  let rs := [(REQUEST_CREATED, "_handle_request_created")] in
  let b := EventBus.__init__ default_max_queue_size in
  ~ In "deadline_monitor" (subscribers b)
  /\ deliveries_to "deadline_monitor"
       (_process_event (ev "a")
          (_subscribe_to_events "deadline_monitor" (registered rs) b))
     = deliveries_to "deadline_monitor" b
       ++ match _handle_event (registered rs) (ev "a") with
          | Some _ => [event_id (ev "a")]
          | None => []
          end.
Proof.
  intros rs b.
  assert (Hn : ~ In "deadline_monitor" (subscribers b)) by (cbn; tauto).
  split; [exact Hn|].
  exact (proj1 (proj2 (proj2 (proj2
    (handlers_match_subscription "deadline_monitor" rs b (ev "a") Hn))))).
Defined.

End BaseAgentExtra.

(* ===================================================================== *)
(** * Further properties of the orchestrator *)
(* ===================================================================== *)

Module OrchestratorExtra.
Import EventBus Orchestrator.

(** ** Agents through [start] and [stop] *)

(** [start] succeeds exactly from [IDLE], [STOPPED] and [ERROR] with a
    start hook that returns, and then the agent is running. *)
Lemma agent_start_true (h : BaseAgent.HookResult) (a : BaseAgent.Agent) :
  fst (BaseAgent.start h a) = true ->
  let a' := snd (BaseAgent.start h a) in
  BaseAgent._state a' = BaseAgent.RUNNING
  /\ BaseAgent.run_loop_active a' = true
  /\ BaseAgent.heartbeat_active a' = true
  /\ BaseAgent._shutdown_event a' = false
  /\ BaseAgent._pause_event a' = true
  /\ BaseAgent._metrics a' = BaseAgent._metrics a.
Proof.
  unfold BaseAgent.start. rewrite BaseAgentFacts.startable_spec.
  destruct a as [nm cfg s m ra ha sh pa tr]. cbn [BaseAgent._state].
  destruct s, h; cbn; intros H; try discriminate; now repeat split.
Qed.

Lemma agent_start_ok (a : BaseAgent.Agent) :
  BaseAgent._state a = BaseAgent.STOPPED
  \/ BaseAgent._state a = BaseAgent.ERROR ->
  fst (BaseAgent.start BaseAgent.HookOk a) = true.
Proof.
  unfold BaseAgent.start. rewrite BaseAgentFacts.startable_spec.
  now intros [-> | ->].
Qed.

Lemma agent_start_raises (e : string) (a : BaseAgent.Agent) :
  BaseAgent._state a = BaseAgent.STOPPED
  \/ BaseAgent._state a = BaseAgent.ERROR ->
  let a' := snd (BaseAgent.start (BaseAgent.HookRaises e) a) in
  fst (BaseAgent.start (BaseAgent.HookRaises e) a) = false
  /\ BaseAgent._state a' = BaseAgent.ERROR
  /\ BaseAgent._metrics a'
     = BaseAgent._metrics (BaseAgent._add_error "start_failed" e a).
Proof.
  unfold BaseAgent.start. rewrite BaseAgentFacts.startable_spec.
  destruct a as [nm cfg s m ra ha sh pa tr]. cbn [BaseAgent._state].
  now intros [-> | ->].
Qed.

(** [stop] leaves the agent in [STOPPED], or in [ERROR] when the shutdown
    hook raises; the metrics are not touched. *)
Lemma agent_stop_state (h : BaseAgent.HookResult) (a : BaseAgent.Agent) :
  let a' := snd (BaseAgent.stop h a) in
  (BaseAgent._state a' = BaseAgent.STOPPED
   \/ BaseAgent._state a' = BaseAgent.ERROR
      /\ exists e, h = BaseAgent.HookRaises e)
  /\ BaseAgent._metrics a' = BaseAgent._metrics a.
Proof.
  unfold BaseAgent.stop.
  destruct (decide (BaseAgent._state a = BaseAgent.STOPPED)); [now split; [left|]|].
  destruct h; cbn; (split; [|done]); [now left|right; eauto].
Qed.

(** ** Starting with every agent well *)

Lemma start_all_spec (env : Env) (ags : list (string * BaseAgent.Agent)) :
  Forall (fun na =>
            fst (BaseAgent.start (on_start env (fst na)) (snd na)) = true)
         ags ->
  forallb (fun r => r) (results_of (start_all env ags)) = true
  /\ Forall (fun na =>
               BaseAgent._state (snd na) = BaseAgent.RUNNING
               /\ BaseAgent.run_loop_active (snd na) = true
               /\ BaseAgent.heartbeat_active (snd na) = true)
            (agents_of (start_all env ags))
  /\ map (fun r => StartAgent (fst r) (fst (snd r))) (start_all env ags)
     = map (fun na => StartAgent (fst na) true) ags.
Proof.
  induction 1 as [|[n a] ags Hd Ht IH]; [now repeat split|].
  cbn [fst snd] in Hd. destruct IH as (I1 & I2 & I3).
  change (start_all env ((n, a) :: ags))
    with ((n, BaseAgent.start (on_start env n) a) :: start_all env ags).
  cbn [results_of agents_of map forallb fst snd].
  fold (results_of (start_all env ags)). fold (agents_of (start_all env ags)).
  rewrite Hd, I1, I3. split; [done|]. split; [|done].
  constructor; [|exact I2]. cbn [snd].
  destruct (agent_start_true _ _ Hd) as (S1 & S2 & S3 & _). now repeat split.
Qed.

Lemma initialized_spec (env : Env) (o : Orch) :
  _state o <> RUNNING ->
  (_state o = STOPPED -> init_failure env = None) ->
  (if decide (_state o = STOPPED) then initialize env o else (true, o))
  = (true, initialized env o)
  /\ _state (initialized env o) <> STOPPED
  /\ trace (initialized env o) = trace o
  /\ auto_restart_agents (initialized env o) = auto_restart_agents o
  /\ max_restart_attempts (initialized env o) = max_restart_attempts o.
Proof.
  intros Hr Hi. unfold initialized.
  destruct (decide (_state o = STOPPED)) as [Hs|Hs]; [|done].
  unfold initialize. destruct (decide (_state o = STOPPED)); [|done].
  rewrite (Hi Hs). cbn. now repeat split.
Qed.

(** X19.  When [start] is called on an orchestrator that is not
    running, initialisation (if needed) succeeds and every agent starts,
    then [start] returns success, the orchestrator is [RUNNING] with its
    health check scheduled and its shutdown signal cleared, every agent is
    [RUNNING] with its run loop and heartbeat scheduled, and exactly one
    successful start per agent, in the order of the agents and nothing
    else, has been added to the trace. *)
Theorem start_brings_all_up (env : Env) (o : Orch) :
  _state o <> RUNNING ->
  (_state o = STOPPED -> init_failure env = None) ->
  Forall (fun na =>
            fst (BaseAgent.start (on_start env (fst na)) (snd na)) = true)
         (_agents (initialized env o)) ->
  let o' := snd (start env o) in
  fst (start env o) = true
  /\ _state o' = RUNNING
  /\ _health_check_task o' = true
  /\ _shutdown_event o' = false
  /\ map fst (_agents o') = map fst (_agents (initialized env o))
  /\ Forall (fun na =>
               BaseAgent._state (snd na) = BaseAgent.RUNNING
               /\ BaseAgent.run_loop_active (snd na) = true
               /\ BaseAgent.heartbeat_active (snd na) = true)
            (_agents o')
  /\ trace o'
     = trace o
       ++ map (fun na => StartAgent (fst na) true)
              (_agents (initialized env o)).
Proof.
  intros Hr Hi Hall. unfold start.
  destruct (decide (_state o = RUNNING)); [done|].
  destruct (initialized_spec env o Hr Hi) as (E1 & E2 & E3 & _).
  rewrite E1. cbn [negb].
  cbn [_agents with_health_check log with_agents].
  destruct (start_all_spec env _ Hall) as (S1 & S2 & S3).
  rewrite S1.
  cbn [fst snd _state _agents trace with_state with_health_check log
       with_agents _health_check_task _shutdown_event].
  rewrite S3, E3.
  repeat split; try done.
  apply OrchestratorFacts.start_all_names.
Qed.

Lemma start_brings_all_up_witness :
  let o' := snd (start all_well (__init__ true 3)) in
  fst (start all_well (__init__ true 3)) = true
  /\ _state o' = RUNNING
  /\ Forall (fun na =>
               BaseAgent._state (snd na) = BaseAgent.RUNNING
               /\ BaseAgent.run_loop_active (snd na) = true
               /\ BaseAgent.heartbeat_active (snd na) = true)
            (_agents o').
Proof.
  assert (H1 : _state (__init__ true 3) <> RUNNING) by discriminate.
  assert (H2 : _state (__init__ true 3) = STOPPED
               -> init_failure all_well = None) by reflexivity.
  assert (H3 : Forall (fun na =>
                 fst (BaseAgent.start (on_start all_well (fst na)) (snd na))
                 = true)
                 (_agents (initialized all_well (__init__ true 3))))
    by (repeat constructor).
  destruct (start_brings_all_up all_well (__init__ true 3) H1 H2 H3)
    as (R1 & R2 & _ & _ & _ & R3 & _).
  exact (conj R1 (conj R2 R3)).
Defined.

(** X20.  On a new orchestrator whose initialisation fails (the
    bus cannot be started, or a constructor of an agent raises) [start]
    returns failure and leaves the orchestrator in [ERROR] without agents
    and without having started or stopped anything.  [initialize] then
    refuses to run again, and a second [start] skips initialisation: with
    no agent to start it returns success and the orchestrator is [RUNNING]
    with no agents. *)
Theorem start_after_failed_initialize (auto_restart : bool) (max_restart : Z)
    (env env' : Env) (f : InitFailure) :
  init_failure env = Some f ->
  let o1 := snd (start env (__init__ auto_restart max_restart)) in
  let o2 := snd (start env' o1) in
  fst (start env (__init__ auto_restart max_restart)) = false
  /\ _state o1 = ERROR /\ _agents o1 = [] /\ trace o1 = []
  /\ initialize env' o1 = (false, o1)
  /\ fst (start env' o1) = true
  /\ _state o2 = RUNNING /\ _agents o2 = [] /\ trace o2 = []
  /\ _health_check_task o2 = true.
Proof.
  intros Hf. unfold start at 1 3. cbn [_state __init__].
  rewrite decide_False by discriminate. rewrite decide_True by done.
  unfold initialize. cbn [_state __init__].
  rewrite decide_True by done. rewrite Hf.
  destruct f; cbn; now repeat split.
Qed.

Lemma start_after_failed_initialize_witness :
  let env := {| init_failure := Some BusFails;
                on_start := fun _ => BaseAgent.HookOk;
                on_stop := fun _ => BaseAgent.HookOk |} in
  let o1 := snd (start env (__init__ true 3)) in
  fst (start env (__init__ true 3)) = false
  /\ fst (start all_well o1) = true
  /\ _agents (snd (start all_well o1)) = [].
Proof.
  intros env o1.
  assert (Hf : init_failure env = Some BusFails) by reflexivity.
  destruct (start_after_failed_initialize true 3 env all_well BusFails Hf)
    as (R1 & _ & _ & _ & _ & R2 & _ & R3 & _).
  exact (conj R1 (conj R2 R3)).
Defined.

(** ** Stopping *)

Lemma stop_all_spec (env : Env) (ags : list (string * BaseAgent.Agent)) :
  Forall (fun na =>
            BaseAgent._state (snd na) = BaseAgent.STOPPED
            \/ BaseAgent._state (snd na) = BaseAgent.ERROR
               /\ exists e, on_stop env (fst na) = BaseAgent.HookRaises e)
         (agents_of (stop_all env ags)).
Proof.
  induction ags as [|[n a] ags IH]; [constructor|].
  change (agents_of (stop_all env ((n, a) :: ags)))
    with ((n, snd (BaseAgent.stop (on_stop env n) a))
          :: agents_of (stop_all env ags)).
  constructor; [|exact IH]. cbn [fst snd].
  apply (agent_stop_state (on_stop env n) a).
Qed.

Lemma stop_stopped (env : Env) (o : Orch) :
  _state o = STOPPED -> stop env o = (true, o).
Proof. intros H. unfold stop. now rewrite decide_True. Qed.

Lemma stop_not_stopped (env : Env) (o : Orch) :
  _state o <> STOPPED ->
  stop env o
  = (true,
     with_state STOPPED
       (with_bus false []
          (with_agents (agents_of (stop_all env (_agents o)))
             (log (map (fun r => StopAgent (fst r) (fst (snd r)))
                       (stop_all env (_agents o)))
                (with_health_check false true (with_state STOPPING o)))))).
Proof. intros H. unfold stop. now rewrite decide_False. Qed.

(** X21.  [stop] on the orchestrator always returns success, also when
    the shutdown hook of an agent raises, and always leaves the
    orchestrator [STOPPED] with the same agent names.  When the
    orchestrator was not already [STOPPED], the health check is cancelled,
    the shutdown signal is set, the handlers of the orchestrator are
    unsubscribed and the bus is shut down, [stop] has been called once on
    every agent in order, and every agent is [STOPPED], or in [ERROR] if
    its shutdown hook raised.  A second [stop] does nothing. *)
Theorem stop_always_succeeds (env env' : Env) (o : Orch) :
  let o' := snd (stop env o) in
  fst (stop env o) = true
  /\ _state o' = STOPPED
  /\ map fst (_agents o') = map fst (_agents o)
  /\ (_state o <> STOPPED ->
      _health_check_task o' = false
      /\ _shutdown_event o' = true
      /\ _registered_handlers o' = []
      /\ bus_started o' = false
      /\ Forall (fun na =>
                   BaseAgent._state (snd na) = BaseAgent.STOPPED
                   \/ BaseAgent._state (snd na) = BaseAgent.ERROR
                      /\ exists e,
                           on_stop env (fst na) = BaseAgent.HookRaises e)
                (_agents o')
      /\ trace o'
         = trace o
           ++ map (fun na =>
                     StopAgent (fst na)
                       (fst (BaseAgent.stop (on_stop env (fst na)) (snd na))))
                  (_agents o))
  /\ stop env' o' = (true, o').
Proof.
  intros o'. subst o'.
  destruct (decide (_state o = STOPPED)) as [Hs|Hs].
  - rewrite (stop_stopped env o Hs). cbn [fst snd].
    repeat split; try done. now apply stop_stopped.
  - rewrite (stop_not_stopped env o Hs).
    cbn [fst snd _state _agents trace with_state with_health_check log
         with_agents with_bus _health_check_task _shutdown_event
         _registered_handlers bus_started].
    split; [done|]. split; [done|].
    split; [apply OrchestratorFacts.stop_all_names|].
    split.
    + intros _. repeat split; try done; [apply stop_all_spec|].
      f_equal. unfold stop_all. rewrite map_map. apply map_ext.
      now intros [n a].
    + now apply stop_stopped.
Qed.

(** ** Pausing and resuming *)

Lemma agent_pause_state (a : BaseAgent.Agent) :
  BaseAgent._state (BaseAgent.pause a)
  = if decide (BaseAgent._state a = BaseAgent.RUNNING)
    then BaseAgent.PAUSED else BaseAgent._state a.
Proof. unfold BaseAgent.pause. now destruct (decide _). Qed.

Lemma agent_resume_state (a : BaseAgent.Agent) :
  BaseAgent._state (BaseAgent.resume a)
  = if decide (BaseAgent._state a = BaseAgent.PAUSED)
    then BaseAgent.RUNNING else BaseAgent._state a.
Proof. unfold BaseAgent.resume. now destruct (decide _). Qed.

Lemma pause_running (o : Orch) :
  _state o = RUNNING ->
  pause o
  = with_state PAUSED
      (with_agents
         (map (fun na => (fst na, BaseAgent.pause (snd na))) (_agents o)) o).
Proof. intros H. unfold pause. now rewrite decide_True. Qed.

Lemma resume_paused (o : Orch) :
  _state o = PAUSED ->
  resume o
  = with_state RUNNING
      (with_agents
         (map (fun na => (fst na, BaseAgent.resume (snd na))) (_agents o)) o).
Proof. intros H. unfold resume. now rewrite decide_True. Qed.

(** X22.  [pause] on a running orchestrator leaves it [PAUSED] and
    pauses every agent that was [RUNNING], so that no agent is [RUNNING]
    afterwards; agents in other states keep their state.  [resume] then
    leaves the orchestrator [RUNNING] and every agent in the state it had
    before the pause, except that an agent that had been paused on its own
    is now [RUNNING] too: no agent is [PAUSED].  Names, restart counts and
    the trace of the orchestrator are unchanged.  [pause] when not
    [RUNNING] and [resume] when not [PAUSED] do nothing. *)
Theorem pause_then_resume (o : Orch) :
  _state o = RUNNING ->
  let p := pause o in
  let r := resume p in
  _state p = PAUSED
  /\ agent_states p
     = map (fun s => if decide (s = BaseAgent.RUNNING)
                     then BaseAgent.PAUSED else s) (agent_states o)
  /\ Forall (fun s => s <> BaseAgent.RUNNING) (agent_states p)
  /\ _state r = RUNNING
  /\ agent_states r
     = map (fun s => if decide (s = BaseAgent.PAUSED)
                     then BaseAgent.RUNNING else s) (agent_states o)
  /\ Forall (fun s => s <> BaseAgent.PAUSED) (agent_states r)
  /\ map fst (_agents r) = map fst (_agents o)
  /\ _agent_restart_counts r = _agent_restart_counts o
  /\ trace r = trace o
  /\ pause p = p
  /\ resume o = o.
Proof.
  intros Hs p r. subst r p.
  rewrite (pause_running o Hs).
  rewrite resume_paused by done.
  cbn [_state _agents trace with_state with_agents _agent_restart_counts].
  unfold agent_states.
  cbn [_state _agents trace with_state with_agents _agent_restart_counts].
  rewrite !map_map. cbn [fst snd].
  assert (P : forall na : string * BaseAgent.Agent,
             BaseAgent._state (BaseAgent.pause (snd na))
             = (if decide (BaseAgent._state (snd na) = BaseAgent.RUNNING)
                then BaseAgent.PAUSED else BaseAgent._state (snd na)))
    by (intros na; apply agent_pause_state).
  assert (R : forall na : string * BaseAgent.Agent,
             BaseAgent._state (BaseAgent.resume (BaseAgent.pause (snd na)))
             = (if decide (BaseAgent._state (snd na) = BaseAgent.PAUSED)
                then BaseAgent.RUNNING else BaseAgent._state (snd na))).
  { intros na. rewrite agent_resume_state, agent_pause_state.
    now destruct (BaseAgent._state (snd na)). }
  split; [done|]. split; [now apply map_ext|].
  split.
  { apply List.Forall_forall. intros s Hin. apply in_map_iff in Hin as (na & <- & _).
    rewrite P. now destruct (BaseAgent._state (snd na)). }
  split; [done|]. split; [now apply map_ext|].
  split.
  { apply List.Forall_forall. intros s Hin. apply in_map_iff in Hin as (na & <- & _).
    rewrite R. now destruct (BaseAgent._state (snd na)). }
  split; [now apply map_ext|]. split; [done|]. split; [done|].
  split.
  - unfold pause. cbn [_state with_state]. now rewrite decide_False.
  - unfold resume. rewrite decide_False; [done|]. rewrite Hs. discriminate.
Qed.

Lemma pause_then_resume_witness :
  let o := snd (start all_well (__init__ true 3)) in
  _state o = RUNNING
  /\ _state (pause o) = PAUSED
  /\ Forall (fun s => s <> BaseAgent.RUNNING) (agent_states (pause o))
  /\ _state (resume (pause o)) = RUNNING.
Proof.
  intros o.
  assert (H : _state o = RUNNING) by reflexivity.
  destruct (pause_then_resume o H) as (R1 & _ & R2 & R3 & _).
  exact (conj H (conj R1 (conj R2 R3))).
Defined.

Lemma stop_always_succeeds_witness :
  let o := snd (start all_well (__init__ true 3)) in
  let o' := snd (stop all_well o) in
  _state o <> STOPPED
  /\ fst (stop all_well o) = true
  /\ _state o' = STOPPED
  /\ _health_check_task o' = false
  /\ _registered_handlers o' = [].
Proof.
  intros o o'.
  assert (H : _state o <> STOPPED) by discriminate.
  destruct (stop_always_succeeds all_well all_well o) as (R1 & R2 & _ & R3 & _).
  destruct (R3 H) as (R4 & _ & R5 & _).
  exact (conj H (conj R1 (conj R2 (conj R4 R5)))).
Defined.

(** ** The health check *)

Lemma restart_count_insert (name n : string) (v : Z) (o : Orch) :
  restart_count n
    (with_restart_counts (<[name := v]> (_agent_restart_counts o)) o)
  = if decide (name = n) then v else restart_count n o.
Proof.
  unfold restart_count. cbn [_agent_restart_counts with_restart_counts].
  destruct (decide (name = n)) as [->|N].
  - now rewrite lookup_insert_eq.
  - now rewrite lookup_insert_ne.
Qed.

(** What the restart procedure leaves alone, and how far it moves the
    restart counts. *)
Lemma _handle_agent_failure_frame (env : Env) (name : string)
    (agent : BaseAgent.Agent) (o : Orch) :
  let o' := snd (_handle_agent_failure env name agent o) in
  _state o' = _state o
  /\ auto_restart_agents o' = auto_restart_agents o
  /\ max_restart_attempts o' = max_restart_attempts o
  /\ _agents o' = _agents o
  /\ _shutdown_event o' = _shutdown_event o
  /\ _health_check_task o' = _health_check_task o
  /\ forall n,
       restart_count n o <= restart_count n o'
       /\ restart_count n o'
          <= Z.max (restart_count n o) (max_restart_attempts o).
Proof.
  unfold _handle_agent_failure.
  destruct (auto_restart_agents o) eqn:Ea; cbn [negb];
    [|cbn [snd]; repeat split; try done; lia].
  fold (restart_count name o).
  destruct (Z.leb_spec (max_restart_attempts o) (restart_count name o));
    [cbn [snd]; repeat split; try done;
     unfold restart_count; cbn [_agent_restart_counts log]; lia|].
  destruct (BaseAgent.stop (on_stop env name) agent) as [stopped a1].
  destruct (BaseAgent.start (on_start env name) a1) as [success a2].
  assert (forall n,
    restart_count n o
    <= restart_count n
         (with_restart_counts
            (<[name := restart_count name o + 1]>
               (_agent_restart_counts
                  (log [StartAgent name success]
                     (log [StopAgent name stopped; Cooldown] o))))
            (log [StartAgent name success]
               (log [StopAgent name stopped; Cooldown] o)))
    <= Z.max (restart_count n o) (max_restart_attempts o)) as Hc.
  { intros n. rewrite restart_count_insert.
    destruct (decide (name = n)) as [->|N]; [lia|].
    unfold restart_count. cbn. lia. }
  destruct success; cbn [snd]; repeat split; try done; apply Hc.
Qed.

Lemma check_agents_spec (env : Env) (ags : list (string * BaseAgent.Agent))
    (o : Orch) :
  let ags' := fst (check_agents env ags o) in
  let o' := snd (check_agents env ags o) in
  map fst ags' = map fst ags
  /\ _state o' = _state o
  /\ auto_restart_agents o' = auto_restart_agents o
  /\ max_restart_attempts o' = max_restart_attempts o
  /\ _shutdown_event o' = _shutdown_event o
  /\ _health_check_task o' = _health_check_task o
  /\ (forall n,
         restart_count n o <= restart_count n o'
         /\ restart_count n o'
            <= Z.max (restart_count n o) (max_restart_attempts o))
  /\ (forall (i : nat) (n : string) (a : BaseAgent.Agent),
         ags !! i = Some (n, a) ->
         needs_restart (_state o) a = false ->
         ags' !! i = Some (n, a)).
Proof.
  revert o. induction ags as [|[n a] ags IH]; intros o.
  - cbn. repeat split; try done; lia.
  - cbn [check_agents].
    set (step := if decide (BaseAgent._state a = BaseAgent.ERROR)
                 then _handle_agent_failure env n a o
                 else if bool_decide (BaseAgent._state a = BaseAgent.STOPPED)
                         && bool_decide (_state o = RUNNING)
                      then _handle_agent_failure env n a o
                      else (a, o)).
    assert (Hstep :
      (step = _handle_agent_failure env n a o
       /\ needs_restart (_state o) a = true)
      \/ (step = (a, o) /\ needs_restart (_state o) a = false)).
    { subst step. unfold needs_restart.
      destruct (decide (BaseAgent._state a = BaseAgent.ERROR)) as [He|He].
      - left. now rewrite bool_decide_eq_true_2.
      - rewrite (bool_decide_eq_false_2 _ He). cbn [orb].
        destruct (bool_decide (BaseAgent._state a = BaseAgent.STOPPED)
                  && bool_decide (_state o = RUNNING)); [now left|now right]. }
    assert (Hf : let o1 := snd step in
      _state o1 = _state o
      /\ auto_restart_agents o1 = auto_restart_agents o
      /\ max_restart_attempts o1 = max_restart_attempts o
      /\ _shutdown_event o1 = _shutdown_event o
      /\ _health_check_task o1 = _health_check_task o
      /\ forall m,
           restart_count m o <= restart_count m o1
           /\ restart_count m o1
              <= Z.max (restart_count m o) (max_restart_attempts o)).
    { destruct Hstep as [[-> _]|[-> _]].
      - destruct (_handle_agent_failure_frame env n a o)
          as (F1 & F2 & F3 & _ & F5 & F6 & F7). now repeat split; try apply F7.
      - cbn. repeat split; try done; lia. }
    destruct step as [a1 o1] eqn:Es. cbn [snd] in Hf.
    destruct Hf as (F1 & F2 & F3 & F5 & F6 & F7).
    specialize (IH o1). destruct (check_agents env ags o1) as [rest o2].
    cbn [fst snd] in IH |- *.
    destruct IH as (I1 & I2 & I3 & I4 & I5 & I6 & I7 & I8).
    split; [cbn; now rewrite I1|].
    split; [congruence|]. split; [congruence|]. split; [congruence|].
    split; [congruence|]. split; [congruence|].
    split.
    + intros m. specialize (F7 m). specialize (I7 m). rewrite F3 in I7. lia.
    + intros [|i] m b Hl Hn.
      * cbn in Hl |- *. injection Hl as -> ->.
        destruct Hstep as [[_ Ht]|[E _]]; [congruence|]. congruence.
      * cbn in Hl |- *. apply I8; [done|]. now rewrite F1.
Qed.

(** X23.  One pass of the health check keeps the names and the order
    of the agents, the state and the configuration of the orchestrator;
    every agent that is neither in [ERROR] nor [STOPPED] under a running
    orchestrator is left exactly as it was; no restart count decreases, and
    none grows beyond [max_restart_attempts] (or beyond its previous value
    if that was larger already).  After the shutdown signal the pass does
    nothing. *)
Theorem health_check_invariants (env : Env) (o : Orch) :
  let o' := health_check env o in
  map fst (_agents o') = map fst (_agents o)
  /\ _state o' = _state o
  /\ auto_restart_agents o' = auto_restart_agents o
  /\ max_restart_attempts o' = max_restart_attempts o
  /\ (forall (i : nat) (n : string) (a : BaseAgent.Agent),
         _agents o !! i = Some (n, a) ->
         needs_restart (_state o) a = false ->
         _agents o' !! i = Some (n, a))
  /\ (forall n,
         restart_count n o <= restart_count n o'
         /\ restart_count n o'
            <= Z.max (restart_count n o) (max_restart_attempts o))
  /\ (_shutdown_event o = true -> o' = o).
Proof.
  unfold health_check.
  destruct (_shutdown_event o) eqn:Esh.
  - cbn. repeat split; try done; lia.
  - pose proof (check_agents_spec env (_agents o) o) as Hc.
    destruct (check_agents env (_agents o) o) as [ags o1].
    cbn [fst snd] in Hc.
    destruct Hc as (C1 & C2 & C3 & C4 & _ & _ & C7 & C8).
    cbn [_agents with_agents _state auto_restart_agents max_restart_attempts].
    repeat split; try done; try apply C7.
Qed.

Lemma health_check_invariants_witness :
  let o := classification_in_error in
  let o' := health_check all_well o in
  map fst (_agents o') = map fst (_agents o)
  /\ exists a, _agents o !! 0%nat = Some ("request_monitor", a)
               /\ needs_restart (_state o) a = false
               /\ _agents o' !! 0%nat = Some ("request_monitor", a).
Proof.
  intros o o'.
  destruct (health_check_invariants all_well o) as (R1 & _ & _ & _ & R2 & _).
  split; [exact R1|].
  eexists. split; [reflexivity|]. split; [reflexivity|].
  apply R2; reflexivity.
Defined.

(** ** What a restart does to the agent *)

Lemma agent_start_counters (h : BaseAgent.HookResult) (a : BaseAgent.Agent) :
  let m := BaseAgent._metrics a in
  let m' := BaseAgent._metrics (snd (BaseAgent.start h a)) in
  BaseAgent.total_runs m' = BaseAgent.total_runs m
  /\ BaseAgent.successful_runs m' = BaseAgent.successful_runs m
  /\ BaseAgent.failed_runs m' = BaseAgent.failed_runs m
  /\ BaseAgent.total_items_processed m' = BaseAgent.total_items_processed m.
Proof.
  unfold BaseAgent.start.
  destruct (bool_decide _); [|done]. now destruct h.
Qed.

(** X24.  A pass of the restart procedure that does restart (auto
    restart enabled, count below the bound) carries the run counters of the
    agent over.  If the start hook returns, the agent comes out [RUNNING]
    with run loop and heartbeat scheduled, the shutdown signal cleared, the
    pause released and its error log unchanged, whatever state it was in
    and whether or not its shutdown hook raised.  If the start hook raises,
    the agent comes out in [ERROR] with a [start_failed] entry added to its
    error log. *)
Theorem restart_outcome (env : Env) (name : string) (agent : BaseAgent.Agent)
    (o : Orch) :
  auto_restart_agents o = true ->
  restart_count name o < max_restart_attempts o ->
  let a' := fst (_handle_agent_failure env name agent o) in
  BaseAgent.total_runs (BaseAgent._metrics a')
  = BaseAgent.total_runs (BaseAgent._metrics agent)
  /\ BaseAgent.successful_runs (BaseAgent._metrics a')
     = BaseAgent.successful_runs (BaseAgent._metrics agent)
  /\ BaseAgent.failed_runs (BaseAgent._metrics a')
     = BaseAgent.failed_runs (BaseAgent._metrics agent)
  /\ match on_start env name with
     | BaseAgent.HookOk =>
         BaseAgent._state a' = BaseAgent.RUNNING
         /\ BaseAgent.run_loop_active a' = true
         /\ BaseAgent.heartbeat_active a' = true
         /\ BaseAgent._shutdown_event a' = false
         /\ BaseAgent._pause_event a' = true
         /\ BaseAgent.errors (BaseAgent._metrics a')
            = BaseAgent.errors (BaseAgent._metrics agent)
     | BaseAgent.HookRaises e =>
         BaseAgent._state a' = BaseAgent.ERROR
         /\ BaseAgent.errors (BaseAgent._metrics a')
            = BaseAgent.errors
                (BaseAgent._metrics
                   (BaseAgent._add_error "start_failed" e agent))
     end.
Proof.
  intros Ha Hc. unfold _handle_agent_failure. rewrite Ha. cbn [negb].
  fold (restart_count name o).
  destruct (Z.leb_spec (max_restart_attempts o) (restart_count name o));
    [lia|].
  pose proof (agent_stop_state (on_stop env name) agent) as (Hst & Hm).
  destruct (BaseAgent.stop (on_stop env name) agent) as [stopped a1].
  cbn [snd] in Hst, Hm.
  assert (Hs : BaseAgent._state a1 = BaseAgent.STOPPED
               \/ BaseAgent._state a1 = BaseAgent.ERROR) by tauto.
  pose proof (agent_start_counters (on_start env name) a1) as (K1 & K2 & K3 & _).
  pose proof (agent_start_true (on_start env name) a1) as Ht.
  pose proof (fun e => agent_start_raises e a1 Hs) as Hr.
  pose proof (agent_start_ok a1 Hs) as Hok.
  destruct (on_start env name) as [|e].
  - specialize (Ht Hok).
    destruct (BaseAgent.start BaseAgent.HookOk a1) as [success a2].
    cbn [fst snd] in *. destruct Ht as (T1 & T2 & T3 & T4 & T5 & T6).
    rewrite <- Hm.
    destruct success; cbn [fst]; repeat split; congruence.
  - specialize (Hr e). clear Ht.
    destruct (BaseAgent.start (BaseAgent.HookRaises e) a1) as [success a2].
    cbn [fst snd] in *. destruct Hr as (R1 & R2 & R3).
    rewrite <- Hm.
    assert (BaseAgent.errors (BaseAgent._metrics a2)
            = BaseAgent.errors
                (BaseAgent._metrics
                   (BaseAgent._add_error "start_failed" e agent))) as He.
    { rewrite R3. unfold BaseAgent._add_error. cbn. now rewrite Hm. }
    destruct success; cbn [fst]; repeat split; congruence.
Qed.

Lemma restart_outcome_witness :
  let o := classification_in_error in
  let a' := fst (_handle_agent_failure all_well "classification"
                   failed_agent o) in
  auto_restart_agents o = true
  /\ restart_count "classification" o < max_restart_attempts o
  /\ BaseAgent._state a' = BaseAgent.RUNNING
  /\ BaseAgent.errors (BaseAgent._metrics a')
     = BaseAgent.errors (BaseAgent._metrics failed_agent).
Proof.
  intros o.
  assert (H1 : auto_restart_agents o = true) by reflexivity.
  assert (H2 : restart_count "classification" o < max_restart_attempts o)
    by (vm_compute; reflexivity).
  destruct (restart_outcome all_well "classification" failed_agent o H1 H2)
    as (_ & _ & _ & R).
  cbn [on_start all_well] in R. destruct R as (R1 & _ & _ & _ & _ & R2).
  exact (conj H1 (conj H2 (conj R1 R2))).
Defined.

(** ** Starting again after a stop *)

Lemma agent_stop_counters (h : BaseAgent.HookResult) (a : BaseAgent.Agent) :
  BaseAgent._metrics (snd (BaseAgent.stop h a)) = BaseAgent._metrics a.
Proof. apply agent_stop_state. Qed.






End OrchestratorExtra.

(* ===================================================================== *)
(** * Python slices and list filters *)
(* ===================================================================== *)

Module PyFacts.

Lemma slice_to_take {A : Type} (n : Z) (l : list A) :
  0 <= n -> Py.slice_to n l = take (Z.to_nat n) l.
Proof.
  intros Hn. unfold Py.slice_to.
  destruct (Z.ltb_spec n 0) as [H|_]; [lia|].
  destruct (Z.le_ge_cases n (Z.of_nat (length l))) as [H|H].
  - now rewrite Z.min_l.
  - rewrite Z.min_r by done. rewrite Nat2Z.id.
    rewrite firstn_all. symmetry. apply take_ge. lia.
Qed.

Lemma slice_to_sublist {A : Type} (n : Z) (l : list A) :
  Py.slice_to n l `sublist_of` l.
Proof. apply sublist_take. Qed.

Lemma slice_to_length {A : Type} (n : Z) (l : list A) :
  0 <= n -> Z.of_nat (length (Py.slice_to n l)) <= n.
Proof.
  intros Hn. unfold Py.slice_to.
  destruct (Z.ltb_spec n 0) as [H|_]; [lia|].
  rewrite length_take. lia.
Qed.

Lemma filter_sublist {A : Type} (f : A -> bool) (l : list A) :
  List.filter f l `sublist_of` l.
Proof.
  induction l as [|x l IH]; [constructor|]. cbn [List.filter].
  destruct (f x); [now apply sublist_skip|now apply sublist_cons].
Qed.

Lemma filter_andb {A : Type} (f g : A -> bool) (l : list A) :
  List.filter (fun x => f x && g x) l = List.filter g (List.filter f l).
Proof.
  induction l as [|x l IH]; [done|]. cbn [List.filter].
  destruct (f x); cbn [andb List.filter]; [|exact IH].
  destruct (g x); now rewrite IH.
Qed.

End PyFacts.

(* ===================================================================== *)
(** * Properties of the job queue of the retrieval and classification
      agents *)
(* ===================================================================== *)

Module RetrievalAgentExtra.
Import EventBus RetrievalAgent.

(** ** One job per cycle *)

Lemma processed_app (t u : list Action) :
  processed (t ++ u) = processed t ++ processed u.
Proof. apply omap_app. Qed.

Lemma run_idle (process : Job -> JobResult) (a : Agent) :
  _active_job a = None -> _pending_jobs a = [] ->
  run process a = (BaseAgent.Return true, a).
Proof. intros Ha Hp. unfold run. now rewrite Ha, Hp. Qed.

Lemma run_pops (process : Job -> JobResult) (a : Agent) (job : Job)
    (rest : list Job) :
  _active_job a = None -> _pending_jobs a = job :: rest ->
  process job <> Cancelled ->
  let a' := snd (run process a) in
  _active_job a' = None
  /\ _pending_jobs a' = rest
  /\ processed (trace a') = processed (trace a) ++ [job]
  /\ fst (run process a)
     = match process job with
       | Fails e => BaseAgent.Raise e
       | _ => BaseAgent.Return true
       end.
Proof.
  intros Ha Hp Hc. unfold run. rewrite Ha, Hp.
  cbn [_active_job log with_active with_pending].
  destruct (process job) as [|e|]; [| |done];
    cbn [fst snd _active_job _pending_jobs trace log with_active with_pending];
    rewrite !processed_app; cbn; now rewrite ?app_nil_r.
Qed.

Lemma run_active (process : Job -> JobResult) (a : Agent) (job : Job) :
  _active_job a = Some job ->
  let a' := snd (run process a) in
  _pending_jobs a' = _pending_jobs a
  /\ processed (trace a') = processed (trace a) ++ [job]
  /\ _active_job a'
     = match process job with Cancelled => Some job | _ => None end.
Proof.
  intros Ha. unfold run. rewrite Ha.
  destruct (_pending_jobs a) as [|j l] eqn:Hp; rewrite ?Ha;
    destruct (process job) as [|e|];
    cbn [fst snd _active_job _pending_jobs trace log with_active with_pending];
    rewrite ?processed_app; cbn; rewrite ?app_nil_r; now repeat split.
Qed.

Lemma cycles_spec (process : Job -> JobResult) (n : nat) (a : Agent) :
  _active_job a = None ->
  (forall job, In job (_pending_jobs a) -> process job <> Cancelled) ->
  let a' := cycles process n a in
  _active_job a' = None
  /\ _pending_jobs a' = drop n (_pending_jobs a)
  /\ processed (trace a') = processed (trace a) ++ take n (_pending_jobs a).
Proof.
  revert a. induction n as [|n IH]; intros a Ha Hc.
  - cbn. rewrite drop_0, app_nil_r. now repeat split.
  - cbn [cycles]. destruct (_pending_jobs a) as [|job rest] eqn:Hp.
    + rewrite run_idle by done. cbn [snd].
      destruct (IH a Ha) as (I1 & I2 & I3).
      { intros job Hin. rewrite Hp in Hin. destruct Hin. }
      rewrite Hp in I2, I3. rewrite I2, I3.
      now rewrite drop_nil, take_nil.
    + destruct (run_pops process a job rest Ha Hp) as (R1 & R2 & R3 & _).
      { apply Hc. now left. }
      destruct (IH (snd (run process a)) R1) as (I1 & I2 & I3).
      { intros j Hj. apply Hc. right. now rewrite R2 in Hj. }
      rewrite I1, I2, I3, R2, R3. cbn [drop take].
      now rewrite <- app_assoc.
Qed.

(** X26.  The three agents with a job queue (document retrieval, email
    retrieval, classification) take one job per cycle, oldest first: when
    no job is active and no cycle is cancelled, [n] cycles hand exactly the
    first [n] pending jobs to the processing coroutine, each once and in
    the order they were queued, whether a job succeeds or raises, and
    leave the others pending with no job active.  A job whose processing
    raised is therefore not taken up again; a cycle on an empty queue does
    nothing; a job queued by a handler goes to the end. *)
Theorem cycles_take_jobs_in_order (process : Job -> JobResult) (n : nat)
    (a : Agent) :
  _active_job a = None ->
  (forall job, In job (_pending_jobs a) -> process job <> Cancelled) ->
  let a' := cycles process n a in
  _active_job a' = None
  /\ _pending_jobs a' = drop n (_pending_jobs a)
  /\ processed (trace a') = processed (trace a) ++ take n (_pending_jobs a)
  /\ (_pending_jobs a = [] -> run process a = (BaseAgent.Return true, a))
  /\ (forall job,
         _pending_jobs (_handle_retrieval_started job a)
         = _pending_jobs a ++ [job]).
Proof.
  intros Ha Hc.
  destruct (cycles_spec process n a Ha Hc) as (C1 & C2 & C3).
  repeat split; try done. intros Hp. now apply run_idle.
Qed.

Lemma cycles_take_jobs_in_order_witness :
  let j1 := {| request_id := Some 1; content := "sites" |} in
  let j2 := {| request_id := Some 2; content := "sites" |} in
  let j3 := {| request_id := Some 3; content := "sites" |} in
  let process := fun job =>
    if bool_decide (request_id job = Some 1) then Fails "timeout" else Done in
  let a := _handle_retrieval_started j3
             (_handle_retrieval_started j2
                (_handle_retrieval_started j1 __init__)) in
  processed (trace (cycles process 2 a)) = [j1; j2]
  /\ _pending_jobs (cycles process 2 a) = [j3].
Proof.
  intros j1 j2 j3 process a.
  assert (Ha : _active_job a = None) by reflexivity.
  assert (Hc : forall job, In job (_pending_jobs a) -> process job <> Cancelled).
  { intros job Hin. subst process. cbn. now destruct (bool_decide _). }
  destruct (cycles_take_jobs_in_order process 2 a Ha Hc) as (_ & R2 & R3 & _).
  split; [exact R3|exact R2].
Defined.

(** ** Cancelling a request *)

Lemma cancel_pending (rid : option Z) (a : Agent) :
  Forall (fun job => request_id job <> rid)
         (_pending_jobs (_handle_request_cancelled rid a)).
Proof.
  unfold _handle_request_cancelled. cbn [_pending_jobs with_pending].
  apply List.Forall_forall. intros job Hin.
  apply filter_In in Hin as [_ Hin].
  apply negb_true_iff, bool_decide_eq_false in Hin. exact Hin.
Qed.

(** X27.  Cancelling a request removes every pending job of that
    request from the queue and keeps the other jobs in their order, so
    that (no job being active, no cycle cancelled) no later cycle
    processes a job of the cancelled request; a job queued for the request
    after the cancellation is pending again.  The job that is active at
    the time of the cancellation is not stopped: it stays the active job
    and the cycle processes it. *)
Theorem cancel_drops_pending_jobs (process : Job -> JobResult)
    (rid : option Z) (n : nat) (a : Agent) :
  (forall job, In job (_pending_jobs a) -> process job <> Cancelled) ->
  let a' := _handle_request_cancelled rid a in
  Forall (fun job => request_id job <> rid) (_pending_jobs a')
  /\ (forall job,
         In job (_pending_jobs a) -> request_id job <> rid ->
         In job (_pending_jobs a'))
  /\ _pending_jobs a' `sublist_of` _pending_jobs a
  /\ (_active_job a = None ->
      exists later,
        processed (trace (cycles process n a'))
        = processed (trace a) ++ later
        /\ Forall (fun job => request_id job <> rid) later)
  /\ (forall job,
         _active_job a = Some job ->
         _active_job a' = Some job
         /\ processed (trace (snd (run process a')))
            = processed (trace a) ++ [job])
  /\ (forall job,
         In job (_pending_jobs (_handle_retrieval_started job a'))).
Proof.
  intros Hc a'.
  pose proof (cancel_pending rid a) as Hp. fold a' in Hp.
  split; [exact Hp|]. split.
  { intros job Hin Hr. subst a'. unfold _handle_request_cancelled.
    cbn [_pending_jobs with_pending]. apply filter_In. split; [done|].
    now apply negb_true_iff, bool_decide_eq_false. }
  split.
  { subst a'. unfold _handle_request_cancelled.
    cbn [_pending_jobs with_pending].
    apply PyFacts.filter_sublist. }
  split.
  { intros Ha.
    destruct (cycles_spec process n a') as (_ & _ & C3); [exact Ha| |].
    { intros job Hin. apply Hc. subst a'. unfold _handle_request_cancelled in Hin.
      cbn [_pending_jobs with_pending] in Hin.
      now apply filter_In in Hin as [Hin _]. }
    exists (take n (_pending_jobs a')). split; [exact C3|].
    now apply Forall_take. }
  split.
  { intros job Ha. split; [exact Ha|].
    now destruct (run_active process a' job Ha) as (_ & R & _). }
  intros job. unfold _handle_retrieval_started.
  cbn [_pending_jobs with_pending]. apply in_or_app. right. now left.
Qed.

Lemma cancel_drops_pending_jobs_witness :
  let j1 := {| request_id := Some 1; content := "sites" |} in
  let j2 := {| request_id := Some 2; content := "sites" |} in
  let j3 := {| request_id := Some 1; content := "mailboxes" |} in
  let a := _handle_retrieval_started j3
             (_handle_retrieval_started j2
                (_handle_retrieval_started j1 __init__)) in
  let a' := _handle_request_cancelled (Some 1) a in
  _active_job a = None
  /\ Forall (fun job => request_id job <> Some 1) (_pending_jobs a')
  /\ exists later,
       processed (trace (cycles (fun _ => Done) 3 a')) = [] ++ later
       /\ Forall (fun job => request_id job <> Some 1) later.
Proof.
  intros j1 j2 j3 a a'.
  assert (Hc : forall job, In job (_pending_jobs a)
                           -> (fun _ : Job => Done) job <> Cancelled)
    by (intros; discriminate).
  destruct (cancel_drops_pending_jobs (fun _ => Done) (Some 1) 3%nat a Hc)
    as (R1 & _ & _ & R2 & _).
  split; [reflexivity|]. split; [exact R1|].
  apply R2. reflexivity.
Defined.

(** ** File names *)

Lemma is_invalid_spec (c : N) : is_invalid c = true <-> In c invalid_chars.
Proof.
  unfold is_invalid. rewrite existsb_exists. split.
  - intros (i & Hin & E). apply N.eqb_eq in E. now subst.
  - intros Hin. exists c. split; [done|]. apply N.eqb_refl.
Qed.

Lemma is_invalid_false (c : N) : is_invalid c = false <-> ~ In c invalid_chars.
Proof.
  rewrite <- is_invalid_spec. now destruct (is_invalid c).
Qed.

(** The nine replacements amount to one pass over the name. *)
Lemma replace_invalid_chars (filename : list N) :
  foldl (fun filename char => replace char underscore filename)
        filename invalid_chars
  = map (fun c => if is_invalid c then underscore else c) filename.
Proof.
  unfold invalid_chars. cbn [foldl]. unfold replace. rewrite !map_map.
  apply map_ext. intros c. unfold is_invalid, invalid_chars. cbn [existsb].
  repeat match goal with
  | |- context [(c =? ?k)%N] =>
      destruct (N.eqb_spec c k) as [->|?]; [vm_compute; reflexivity|]
  end.
  reflexivity.
Qed.

Lemma _sanitize_filename_unfold (filename : list N) :
  _sanitize_filename filename
  = take 255 (map (fun c => if is_invalid c then underscore else c) filename).
Proof.
  unfold _sanitize_filename. rewrite replace_invalid_chars.
  now rewrite PyFacts.slice_to_take.
Qed.

(** X28.  [_sanitize_filename] returns the first 255 characters of
    the name with each of the nine characters of [invalid_chars] replaced
    by an underscore and every other character kept in its place: the
    result has the length of the name or 255, whichever is less, contains
    none of the nine characters, is left unchanged by a second pass, and is
    the name itself when the name is clean and not longer than 255
    characters. *)
Theorem _sanitize_filename_safe (filename : list N) :
  let r := _sanitize_filename filename in
  length r = Nat.min (length filename) 255
  /\ Forall (fun c => ~ In c invalid_chars) r
  /\ (forall (i : nat) (c : N),
         (i < 255)%nat -> filename !! i = Some c ->
         r !! i = Some (if is_invalid c then underscore else c))
  /\ _sanitize_filename r = r
  /\ (Forall (fun c => ~ In c invalid_chars) filename ->
      (length filename <= 255)%nat -> r = filename).
Proof.
  intros r.
  assert (Hclean : forall l : list N,
             Forall (fun c => ~ In c invalid_chars) l ->
             map (fun c => if is_invalid c then underscore else c) l = l).
  { intros l Hl. induction Hl as [|c l Hc Hl IH]; [done|]. cbn [map].
    apply is_invalid_false in Hc. now rewrite Hc, IH. }
  assert (Hr : Forall (fun c => ~ In c invalid_chars) r).
  { subst r. rewrite _sanitize_filename_unfold. apply Forall_take.
    apply List.Forall_forall. intros c Hin.
    apply in_map_iff in Hin as (x & <- & _).
    destruct (is_invalid x) eqn:E; [|now apply is_invalid_false].
    apply is_invalid_false. reflexivity. }
  split.
  { subst r. rewrite _sanitize_filename_unfold.
    rewrite length_take, length_map. lia. }
  split; [exact Hr|]. split.
  { intros i c Hi Hl. subst r. rewrite _sanitize_filename_unfold.
    rewrite lookup_take_lt by exact Hi.
    rewrite list_lookup_fmap_Some_2 with (x := c); done. }
  split.
  { rewrite (_sanitize_filename_unfold r), (Hclean r Hr).
    subst r. rewrite _sanitize_filename_unfold. apply take_take. }
  intros Hf Hl. subst r.
  rewrite _sanitize_filename_unfold, (Hclean filename Hf).
  now apply take_ge.
Qed.

Lemma _sanitize_filename_safe_witness :
  let name := [114; 101; 112; 111; 114; 116; 46; 112; 100; 102]%N in
  Forall (fun c => ~ In c invalid_chars) name
  /\ (length name <= 255)%nat
  /\ _sanitize_filename name = name.
Proof.
  intros name.
  assert (H1 : Forall (fun c => ~ In c invalid_chars) name).
  { repeat constructor; intros H; cbn in H; intuition discriminate. }
  assert (H2 : (length name <= 255)%nat) by (cbn; lia).
  destruct (_sanitize_filename_safe name) as (_ & _ & _ & _ & R).
  exact (conj H1 (conj H2 (R H1 H2))).
Defined.

End RetrievalAgentExtra.

(* ===================================================================== *)
(** * Properties of the request monitor *)
(* ===================================================================== *)

Module RequestMonitorExtra.
Import EventBus RequestMonitorAgent.

(** ** The poll *)

Lemma started_app (t u : list Action) :
  started (t ++ u) = started t ++ started u.
Proof. apply omap_app. Qed.

Lemma is_new_spec (a : Agent) (r : Request) :
  is_new a r = true
  <-> exists i, id r = Some i /\ i <> 0 /\ Some i ∉ _processed_request_ids a.
Proof.
  unfold is_new, Py.truthy_int. destruct (id r) as [i|].
  - rewrite andb_true_iff, !negb_true_iff, Z.eqb_neq, bool_decide_eq_false.
    split.
    + intros [H1 H2]. now exists i.
    + intros (j & [= <-] & H1 & H2). now split.
  - split; [done|]. now intros (i & H & _).
Qed.

Lemma poll_new (a : Agent) :
  Forall (fun r => is_new a r = true) (_poll_for_new_requests a).
Proof.
  unfold _poll_for_new_requests, Py.slice_to. apply Forall_take.
  apply List.Forall_forall. intros r Hin. now apply filter_In in Hin.
Qed.

(** ** One request *)

Lemma _dispatch_retrieval_tasks_frame (r : Request) (a : Agent) :
  let a' := _dispatch_retrieval_tasks r a in
  started (trace a') = started (trace a)
  /\ _processed_request_ids a' = _processed_request_ids a
  /\ total_items_processed a' = total_items_processed a
  /\ _pending_requests a' = _pending_requests a
  /\ batch_size a' = batch_size a.
Proof.
  unfold _dispatch_retrieval_tasks.
  destruct (sharepoint_sites r), (mailboxes_to_search r); cbn;
    rewrite ?started_app; cbn; rewrite ?app_nil_r; now repeat split.
Qed.

Lemma _process_new_request_ok (context_error : Request -> option string)
    (r : Request) (a : Agent) :
  context_error r = None ->
  let a' := snd (_process_new_request context_error r a) in
  fst (_process_new_request context_error r a) = None
  /\ started (trace a') = started (trace a) ++ [id r]
  /\ _processed_request_ids a' = {[ id r ]} ∪ _processed_request_ids a
  /\ total_items_processed a' = total_items_processed a + 1
  /\ _pending_requests a' = _pending_requests a
  /\ batch_size a' = batch_size a.
Proof.
  intros Hc. unfold _process_new_request. rewrite Hc.
  destruct (_dispatch_retrieval_tasks_frame r
              (log (Emit REQUEST_CREATED (id r)) a)) as (D1 & D2 & D3 & D4 & D5).
  cbn [fst snd trace _processed_request_ids total_items_processed
       _pending_requests batch_size with_total with_processed].
  rewrite D1, D2, D3, D4, D5. cbn [trace log _processed_request_ids
    total_items_processed _pending_requests batch_size].
  rewrite started_app. now repeat split.
Qed.

Lemma _process_new_request_raises (context_error : Request -> option string)
    (r : Request) (a : Agent) (e : string) :
  context_error r = Some e ->
  _process_new_request context_error r a
  = (Some e, log (Emit EventBus.ERROR (id r)) a).
Proof. intros Hc. unfold _process_new_request. now rewrite Hc. Qed.

(** ** The loop *)

Lemma process_all_ok (context_error : Request -> option string)
    (rs : list Request) (a : Agent) :
  (forall r, In r rs -> context_error r = None) ->
  let a' := snd (process_all context_error rs a) in
  fst (process_all context_error rs a) = None
  /\ started (trace a') = started (trace a) ++ map id rs
  /\ _processed_request_ids a'
     = list_to_set (map id rs) ∪ _processed_request_ids a
  /\ total_items_processed a'
     = total_items_processed a + Z.of_nat (length rs)
  /\ _pending_requests a' = _pending_requests a
  /\ batch_size a' = batch_size a.
Proof.
  revert a. induction rs as [|r rs IH]; intros a Hc.
  - cbn. rewrite app_nil_r, Z.add_0_r.
    repeat split; try done. now rewrite (left_id_L ∅ (∪)).
  - cbn [process_all].
    destruct (_process_new_request_ok context_error r a)
      as (P1 & P2 & P3 & P4 & P5 & P6); [apply Hc; now left|].
    destruct (_process_new_request context_error r a) as [res a1].
    cbn [fst snd] in *. subst res.
    destruct (IH a1) as (I1 & I2 & I3 & I4 & I5 & I6);
      [intros x Hx; apply Hc; now right|].
    rewrite I1, I2, I3, I4, I5, I6, P2, P3, P4, P5, P6.
    cbn [map length list_to_set]. rewrite <- app_assoc.
    repeat split; try done; [|lia].
    rewrite (assoc_L (∪)). f_equal. apply (comm_L (∪)).
Qed.

Lemma process_all_raises (context_error : Request -> option string)
    (before after : list Request) (r : Request) (e : string) (a : Agent) :
  (forall x, In x before -> context_error x = None) ->
  context_error r = Some e ->
  process_all context_error (before ++ r :: after) a
  = (Some e,
     log (Emit EventBus.ERROR (id r))
         (snd (process_all context_error before a))).
Proof.
  revert a. induction before as [|x before IH]; intros a Hb Hr.
  - cbn [app process_all snd].
    now rewrite (_process_new_request_raises context_error r a e Hr).
  - cbn [app process_all].
    destruct (_process_new_request_ok context_error x a) as (P1 & _);
      [apply Hb; now left|].
    destruct (_process_new_request context_error x a) as [res a1].
    cbn [fst] in P1. subst res.
    apply IH; [|done]. intros y Hy. apply Hb. now right.
Qed.

Lemma is_new_after (a a' : Agent) (ids : list (option Z)) :
  _processed_request_ids a'
  = list_to_set ids ∪ _processed_request_ids a ->
  forall x,
    is_new a' x = is_new a x && negb (bool_decide (id x ∈ ids)).
Proof.
  intros Hp x. unfold is_new. rewrite Hp. destruct (id x) as [i|]; [|done].
  rewrite <- andb_assoc. f_equal. rewrite <- negb_orb. f_equal.
  destruct (bool_decide_reflect (Some i ∈ _processed_request_ids a)) as [H1|H1],
           (bool_decide_reflect (Some i ∈ ids)) as [H2|H2]; cbn [orb];
    [apply bool_decide_eq_true_2|apply bool_decide_eq_true_2
    |apply bool_decide_eq_true_2|apply bool_decide_eq_false_2];
    rewrite elem_of_union, elem_of_list_to_set; tauto.
Qed.

(** X29.  A cycle of the request monitor in which no request is
    malformed returns success and starts one workflow for every request
    of the poll, in order.  The poll holds requests of the pending list, in
    their order, whose id is present, is not zero and is not recorded as
    processed, and at most [batch_size] of them (for a [batch_size] that
    is not negative).  After the cycle the ids of the poll are recorded as
    processed, the count of processed items has grown by the size of the
    poll, the pending list is unchanged, and the next poll returns no
    request with one of these ids. *)
Theorem run_starts_new_requests (context_error : Request -> option string)
    (a : Agent) :
  (forall r, In r (_poll_for_new_requests a) -> context_error r = None) ->
  let batch := _poll_for_new_requests a in
  let a' := snd (run context_error a) in
  fst (run context_error a) = BaseAgent.Return true
  /\ batch `sublist_of` _pending_requests a
  /\ Forall (fun r => exists i,
               id r = Some i /\ i <> 0
               /\ Some i ∉ _processed_request_ids a) batch
  /\ (0 <= batch_size a -> Z.of_nat (length batch) <= batch_size a)
  /\ started (trace a') = started (trace a) ++ map id batch
  /\ _processed_request_ids a'
     = list_to_set (map id batch) ∪ _processed_request_ids a
  /\ total_items_processed a'
     = total_items_processed a + Z.of_nat (length batch)
  /\ _pending_requests a' = _pending_requests a
  /\ Forall (fun r => ~ In (id r) (map id batch))
            (_poll_for_new_requests a').
Proof.
  intros Hc batch a'.
  destruct (process_all_ok context_error batch a Hc)
    as (P1 & P2 & P3 & P4 & P5 & P6).
  assert (Hrun : run context_error a
                 = (BaseAgent.Return true,
                    snd (process_all context_error batch a))).
  { unfold run. fold batch. destruct batch as [|r rs] eqn:Eb; [done|].
    destruct (process_all context_error (r :: rs) a) as [res a1].
    cbn [fst snd] in *. now subst res. }
  subst a'. rewrite Hrun. cbn [fst snd].
  split; [done|]. split.
  { subst batch. unfold _poll_for_new_requests, _fetch_pending_requests.
    etrans; [apply PyFacts.slice_to_sublist|apply PyFacts.filter_sublist]. }
  split.
  { eapply Forall_impl; [apply poll_new|]. intros r. apply is_new_spec. }
  split.
  { intros Hb. subst batch. unfold _poll_for_new_requests.
    now apply PyFacts.slice_to_length. }
  split; [done|]. split; [done|]. split; [done|]. split; [done|].
  eapply Forall_impl; [apply poll_new|]. intros r Hn. cbn beta in Hn.
  rewrite (is_new_after a _ (map id batch) P3) in Hn.
  apply andb_true_iff in Hn as [_ Hn].
  apply negb_true_iff, bool_decide_eq_false in Hn.
  now rewrite <- list_elem_of_In.
Qed.

Lemma run_starts_new_requests_witness :
  let r1 := {| id := Some 7; sharepoint_sites := ["hr"]; custodians := [] |} in
  let r0 := {| id := Some 0; sharepoint_sites := []; custodians := [] |} in
  let r2 := {| id := Some 8; sharepoint_sites := [];
               custodians := [Some "clerk@city.example"] |} in
  let r3 := {| id := Some 9; sharepoint_sites := []; custodians := [] |} in
  let a := add_pending_request r3
             (add_pending_request r2
                (add_pending_request r0
                   (add_pending_request r1 (__init__ 2)))) in
  let a' := snd (run (fun _ => None) a) in
  _poll_for_new_requests a = [r1; r2]
  /\ started (trace a') = [Some 7; Some 8]
  /\ _poll_for_new_requests a' = [r3].
Proof.
  intros r1 r0 r2 r3 a a'.
  assert (Hc : forall r, In r (_poll_for_new_requests a)
                         -> (fun _ : Request => @None string) r = None)
    by reflexivity.
  destruct (run_starts_new_requests (fun _ => None) a Hc)
    as (_ & _ & _ & _ & R & _).
  split; [reflexivity|]. split; [exact R|].
  vm_compute. reflexivity.
Defined.

(** X30.  When the processing of a request of the poll raises, the
    cycle raises the same exception after an [ERROR] event for that
    request; the requests before it have their workflows started and are
    recorded as processed, the failing one and those after it are not.  So
    (for a [batch_size] that is not negative, and unless an earlier request
    of the poll had the same id) the next poll, which is what a retry of
    the cycle runs, begins with the failing request. *)
Theorem run_failure_keeps_progress (context_error : Request -> option string)
    (a : Agent) (before after : list Request) (r : Request) (e : string) :
  _poll_for_new_requests a = before ++ r :: after ->
  (forall x, In x before -> context_error x = None) ->
  context_error r = Some e ->
  let a' := snd (run context_error a) in
  fst (run context_error a) = BaseAgent.Raise e
  /\ started (trace a') = started (trace a) ++ map id before
  /\ last (trace a') = Some (Emit EventBus.ERROR (id r))
  /\ _processed_request_ids a'
     = list_to_set (map id before) ∪ _processed_request_ids a
  /\ total_items_processed a'
     = total_items_processed a + Z.of_nat (length before)
  /\ (0 <= batch_size a -> ~ In (id r) (map id before) ->
      exists rest, _poll_for_new_requests a' = r :: rest).
Proof.
  intros Hp Hb Hr a'.
  destruct (process_all_ok context_error before a Hb)
    as (P1 & P2 & P3 & P4 & P5 & P6).
  assert (Hrun : run context_error a
                 = (BaseAgent.Raise e,
                    log (Emit EventBus.ERROR (id r))
                        (snd (process_all context_error before a)))).
  { unfold run. rewrite Hp.
    rewrite (process_all_raises context_error before after r e a Hb Hr).
    now destruct before. }
  subst a'. rewrite Hrun. cbn [fst snd].
  set (a1 := snd (process_all context_error before a)) in *.
  cbn [trace log _processed_request_ids total_items_processed].
  rewrite started_app, P2. cbn [started omap]. rewrite app_nil_r.
  split; [done|]. split; [done|]. split; [apply last_snoc|].
  split; [done|]. split; [done|].
  intros Hbs Hnew.
  unfold _poll_for_new_requests, _fetch_pending_requests in Hp |- *.
  cbn [_pending_requests batch_size log]. rewrite P5, P6.
  set (news := List.filter (is_new a) (_pending_requests a)) in *.
  assert (Hf : List.filter
                 (is_new (log (Emit EventBus.ERROR (id r)) a1))
                 (_pending_requests a)
               = List.filter
                   (fun x => negb (bool_decide (id x ∈ map id before)))
                   news).
  { subst news. rewrite <- PyFacts.filter_andb. apply List.filter_ext. intros x.
    apply (is_new_after a _ (map id before)). exact P3. }
  rewrite Hf.
  rewrite PyFacts.slice_to_take in Hp |- * by exact Hbs.
  assert (Hn : news = (before ++ r :: after)
                      ++ drop (Z.to_nat (batch_size a)) news).
  { rewrite <- Hp. symmetry. apply take_drop. }
  assert (Hpos : (0 < Z.to_nat (batch_size a))%nat).
  { destruct (Z.to_nat (batch_size a)); [|lia].
    rewrite take_0 in Hp. now destruct before. }
  rewrite Hn, <- app_assoc, List.filter_app.
  rewrite (EventBusExtra.filter_none _ before).
  2:{ intros x Hx. apply negb_false_iff, bool_decide_eq_true.
      apply list_elem_of_In. now apply in_map. }
  cbn [app List.filter].
  rewrite bool_decide_eq_false_2 by (now rewrite list_elem_of_In).
  cbn [negb].
  destruct (Z.to_nat (batch_size a)) as [|k]; [lia|].
  cbn [take]. eauto.
Qed.

Lemma run_failure_keeps_progress_witness :
  let r1 := {| id := Some 7; sharepoint_sites := ["hr"]; custodians := [] |} in
  let r2 := {| id := Some 8; sharepoint_sites := [];
               custodians := [Some "clerk@city.example"] |} in
  let r3 := {| id := Some 9; sharepoint_sites := []; custodians := [] |} in
  let a := add_pending_request r3
             (add_pending_request r2
                (add_pending_request r1 (__init__ 10))) in
  let context_error := fun x =>
    if bool_decide (id x = Some 8) then Some "bad date range" else None in
  let a' := snd (run context_error a) in
  fst (run context_error a) = BaseAgent.Raise "bad date range"
  /\ started (trace a') = [Some 7]
  /\ exists rest, _poll_for_new_requests a' = r2 :: rest.
Proof.
  intros r1 r2 r3 a context_error a'.
  assert (H1 : _poll_for_new_requests a = [r1] ++ r2 :: [r3])
    by (vm_compute; reflexivity).
  assert (H2 : forall x, In x [r1] -> context_error x = None).
  { intros x [<-|[]]. reflexivity. }
  assert (H3 : context_error r2 = Some "bad date range") by reflexivity.
  destruct (run_failure_keeps_progress context_error a [r1] [r3] r2 _ H1 H2 H3)
    as (R1 & R2 & _ & _ & _ & R3).
  split; [exact R1|]. split; [exact R2|].
  apply R3; [vm_compute; discriminate|].
  cbn. intros [H|[]]. discriminate.
Defined.

End RequestMonitorExtra.
